(** * 3-digit lotto analyzer: the draw parser, the draw collection, the
    frequency analysis and the prediction requestor, embedded from the
    TypeScript sources and checked against the specification.

    Layout: the model first (one module per source file or JavaScript
    facility), then the properties. *)

From Stdlib Require Import ZArith QArith List Bool Lia String Ascii.
From Stdlib Require Import Floats.SpecFloat.
From stdpp Require Import base option list sorting gmap.
Import ListNotations.

Local Open Scope Z_scope.

(* ================================================================== *)
(** * Part I: the model *)
(* ================================================================== *)

(** ** JavaScript strings, numbers and arrays, as the sources use them *)

Module JS.

(** A string is a sequence of UTF-16 code units, a [list N]. Literals of
    the model: the code units of an ASCII text. *)
Fixpoint str (s : string) : list N :=
  match s with
  | EmptyString => []
  | String a s' => N_of_ascii a :: str s'
  end.

(** [WhiteSpace] and [LineTerminator] of ECMA-262: the class [\s] of a
    regular expression and the characters [String.prototype.trim] strips. *)
Definition isWhiteSpace (c : N) : bool :=
  ((9 <=? c) && (c <=? 13) || (c =? 32) || (c =? 160) || (c =? 5760)
   || (8192 <=? c) && (c <=? 8202) || (c =? 8232) || (c =? 8233)
   || (c =? 8239) || (c =? 8287) || (c =? 12288) || (c =? 65279))%N.

(** The class [\w]: ASCII letters, digits and the underscore. *)
Definition isWordChar (c : N) : bool :=
  ((97 <=? c) && (c <=? 122) || (65 <=? c) && (c <=? 90)
   || (48 <=? c) && (c <=? 57) || (c =? 95))%N.

Fixpoint takeWhile {A} (p : A -> bool) (l : list A) : list A :=
  match l with
  | [] => []
  | x :: l' => if p x then x :: takeWhile p l' else []
  end.

Fixpoint dropWhile {A} (p : A -> bool) (l : list A) : list A :=
  match l with
  | [] => []
  | x :: l' => if p x then dropWhile p l' else l
  end.

(** [s.trim()] *)
Definition trim (s : list N) : list N :=
  rev (dropWhile isWhiteSpace (rev (dropWhile isWhiteSpace s))).

(** [s.split(/[c]+/)] for a character class [c]: the pieces between the
    maximal runs of class characters; a run at either end of [s] leaves an
    empty piece there, and the empty string splits into one empty piece.
    [cur] is the piece being read, reversed; [in_run] is set right after a
    separator. *)
Fixpoint split_go (sep : N -> bool) (in_run : bool) (cur : list N)
    (s : list N) : list (list N) :=
  match s with
  | [] => [rev cur]
  | c :: s' =>
      if sep c then
        if in_run then split_go sep true [] s'
        else rev cur :: split_go sep true [] s'
      else split_go sep false (c :: cur) s'
  end.

Definition split_runs (sep : N -> bool) (s : list N) : list (list N) :=
  split_go sep false [] s.

(** [s.split(/\r\n|\n/)]: a piece ends at a line feed, or at a carriage
    return that a line feed follows. *)
Fixpoint split_lines_go (cur : list N) (s : list N) : list (list N) :=
  match s with
  | [] => [rev cur]
  | 10%N :: s' => rev cur :: split_lines_go [] s'
  | 13%N :: s' =>
      match s' with
      | 10%N :: s'' => rev cur :: split_lines_go [] s''
      | _ => split_lines_go (13%N :: cur) s'
      end
  | c :: s' => split_lines_go (c :: cur) s'
  end.

Definition split_lines (s : list N) : list (list N) := split_lines_go [] s.

(** *** Numbers: IEEE 754 binary64 *)

Definition number := spec_float.

Definition prec : Z := 53.
Definition emax : Z := 1024.

Definition NaN : number := S754_nan.

(** The double nearest to an integer (ties to even). *)
Definition of_Z (z : Z) : number := binary_normalize prec emax z 0 false.

Definition div (a b : number) : number := SFdiv prec emax a b.
Definition mul (a b : number) : number := SFmul prec emax a b.
Definition sub (a b : number) : number := SFsub prec emax a b.

(** [isNaN(n)] *)
Definition isNaN (n : number) : bool :=
  match n with S754_nan => true | _ => false end.

(** The exact value of a finite number (0 for the others). *)
Definition exactQ (n : number) : Q :=
  match n with
  | S754_finite s m e =>
      let z := if s then Zneg m else Zpos m in
      if 0 <=? e then inject_Z (z * 2 ^ e) else Qmake z (Z.to_pos (2 ^ (- e)))
  | _ => 0%Q
  end.

(** The comparison behind [<] and [>]: none when an operand is NaN,
    else that of the exact values, the infinities at both ends. *)
Definition compare (a b : number) : option comparison :=
  match a, b with
  | S754_nan, _ | _, S754_nan => None
  | S754_infinity s1, S754_infinity s2 =>
      Some (if s1 then (if s2 then Eq else Lt) else (if s2 then Gt else Eq))
  | S754_infinity s, _ => Some (if s then Lt else Gt)
  | _, S754_infinity s => Some (if s then Gt else Lt)
  | _, _ => Some (Qcompare (exactQ a) (exactQ b))
  end.

(** [a < b] and [a > b] *)
Definition lt (a b : number) : bool :=
  match compare a b with Some Lt => true | _ => false end.
Definition gt (a b : number) : bool :=
  match compare a b with Some Gt => true | _ => false end.

(** [Number.isInteger(n)] *)
Definition isInteger (n : number) : bool :=
  match n with
  | S754_zero _ => true
  | S754_finite _ m e => (0 <=? e) || (Zpos m mod 2 ^ (- e) =? 0)
  | _ => false
  end.

(** The integer a number is, when it is one. *)
Definition asInteger (n : number) : option Z :=
  match n with
  | S754_zero _ => Some 0
  | S754_finite s m e =>
      let z := if s then Zneg m else Zpos m in
      if 0 <=? e then Some (z * 2 ^ e)
      else if Zpos m mod 2 ^ (- e) =? 0 then Some (z / 2 ^ (- e))
      else None
  | _ => None
  end.

(** *** [Number(s)] on a string: StringToNumber of ECMA-262 *)

Definition isDigit (c : N) : bool := ((48 <=? c) && (c <=? 57))%N.

Definition digitValue (c : N) : option Z :=
  if isDigit c then Some (Z.of_N c - 48)
  else if ((97 <=? c) && (c <=? 102))%N then Some (Z.of_N c - 87)
  else if ((65 <=? c) && (c <=? 70))%N then Some (Z.of_N c - 55)
  else None.

(** The value of a digit sequence in a radix; none when a character is not
    a digit of that radix. *)
Fixpoint digitsValue (radix : Z) (acc : Z) (ds : list N) : option Z :=
  match ds with
  | [] => Some acc
  | c :: ds' =>
      match digitValue c with
      | Some d => if d <? radix then digitsValue radix (acc * radix + d) ds' else None
      | None => None
      end
  end.

(** A digit sequence that must not be empty. *)
Definition digitsLiteral (radix : Z) (ds : list N) : option Z :=
  match ds with
  | [] => None
  | _ => digitsValue radix 0 ds
  end.

(** The double nearest to [d * 10 ^ k], for [d >= 0], with the sign [neg]. *)
Definition decimalToDouble (neg : bool) (d k : Z) : number :=
  match d with
  | Z0 => S754_zero neg
  | Zpos p =>
      if 0 <=? k then
        binary_normalize prec emax ((if neg then Zneg p else Zpos p) * 10 ^ k) 0 false
      else div (S754_finite neg p 0) (S754_finite false (Z.to_pos (10 ^ (- k))) 0)
  | Zneg _ => NaN
  end.

(** ExponentPart, or nothing. *)
Definition exponentPart (r : list N) : option Z :=
  match r with
  | [] => Some 0
  | c :: r' =>
      if ((c =? 101) || (c =? 69))%N then
        match r' with
        | 43%N :: ds => digitsLiteral 10 ds
        | 45%N :: ds => Z.opp <$> digitsLiteral 10 ds
        | _ => digitsLiteral 10 r'
        end
      else None
  end.

(** StrUnsignedDecimalLiteral *)
Definition strUnsignedDecimalLiteral (neg : bool) (s : list N) : number :=
  if decide (s = str "Infinity") then S754_infinity neg
  else
    let ip := takeWhile isDigit s in
    let r1 := dropWhile isDigit s in
    let '(fp, r2) :=
      match r1 with
      | 46%N :: r => (takeWhile isDigit r, dropWhile isDigit r)
      | _ => ([], r1)
      end in
    match ip ++ fp with
    | [] => NaN
    | ds =>
        match digitsValue 10 0 ds, exponentPart r2 with
        | Some d, Some e => decimalToDouble neg d (e - Z.of_nat (length fp))
        | _, _ => NaN
        end
    end.

(** StrDecimalLiteral: an optional sign first. *)
Definition strDecimalLiteral (s : list N) : number :=
  match s with
  | 43%N :: r => strUnsignedDecimalLiteral false r
  | 45%N :: r => strUnsignedDecimalLiteral true r
  | _ => strUnsignedDecimalLiteral false s
  end.

(** NonDecimalIntegerLiteral, after its two-character prefix. *)
Definition nonDecimalLiteral (radix : Z) (ds : list N) : number :=
  match digitsLiteral radix ds with
  | Some z => of_Z z
  | None => NaN
  end.

(** [Number(s)]: surrounding white space dropped, the empty string is 0,
    then a hexadecimal, octal or binary integer or a decimal literal;
    everything else is NaN. The value is rounded to the nearest double,
    ties to even, as the engines do for literals of any length (ECMA-262
    lets an implementation round a decimal literal after its 20th
    significant digit). *)
Definition Number (s : list N) : number :=
  match trim s with
  | [] => S754_zero false
  | 48%N :: c :: ds =>
      if ((c =? 120) || (c =? 88))%N then nonDecimalLiteral 16 ds
      else if ((c =? 111) || (c =? 79))%N then nonDecimalLiteral 8 ds
      else if ((c =? 98) || (c =? 66))%N then nonDecimalLiteral 2 ds
      else strDecimalLiteral (48%N :: c :: ds)
  | t => strDecimalLiteral t
  end.

(** *** [Array.prototype.sort(cmp)]

    The sort is stable; for a consistent comparator its result is the
    stable insertion of every element, from the right, before the first
    element it does not compare greater than. The comparator's result is
    read by its sign. *)
Fixpoint insert_by {A} (cmp : A -> A -> Z) (x : A) (l : list A) : list A :=
  match l with
  | [] => [x]
  | y :: l' => if 0 <? cmp x y then y :: insert_by cmp x l' else x :: l
  end.

Definition sort_by {A} (cmp : A -> A -> Z) (l : list A) : list A :=
  foldr (insert_by cmp) [] l.

(** [x] may stand before [y]: the comparator does not put [y] first. *)
Definition before {A} (cmp : A -> A -> Z) (x y : A) : Prop := cmp x y <= 0.

(** The sign of a number, as a comparator's result is read (NaN as 0). *)
Definition sign (n : number) : Z :=
  if lt n (S754_zero false) then -1
  else if gt n (S754_zero false) then 1 else 0.

(** [new Set(l).size] on numbers without NaN: the elements that differ
    from all elements before them (the two zeros are one element). *)
Definition same (a b : number) : bool :=
  match compare a b with Some Eq => true | _ => false end.

Fixpoint setSize (seen : list number) (l : list number) : nat :=
  match l with
  | [] => 0%nat
  | x :: l' =>
      if existsb (same x) seen then setSize seen l'
      else S (setSize (x :: seen) l')
  end.

End JS.

(** ** types.ts and constants.ts *)

Module Types.

Record LottoGame := {
  id : string;
  name : string;
  maxNumber : Z;                      (* max value of a digit *)
  numbersToPick : nat;                (* digits per draw *)
  digitMinNumber : option Z;          (* min value of a digit, optional *)
  isOrderSignificant : option bool;   (* optional *)
  drawDays : option string            (* optional *)
}.

(** [DrawResult = number[]], as the parser builds it. *)
Definition DrawResult := list JS.number.

(** The numbers of a validated draw are integers of the game's range
    (0 to 9 for the one game of the catalog). The collection, the analysis
    and the prompt are modelled on such draws, with the integers
    themselves as values: as property keys they are array indices, which
    [Object.entries] lists in ascending order and [parseInt] reads back. *)
Definition Draw := list N.

Definition game3d : LottoGame := {|
  id := "3d"%string;
  name := "3 Digit Lotto (Swertres)"%string;
  maxNumber := 9;
  numbersToPick := 3;
  digitMinNumber := Some 0;
  isOrderSignificant := Some true;
  drawDays := Some "Daily 2PM, 5PM, 9PM"%string
|}.

Definition LOTTO_GAMES : list LottoGame := [game3d].

(** [FrequencyData]: a digit, its count and its share of all digits
    entered, in percent. *)
Record FrequencyData := {
  number : N;
  count : nat;
  percentage : JS.number
}.

Definition DEFAULT_GAME_ID : string := id game3d.

End Types.

(** ** components/LottoForm.tsx: the draw parser *)

Module LottoForm.
Import Types JS.

(** The messages [validateAndParseDraw] returns, one constructor per
    template, with the values the template interpolates. *)
Inductive ValidationError :=
  | Exactly3Digits (gameName : string) (entered : nat) (input : list N)
  | NumericDigits (input : list N)
  | DigitRange (input : list N)
  | ExactlyN (expected : nat) (gameName : string) (input : list N)
  | MustBeNumbers (input : list N)
  | NumberRange (lo hi : Z) (input : list N)
  | MustBeUnique (input : list N).

(** The error taxonomy of the specification. *)
Inductive ErrorKind := WrongCount | NotNumeric | OutOfRange | DuplicateValue.

Definition errorKind (e : ValidationError) : ErrorKind :=
  match e with
  | Exactly3Digits _ _ _ | ExactlyN _ _ _ => WrongCount
  | NumericDigits _ | MustBeNumbers _ => NotNumeric
  | DigitRange _ | NumberRange _ _ _ => OutOfRange
  | MustBeUnique _ => DuplicateValue
  end.

(** The raw text a failure carries. *)
Definition rawText (e : ValidationError) : list N :=
  match e with
  | Exactly3Digits _ _ i | NumericDigits i | DigitRange i | ExactlyN _ _ i
  | MustBeNumbers i | NumberRange _ _ i | MustBeUnique i => i
  end.

(** The character class [[,-\s]]: comma, hyphen, white space (a class
    escape ends no range, so the hyphen stands for itself). *)
Definition separator (c : N) : bool :=
  ((c =? 44) || (c =? 45))%N || isWhiteSpace c.

Definition nonEmpty (s : list N) : bool :=
  match s with [] => false | _ => true end.

(** [input.split(/[,-\s]+/).map(s => s.trim()).filter(s => s !== '')] *)
Definition tokens (input : list N) : list (list N) :=
  List.filter nonEmpty (map trim (split_runs separator input)).

(** [n < 0 || n > 9 || !Number.isInteger(n)] *)
Definition notDigit (n : number) : bool :=
  lt n (of_Z 0) || gt n (of_Z 9) || negb (isInteger n).

(** [n < (game.digitMinNumber ?? 1) || n > game.maxNumber || !Number.isInteger(n)] *)
Definition notInRange (game : LottoGame) (n : number) : bool :=
  lt n (of_Z (default 1 (digitMinNumber game))) || gt n (of_Z (maxNumber game))
  || negb (isInteger n).

Definition validateAndParseDraw (input : list N) (game : LottoGame)
    : ValidationError + DrawResult :=
  let numbersStr := tokens input in
  if String.eqb (id game) "3d" then
    if negb (length numbersStr =? 3)%nat then
      inl (Exactly3Digits (name game) (length numbersStr) input)
    else
      let numbers := map Number numbersStr in
      if existsb isNaN numbers then inl (NumericDigits input)
      else if existsb notDigit numbers then inl (DigitRange input)
      else inr numbers
  else
    if negb (length numbersStr =? numbersToPick game)%nat then
      inl (ExactlyN (numbersToPick game) (name game) input)
    else
      let numbers := map Number numbersStr in
      if existsb isNaN numbers then inl (MustBeNumbers input)
      else if existsb (notInRange game) numbers then
        inl (NumberRange (default 1 (digitMinNumber game)) (maxNumber game) input)
      else if negb (default false (isOrderSignificant game))
              && negb (setSize [] numbers =? length numbers)%nat then
        inl (MustBeUnique input)
      else if default false (isOrderSignificant game) then inr numbers
      else inr (sort_by (fun a b => sign (sub a b)) numbers).

(** The draw a parsed line stands for: its numbers, which a successful
    parse leaves integers within the game's range, as those integers. *)
Definition toDraw (numbers : DrawResult) : Draw :=
  map (fun n => Z.to_N (default 0 (asInteger n))) numbers.

(** [handleAddDraw]: the message to show, or the draw for [onAddDraw]. *)
Definition handleAddDraw (currentDrawInput : list N) (selectedGame : LottoGame)
    : ValidationError + Draw :=
  match validateAndParseDraw currentDrawInput selectedGame with
  | inl result => inl result
  | inr result => inr (toDraw result)
  end.

(** One entry of [errors]: [`Line ${index + 1} ('${line}'): ${result}`]. *)
Record LineError := {
  lineLabel : nat;
  lineText : list N;
  reason : ValidationError
}.

(** [text.split(/\r\n|\n/).map(line => line.trim()).filter(line => line.length > 0)] *)
Definition csvLines (text : list N) : list (list N) :=
  List.filter nonEmpty (map trim (split_lines text)).

(** The body of [lines.forEach((line, index) => ...)], on the two arrays
    it pushes to. *)
Definition processLine (game : LottoGame)
    (acc : list DrawResult * list LineError) (il : nat * list N)
    : list DrawResult * list LineError :=
  let '(parsedDraws, errors) := acc in
  let '(index, line) := il in
  match validateAndParseDraw line game with
  | inl result =>
      (parsedDraws,
       errors ++ [{| lineLabel := index + 1; lineText := line; reason := result |}])
  | inr result => (parsedDraws ++ [result], errors)
  end.

Definition processCsvText (text : list N) (game : LottoGame)
    : list DrawResult * list LineError :=
  fold_left (processLine game) (imap pair (csvLines text)) ([], []).

(** The message of a failed upload:
    [`Errors in CSV file:\n- ${errors.slice(0, 5).join('\n- ')}${errors.length > 5 ? `\n...and ${errors.length - 5} more errors.` : ''}`] *)
Record ErrorReport := {
  shown : list LineError;
  more : option nat
}.

Definition errorReport (errors : list LineError) : ErrorReport := {|
  shown := take 5 errors;
  more := if (5 <? length errors)%nat then Some (length errors - 5)%nat else None
|}.

(** What [reader.onload] of [handleFileUpload] does with the file's text:
    one of the messages of [setFileError], or [onAddMultipleDraws]. *)
Inductive UploadOutcome :=
  | CouldNotRead
  | ErrorsInCsv (report : ErrorReport)
  | NoValidDraws
  | EmptyFile
  | AddMultipleDraws (draws : list Draw).

Definition handleFileUpload (text : list N) (game : LottoGame) : UploadOutcome :=
  match text with
  | [] => CouldNotRead
  | _ =>
      let '(parsedDraws, errors) := processCsvText text game in
      if (0 <? length errors)%nat then ErrorsInCsv (errorReport errors)
      else if (length parsedDraws =? 0)%nat && (0 <? length (csvLines text))%nat
      then NoValidDraws
      else if (length parsedDraws =? 0)%nat then EmptyFile
      else AddMultipleDraws (map toDraw parsedDraws)
  end.

End LottoForm.

(** ** services/geminiService.ts: the prediction requestor *)

Module GeminiService.
Import Types JS.

(** What [JSON.parse] returns. The fields of an object are looked up by
    key, the first entry of a key standing for the property. *)
#[warnings="-register-all"]
Inductive JSValue :=
  | JNull
  | JBool (b : bool)
  | JNumber (n : number)
  | JString (s : list N)
  | JArray (l : list JSValue)
  | JObject (fields : list (list N * JSValue)).

(** [GeminiPrediction], as the validation leaves it: every predicted number
    has passed [typeof num === 'number']; the summary is whatever truthy
    value the response carried. *)
Record GeminiPrediction := {
  predictedNumbers : list number;
  analysisSummary : JSValue
}.

(** *** The fence pattern, as a backtracking matcher

    Each piece of the pattern maps the input to the ways it can match at
    its start, in the order backtracking tries them: what it consumed and
    what is left. Pieces are chained in the list monad, and the match is
    the first alternative of the chain. *)

(** [c*] for a class [c], greedy: the longest run first. *)
Fixpoint star_greedy (p : N -> bool) (s : list N) : list (list N * list N) :=
  match s with
  | [] => [([], [])]
  | c :: s' =>
      if p c then map (fun mr => (c :: fst mr, snd mr)) (star_greedy p s') ++ [([], s)]
      else [([], s)]
  end.

(** [.*?] with the flag [s]: any characters, the shortest run first. *)
Fixpoint star_lazy_any (s : list N) : list (list N * list N) :=
  ([], s) ::
  match s with
  | [] => []
  | c :: s' => map (fun mr => (c :: fst mr, snd mr)) (star_lazy_any s')
  end.

(** [c?] for one character, greedy. *)
Definition opt_char (c : N) (s : list N) : list (list N * list N) :=
  match s with
  | c' :: s' => if (c' =? c)%N then [([c], s'); ([], s)] else [([], s)]
  | [] => [([], [])]
  end.

(** Three backticks. *)
Definition fence : list N := [96; 96; 96]%N.

Definition lit_fence (s : list N) : list (list N * list N) :=
  match s with
  | a :: b :: c :: r =>
      if ((a =? 96) && (b =? 96) && (c =? 96))%N then [(fence, r)] else []
  | _ => []
  end.

(** [$] without the flag [m]. *)
Definition eos (s : list N) : list unit :=
  match s with [] => [tt] | _ => [] end.

(** The end of the pattern, after the second group: [\n?\s*```$]. *)
Definition fenceClose (s : list N) : list unit :=
  mr1 ← opt_char 10 s;
  mr2 ← star_greedy isWhiteSpace (snd mr1);
  mr3 ← lit_fence (snd mr2);
  eos (snd mr3).

(** [jsonStr.match(fenceRegex)], reduced to its second group (the only one
    read). The pattern, with the flag [s], is in order: the start of the
    text, three backticks, an optional group of a greedy word run [\w],
    a greedy run of [\s], an optional line feed, the second group (a lazy
    run of any characters), an optional line feed, a greedy run of [\s],
    three backticks, the end of the text. The optional first group tries
    the word runs from the longest down to one character, then no group:
    the same texts as a greedy word run consumes. *)
Definition fenceMatch (jsonStr : list N) : option (list N) :=
  head (
    mr0 ← lit_fence jsonStr;
    mr1 ← star_greedy isWordChar (snd mr0);
    mr2 ← star_greedy isWhiteSpace (snd mr1);
    mr3 ← opt_char 10 (snd mr2);
    mr4 ← star_lazy_any (snd mr3);
    _ ← fenceClose (snd mr4);
    [fst mr4]).

(** Lines 76-81: the text handed to [JSON.parse]. *)
Definition stripFence (text : list N) : list N :=
  let jsonStr := trim text in
  match fenceMatch jsonStr with
  | Some (c :: body) => trim (c :: body)      (* match && match[2] *)
  | _ => jsonStr
  end.

(** *** Validation of the parsed response *)

(** What the [try] block throws, one constructor per message. *)
Inductive Thrown :=
  | SyntaxError                                   (* JSON.parse *)
  | TypeError                                     (* a property of null or undefined *)
  | EndpointError (message : option (list N))     (* the call rejected; no message: not an Error *)
  | InvalidStructure
  | WrongDigitCount (predicted : nat)
  | InvalidDigit (num : JSValue) (position : nat)
  | WrongNumberCount (predicted expected : nat)
  | InvalidNumber (num : JSValue) (lo hi : Z)
  | NotUnique (expected got : nat).

(** What the caller receives: the guard's error, or the [catch] block's. *)
Inductive PredictionError :=
  | ClientNotInitialized
  | FailedToParse
  | FailedToGet (cause : Thrown)
  | UnknownError.

(** The [catch] block. *)
Definition rethrow (error : Thrown) : PredictionError :=
  match error with
  | SyntaxError => FailedToParse
  | EndpointError None => UnknownError
  | _ => FailedToGet error
  end.

(** The prediction-path taxonomy of the specification. *)
Inductive ErrorKind := ServiceUnavailable | MalformedResponse | InvalidPredictionValue.

Definition thrownKind (t : Thrown) : option ErrorKind :=
  match t with
  | SyntaxError | InvalidStructure => Some MalformedResponse
  | WrongDigitCount _ | InvalidDigit _ _ | WrongNumberCount _ _
  | InvalidNumber _ _ _ | NotUnique _ _ => Some InvalidPredictionValue
  | TypeError | EndpointError _ => None
  end.

Definition errorKind (e : PredictionError) : option ErrorKind :=
  match e with
  | ClientNotInitialized => Some ServiceUnavailable
  | FailedToParse => Some MalformedResponse
  | FailedToGet cause => thrownKind cause
  | UnknownError => None
  end.

(** [!v] is false *)
Definition truthy (v : JSValue) : bool :=
  match v with
  | JNull => false
  | JBool b => b
  | JNumber n => negb (isNaN n) && negb (same n (S754_zero false))
  | JString s => match s with [] => false | _ => true end
  | JArray _ | JObject _ => true
  end.

Fixpoint assoc (k : list N) (fields : list (list N * JSValue)) : option JSValue :=
  match fields with
  | [] => None
  | (k', v) :: fields' => if decide (k' = k) then Some v else assoc k fields'
  end.

(** [parsedData.key] for a key that is no property of arrays, strings,
    numbers or booleans: an error on null, undefined on those. *)
Definition getField (k : list N) (parsedData : JSValue) : Thrown + option JSValue :=
  match parsedData with
  | JNull => inl TypeError
  | JObject fields => inr (assoc k fields)
  | _ => inr None
  end.

(** [typeof num !== 'number' || num < 0 || num > 9 || !Number.isInteger(num)] *)
Definition invalidDigit (num : JSValue) : bool :=
  match num with
  | JNumber n => lt n (of_Z 0) || gt n (of_Z 9) || negb (isInteger n)
  | _ => true
  end.

(** The [forEach] of the 3-digit branch: the first invalid digit throws,
    with its position. *)
Fixpoint checkDigits (index : nat) (nums : list JSValue) : Thrown + list number :=
  match nums with
  | [] => inr []
  | num :: nums' =>
      match num with
      | JNumber n =>
          if invalidDigit num then inl (InvalidDigit num (index + 1))
          else match checkDigits (S index) nums' with
               | inl e => inl e
               | inr l => inr (n :: l)
               end
      | _ => inl (InvalidDigit num (index + 1))
      end
  end.

(** [typeof num !== 'number' || num < (game.digitMinNumber ?? 1)
     || num > game.maxNumber || !Number.isInteger(num)] *)
Definition invalidNumber (game : LottoGame) (num : JSValue) : bool :=
  match num with
  | JNumber n =>
      lt n (of_Z (default 1 (digitMinNumber game))) || gt n (of_Z (maxNumber game))
      || negb (isInteger n)
  | _ => true
  end.

Fixpoint checkNumbers (game : LottoGame) (nums : list JSValue) : Thrown + list number :=
  match nums with
  | [] => inr []
  | num :: nums' =>
      match num with
      | JNumber n =>
          if invalidNumber game num then
            inl (InvalidNumber num (default 1 (digitMinNumber game)) (maxNumber game))
          else match checkNumbers game nums' with
               | inl e => inl e
               | inr l => inr (n :: l)
               end
      | _ => inl (InvalidNumber num (default 1 (digitMinNumber game)) (maxNumber game))
      end
  end.

(** SameValueZero, the equality of a [Set] on numbers: NaN is NaN, and
    the two zeros are one value. *)
Definition sameValueZero (a b : number) : bool :=
  same a b || (isNaN a && isNaN b).

(** What [Set.prototype.add] stores for a number: -0 is stored as +0. *)
Definition setElement (x : number) : number :=
  match x with
  | S754_zero _ => S754_zero false
  | _ => x
  end.

(** [Array.from(new Set(l))]: the first occurrences, in order, as the
    set stores them. *)
Fixpoint unique (seen : list number) (l : list number) : list number :=
  match l with
  | [] => []
  | x :: l' =>
      if existsb (sameValueZero x) seen then unique seen l'
      else setElement x :: unique (setElement x :: seen) l'
  end.

(** Lines 85-113: the checks on the parsed response. *)
Definition validate (game : LottoGame) (parsedData : JSValue)
    : Thrown + GeminiPrediction :=
  match getField (str "predictedNumbers") parsedData with
  | inl e => inl e
  | inr numbers =>
      if negb (from_option truthy false numbers) then inl InvalidStructure
      else
        match getField (str "analysisSummary") parsedData with
        | inl e => inl e
        | inr summary =>
            match numbers, summary with
            | Some (JArray nums), Some summary =>
                if negb (truthy summary) then inl InvalidStructure
                else if String.eqb (id game) "3d" then
                  if negb (length nums =? 3)%nat then inl (WrongDigitCount (length nums))
                  else
                    match checkDigits 0 nums with
                    | inl e => inl e
                    | inr l => inr {| predictedNumbers := l; analysisSummary := summary |}
                    end
                else
                  if negb (length nums =? numbersToPick game)%nat then
                    inl (WrongNumberCount (length nums) (numbersToPick game))
                  else
                    match checkNumbers game nums with
                    | inl e => inl e
                    | inr l =>
                        let uniqueSortedNumbers :=
                          sort_by (fun a b => sign (sub a b)) (unique [] l) in
                        if negb (length uniqueSortedNumbers =? numbersToPick game)%nat then
                          inl (NotUnique (numbersToPick game) (length uniqueSortedNumbers))
                        else inr {| predictedNumbers := uniqueSortedNumbers;
                                    analysisSummary := summary |}
                    end
            | _, _ => inl InvalidStructure
            end
        end
  end.

(** *** The request *)

Fixpoint uintDigits (u : Decimal.uint) : list N :=
  match u with
  | Decimal.Nil => []
  | Decimal.D0 u => 48%N :: uintDigits u
  | Decimal.D1 u => 49%N :: uintDigits u
  | Decimal.D2 u => 50%N :: uintDigits u
  | Decimal.D3 u => 51%N :: uintDigits u
  | Decimal.D4 u => 52%N :: uintDigits u
  | Decimal.D5 u => 53%N :: uintDigits u
  | Decimal.D6 u => 54%N :: uintDigits u
  | Decimal.D7 u => 55%N :: uintDigits u
  | Decimal.D8 u => 56%N :: uintDigits u
  | Decimal.D9 u => 57%N :: uintDigits u
  end.

(** The decimal text of a draw's value. *)
Definition numberToString (n : N) : list N := uintDigits (N.to_uint n).

(** [l.join(sep)] *)
Fixpoint join (sep : list N) (l : list (list N)) : list N :=
  match l with
  | [] => []
  | x :: l' =>
      match l' with
      | [] => x
      | _ => x ++ sep ++ join sep l'
      end
  end.

(** [recentDrawsChronological.map(draw => draw.join('-')).join('; ')] *)
Definition recentResultsString (recentDrawsChronological : list Draw) : list N :=
  join (str "; ") (map (fun draw => join (str "-") (map numberToString draw))
                       recentDrawsChronological).

(** The two prompt templates, by what they interpolate (their fixed text
    is left out). *)
Inductive Prompt :=
  | Prompt3d (results : list N)
  | PromptFallback (gameName : string) (numbersToPick : nat) (lo hi : Z)
                   (results : list N).

Definition GEMINI_MODEL_TEXT : string := "gemini-2.5-flash-preview-04-17".

(** The argument of [ai.models.generateContent]. *)
Record Request := {
  model : string;
  contents : Prompt;
  responseMimeType : string;
  temperature : Q
}.

(** How the call settles: it rejects (with an Error's message, or with
    something that is no Error), or fulfils with a response whose [text]
    may be undefined. *)
Inductive Response :=
  | Rejected (message : option (list N))
  | Fulfilled (text : option (list N)).

(** An asynchronous computation: finished, or suspended on the external
    call with the code that runs when the call settles. *)
Inductive Async (R : Type) :=
  | Done (r : R)
  | Await (request : Request) (k : Response -> Async R).
Arguments Done {R} r.
Arguments Await {R} request k.

(** The client. *)
Record GoogleGenAI := { apiKey : list N }.

(** [const ai = API_KEY ? new GoogleGenAI({ apiKey: API_KEY }) : null],
    for [API_KEY] undefined or a string (the empty string is falsy). *)
Definition ai (API_KEY : option (list N)) : option GoogleGenAI :=
  match API_KEY with
  | Some (c :: key) => Some {| apiKey := c :: key |}
  | _ => None
  end.

Definition buildPrompt (game : LottoGame) (draws : list Draw) : Prompt :=
  if String.eqb (id game) "3d" then Prompt3d (recentResultsString draws)
  else PromptFallback (name game) (numbersToPick game)
         (default 1 (digitMinNumber game)) (maxNumber game)
         (recentResultsString draws).

Section Service.

(** [JSON.parse]: none for a SyntaxError. *)
Variable JSON_parse : list N -> option JSValue.

(** The [try] block after the call has fulfilled. *)
Definition readResponse (game : LottoGame) (text : option (list N))
    : Thrown + GeminiPrediction :=
  match text with
  | None => inl TypeError                  (* [response.text.trim()] on undefined *)
  | Some text =>
      match JSON_parse (stripFence text) with
      | None => inl SyntaxError
      | Some parsedData => validate game parsedData
      end
  end.

Definition getGeminiPrediction (ai : option GoogleGenAI) (game : LottoGame)
    (recentDrawsChronological : list Draw)
    : Async (PredictionError + GeminiPrediction) :=
  match ai with
  | None => Done (inl ClientNotInitialized)
  | Some _ =>
      Await {| model := GEMINI_MODEL_TEXT;
               contents := buildPrompt game recentDrawsChronological;
               responseMimeType := "application/json";
               temperature := 7 # 10 |}
        (fun response =>
           Done match response with
                | Rejected message => inl (rethrow (EndpointError message))
                | Fulfilled text =>
                    match readResponse game text with
                    | inl error => inl (rethrow error)
                    | inr parsedData => inr parsedData
                    end
                end)
  end.

End Service.

(** The calls to the external endpoint a computation makes before it
    first suspends or finishes: none when it is finished at once. *)
Definition finishedAtOnce {R} (a : Async R) : bool :=
  match a with Done _ => true | Await _ _ => false end.

End GeminiService.

(** ** App.tsx: the draw collection, the frequency analysis and the
    prediction request *)

Module App.
Import Types JS GeminiService.

(** *** The collection's updaters *)

(** [prevDraws => [draw, ...prevDraws]] *)
Definition addDraw {A} (draw : A) (prevDraws : list A) : list A :=
  draw :: prevDraws.

(** [prevDraws => [...draws.reverse(), ...prevDraws]]. [reverse] works in
    place and returns its array: the updater yields the new state and
    leaves the caller's array reversed, in this order. *)
Definition addMultipleDrawsUpdater {A} (draws prevDraws : list A)
    : list A * list A :=
  let draws' := rev draws in
  (draws' ++ prevDraws, draws').

Definition addMultipleDraws {A} (draws prevDraws : list A) : list A :=
  fst (addMultipleDrawsUpdater draws prevDraws).

(** [l.filter((_, index) => keep(index))], from position [index] on. *)
Fixpoint filterIndex {A} (keep : nat -> bool) (index : nat) (l : list A) : list A :=
  match l with
  | [] => []
  | x :: l' =>
      if keep index then x :: filterIndex keep (S index) l'
      else filterIndex keep (S index) l'
  end.

(** [prevDraws => prevDraws.filter((_, index) => index !== indexToRemove)] *)
Definition removeDraw {A} (indexToRemove : Z) (prevDraws : list A) : list A :=
  filterIndex (fun index => negb (Z.of_nat index =? indexToRemove)) 0 prevDraws.

(** *** The frequency effect *)

(** [overallCounts[num] = (overallCounts[num] || 0) + 1; totalDigitsAnalyzed++] *)
Definition tally (acc : gmap N nat * nat) (num : N) : gmap N nat * nat :=
  (<[num := (default 0 (acc.1 !! num) + 1)%nat]> acc.1, S acc.2).

(** The two nested [forEach]. *)
Definition countDigits (recentDraws : list Draw) : gmap N nat * nat :=
  fold_left (fun acc draw => fold_left tally draw acc) recentDraws (∅, 0%nat).

(** [Object.entries(overallCounts)]: integer keys come in ascending
    order; [parseInt] gives a key's number back. *)
Definition entries (overallCounts : gmap N nat) : list (N * nat) :=
  sort_by (fun a b => Z.of_N a.1 - Z.of_N b.1) (map_to_list overallCounts).

(** [(count / totalDigitsAnalyzed) * 100], or 0. The two counters are
    doubles that hold integers, exact below 2^53. *)
Definition percentageOf (count totalDigitsAnalyzed : nat) : JS.number :=
  if (0 <? totalDigitsAnalyzed)%nat then
    mul (div (of_Z (Z.of_nat count)) (of_Z (Z.of_nat totalDigitsAnalyzed))) (of_Z 100)
  else of_Z 0.

(** [(a, b) => b.count - a.count || a.number - b.number] *)
Definition byCountThenNumber (a b : FrequencyData) : Z :=
  let d := Z.of_nat (count b) - Z.of_nat (count a) in
  if d =? 0 then Z.of_N (Types.number a) - Z.of_N (Types.number b) else d.

Definition newFrequencyData (recentDraws : list Draw) : list FrequencyData :=
  let '(overallCounts, totalDigitsAnalyzed) := countDigits recentDraws in
  sort_by byCountThenNumber
    (map (fun e => {| Types.number := e.1; count := e.2;
                      percentage := percentageOf e.2 totalDigitsAnalyzed |})
         (entries overallCounts)).

(** [newFrequencyData.slice(0, numbersToPick).map(fd => fd.number).sort((a,b) => a-b)] *)
Definition topHotDigits (game : LottoGame) (frequencyData : list FrequencyData)
    : list N :=
  sort_by (fun a b => Z.of_N a - Z.of_N b)
          (map Types.number (take (numbersToPick game) frequencyData)).

(** What the effect sets for a collection: the frequency list and the
    hot-digits prediction. *)
Definition analyze (game : LottoGame) (recentDraws : list Draw)
    : list FrequencyData * list N :=
  match recentDraws with
  | [] => ([], [])
  | _ =>
      let frequencyData := newFrequencyData recentDraws in
      (frequencyData, topHotDigits game frequencyData)
  end.

(** *** The component's state *)

(** [aiError]: the handler's own message, or the service's. *)
Inductive AiError :=
  | NeedThreeDraws
  | ServiceMessage (error : PredictionError).

Record AppState := {
  selectedGameId : string;
  recentDraws : list Draw;
  frequencyData : list FrequencyData;
  hotDigitsPrediction : list N;
  geminiPrediction : option GeminiPrediction;
  isLoadingAiPrediction : bool;
  aiError : option AiError
}.

Definition initialState : AppState := {|
  selectedGameId := DEFAULT_GAME_ID;
  recentDraws := [];
  frequencyData := [];
  hotDigitsPrediction := [];
  geminiPrediction := None;
  isLoadingAiPrediction := false;
  aiError := None
|}.

(** [LOTTO_GAMES.find(game => game.id === selectedGameId) || LOTTO_GAMES[0]] *)
Definition selectedGame (st : AppState) : LottoGame :=
  default (nth 0 LOTTO_GAMES game3d)
    (List.find (fun game => String.eqb (id game) (selectedGameId st)) LOTTO_GAMES).

Definition setRecentDraws (f : list Draw -> list Draw) (st : AppState) : AppState := {|
  selectedGameId := selectedGameId st;
  recentDraws := f (recentDraws st);
  frequencyData := frequencyData st;
  hotDigitsPrediction := hotDigitsPrediction st;
  geminiPrediction := geminiPrediction st;
  isLoadingAiPrediction := isLoadingAiPrediction st;
  aiError := aiError st
|}.

(** The effect on [recentDraws] and the selected game: it runs after
    every render that follows a change of either. *)
Definition frequencyEffect (st : AppState) : AppState :=
  match recentDraws st with
  | [] => {|
      selectedGameId := selectedGameId st;
      recentDraws := recentDraws st;
      frequencyData := [];
      hotDigitsPrediction := [];
      geminiPrediction := geminiPrediction st;
      isLoadingAiPrediction := isLoadingAiPrediction st;
      aiError := aiError st |}
  | _ => {|
      selectedGameId := selectedGameId st;
      recentDraws := recentDraws st;
      frequencyData := (analyze (selectedGame st) (recentDraws st)).1;
      hotDigitsPrediction := (analyze (selectedGame st) (recentDraws st)).2;
      geminiPrediction := None;          (* reset AI prediction when draws change *)
      isLoadingAiPrediction := isLoadingAiPrediction st;
      aiError := None |}
  end.

Definition handleGameChange (gameId : string) (st : AppState) : AppState := {|
  selectedGameId := gameId;
  recentDraws := [];
  frequencyData := [];
  hotDigitsPrediction := [];
  geminiPrediction := None;
  isLoadingAiPrediction := isLoadingAiPrediction st;
  aiError := None
|}.

Definition handleAddDraw (draw : Draw) : AppState -> AppState :=
  setRecentDraws (addDraw draw).

Definition handleAddMultipleDraws (draws : list Draw) : AppState -> AppState :=
  setRecentDraws (addMultipleDraws draws).

Definition handleRemoveDraw (indexToRemove : Z) : AppState -> AppState :=
  setRecentDraws (removeDraw indexToRemove).

Definition handleClearDraws (st : AppState) : AppState := {|
  selectedGameId := selectedGameId st;
  recentDraws := [];
  frequencyData := [];
  hotDigitsPrediction := [];
  geminiPrediction := None;
  isLoadingAiPrediction := isLoadingAiPrediction st;
  aiError := None
|}.

(** *** The prediction request *)

(** The state before the [await]. *)
Definition startRequest (st : AppState) : AppState := {|
  selectedGameId := selectedGameId st;
  recentDraws := recentDraws st;
  frequencyData := frequencyData st;
  hotDigitsPrediction := hotDigitsPrediction st;
  geminiPrediction := None;
  isLoadingAiPrediction := true;
  aiError := None
|}.

(** The rest of [handleGetGeminiPrediction], once the service's promise
    has settled with [r]: [setGeminiPrediction(prediction)] or the [catch]
    block, then [finally]. It acts on the state as it is by then. *)
Definition finishRequest (r : PredictionError + GeminiPrediction)
    (st : AppState) : AppState := {|
  selectedGameId := selectedGameId st;
  recentDraws := recentDraws st;
  frequencyData := frequencyData st;
  hotDigitsPrediction := hotDigitsPrediction st;
  geminiPrediction :=
    match r with inr prediction => Some prediction | inl _ => geminiPrediction st end;
  isLoadingAiPrediction := false;
  aiError :=
    match r with inr _ => aiError st | inl error => Some (ServiceMessage error) end
|}.

(** The component with its requests in flight: of each, the code that
    runs when the external call settles. *)
Record World := {
  state : AppState;
  inFlight : list (Response -> Async (PredictionError + GeminiPrediction))
}.

Inductive Event :=
  | GameChange (gameId : string)
  | AddDraw (draw : Draw)
  | AddMultipleDraws (draws : list Draw)
  | RemoveDraw (indexToRemove : Z)
  | ClearDraws
  | GetGeminiPrediction
  | Settle (i : nat) (response : Response).

Section Run.

Variable JSON_parse : list N -> option JSValue.
Variable API_KEY : option (list N).

(** A service computation, continued until it suspends. *)
Definition proceed (a : Async (PredictionError + GeminiPrediction)) (w : World)
    : World :=
  match a with
  | Done r => {| state := finishRequest r (state w); inFlight := inFlight w |}
  | Await _ k => {| state := state w; inFlight := inFlight w ++ [k] |}
  end.

Definition handleGetGeminiPrediction (w : World) : World :=
  let st := state w in
  if (length (recentDraws st) <? 3)%nat then
    {| state := {| selectedGameId := selectedGameId st;
                   recentDraws := recentDraws st;
                   frequencyData := frequencyData st;
                   hotDigitsPrediction := hotDigitsPrediction st;
                   geminiPrediction := geminiPrediction st;
                   isLoadingAiPrediction := isLoadingAiPrediction st;
                   aiError := Some NeedThreeDraws |};
       inFlight := inFlight w |}
  else
    let orderedRecentDrawsForApi := rev (recentDraws st) in
    proceed (getGeminiPrediction JSON_parse (ai API_KEY) (selectedGame st)
               orderedRecentDrawsForApi)
            {| state := startRequest st; inFlight := inFlight w |}.

(** One turn of the event loop: a handler and the effect its state change
    triggers, or the settling of the [i]-th call in flight. *)
Definition dispatch (w : World) (ev : Event) : World :=
  let onState f := {| state := frequencyEffect (f (state w)); inFlight := inFlight w |} in
  match ev with
  | GameChange gameId => onState (handleGameChange gameId)
  | AddDraw draw => onState (handleAddDraw draw)
  | AddMultipleDraws draws => onState (handleAddMultipleDraws draws)
  | RemoveDraw indexToRemove => onState (handleRemoveDraw indexToRemove)
  | ClearDraws => onState handleClearDraws
  | GetGeminiPrediction => handleGetGeminiPrediction w
  | Settle i response =>
      match inFlight w !! i with
      | Some k => proceed (k response) {| state := state w; inFlight := delete i (inFlight w) |}
      | None => w
      end
  end.

Definition run (w : World) (evs : list Event) : World := fold_left dispatch evs w.

End Run.

Definition initialWorld : World := {| state := initialState; inFlight := [] |}.

End App.

(** ** The vocabulary of the specification *)

Module Spec.
Import Types JS.

(** A number that is an integer within [0, 9]. *)
Definition isDigitValue (n : number) : bool :=
  match asInteger n with
  | Some z => (0 <=? z) && (z <=? 9)
  | None => false
  end.

(** An element of [predictedNumbers] that is an integer within [0, 9]. *)
Definition isDigitJSON (v : GeminiService.JSValue) : bool :=
  match v with
  | GeminiService.JNumber n => isDigitValue n
  | _ => false
  end.

Definition asNumber (v : GeminiService.JSValue) : option number :=
  match v with
  | GeminiService.JNumber n => Some n
  | _ => None
  end.

(** A parsed response of the required shape: [predictedNumbers] is the
    array [nums], [analysisSummary] is [summary] and is truthy. *)
Definition wellShaped (parsedData : GeminiService.JSValue)
    (nums : list GeminiService.JSValue) (summary : GeminiService.JSValue) : Prop :=
  GeminiService.getField (str "predictedNumbers") parsedData
  = inr (Some (GeminiService.JArray nums))
  /\ GeminiService.getField (str "analysisSummary") parsedData = inr (Some summary)
  /\ GeminiService.truthy summary = true.

(** The response [{predictedNumbers: [1, 2], analysisSummary: 'x'}]. *)
Definition twoNumbers : GeminiService.JSValue :=
  GeminiService.JObject
    [(str "predictedNumbers",
      GeminiService.JArray [GeminiService.JNumber (of_Z 1);
                            GeminiService.JNumber (of_Z 2)]);
     (str "analysisSummary", GeminiService.JString (str "x"))].

(** The response [{predictedNumbers: [1, 2], analysisSummary: ''}]. *)
Definition twoNumbersEmptySummary : GeminiService.JSValue :=
  GeminiService.JObject
    [(str "predictedNumbers",
      GeminiService.JArray [GeminiService.JNumber (of_Z 1);
                            GeminiService.JNumber (of_Z 2)]);
     (str "analysisSummary", GeminiService.JString [])].

(** How often a value occurs across all draws, and how many digits the
    draws hold. *)
Definition occurrences (v : N) (draws : list (list N)) : nat :=
  count_occ N.eq_dec (concat draws) v.

Definition totalCount (draws : list (list N)) : nat := length (concat draws).

(** The order of the frequency list: by count descending, ties by value
    ascending. *)
Definition precedes (a b : FrequencyData) : Prop :=
  (count b < count a)%nat
  \/ (count a = count b /\ (Types.number a < Types.number b)%N).

(** [100 * count / totalCount], in double arithmetic as written. *)
Definition hundredTimesCountOverTotal (count totalCount : nat) : number :=
  div (mul (of_Z 100) (of_Z (Z.of_nat count))) (of_Z (Z.of_nat totalCount)).

(** A response in fenced form: three backticks and a label, a line feed,
    the text, a line feed, three backticks. *)
Definition fenced (label s : list N) : list N :=
  GeminiService.fence ++ label ++ 10%N :: s ++ 10%N :: GeminiService.fence.

(** The response [{predictedNumbers: [1, 2, 3], analysisSummary: 'x'}]
    and its JSON text. *)
Definition threeNumbers : GeminiService.JSValue :=
  GeminiService.JObject
    [(str "predictedNumbers",
      GeminiService.JArray [GeminiService.JNumber (of_Z 1);
                            GeminiService.JNumber (of_Z 2);
                            GeminiService.JNumber (of_Z 3)]);
     (str "analysisSummary", GeminiService.JString (str "x"))].

Definition threeNumbersText : list N :=
  str "{" ++ 34%N :: str "predictedNumbers" ++ 34%N :: str ":[1,2,3],"
  ++ 34%N :: str "analysisSummary" ++ 34%N :: str ":" ++ 34%N :: str "x"
  ++ 34%N :: str "}".

(** [JSON.parse] as far as one text goes: its value on that text; a
    SyntaxError elsewhere. *)
Definition parseOnly (text : list N) (v : GeminiService.JSValue)
    : list N -> option GeminiService.JSValue :=
  fun t => if decide (t = text) then Some v else None.

(** The events that change the draw collection or the game. *)
Definition isChange (ev : App.Event) : bool :=
  match ev with
  | App.GameChange _ | App.AddDraw _ | App.AddMultipleDraws _
  | App.RemoveDraw _ | App.ClearDraws => true
  | App.GetGeminiPrediction | App.Settle _ _ => false
  end.

(** The tokens of a line, in the specification's words: the line is split
    on any run of separators and empty tokens are dropped, which leaves
    the maximal runs of characters that are no separators, in order. *)
Inductive Tokens : list N -> list (list N) -> Prop :=
  | Tokens_end : Tokens [] []
  | Tokens_separator c s ts :
      LottoForm.separator c = true -> Tokens s ts -> Tokens (c :: s) ts
  | Tokens_token t s ts :
      t <> [] ->
      Forall (fun c => LottoForm.separator c = false) t ->
      (s = [] \/ exists c s', s = c :: s' /\ LottoForm.separator c = true) ->
      Tokens s ts ->
      Tokens (t ++ s) (t :: ts).

(** The draws of the lines that parse, in order. *)
Definition successes (game : LottoGame) (lines : list (list N)) : list DrawResult :=
  omap (fun line =>
          match LottoForm.validateAndParseDraw line game with
          | inr draw => Some draw
          | inl _ => None
          end) lines.

(** The errors of the lines that do not parse, in order, each with its
    line and one more than the line's position, counted from [k]. *)
Definition failures (game : LottoGame) (k : nat) (lines : list (list N))
    : list LottoForm.LineError :=
  omap (fun il =>
          match LottoForm.validateAndParseDraw il.2 game with
          | inl e => Some {| LottoForm.lineLabel := il.1 + 1;
                             LottoForm.lineText := il.2;
                             LottoForm.reason := e |}
          | inr _ => None
          end) (imap (fun i line => ((k + i)%nat, line)) lines).

(** Line [k] of a text, counted from 1 over all its lines, trimmed. *)
Definition inputLine (text : list N) (k : nat) : option (list N) :=
  trim <$> (split_lines text !! (k - 1)%nat).

(** All the lines of a text, trimmed, and how many of its first [k]
    lines are not blank. *)
Definition inputLines (text : list N) : list (list N) :=
  map trim (split_lines text).

Definition nonBlankAmong (text : list N) (k : nat) : nat :=
  length (List.filter LottoForm.nonEmpty (take k (inputLines text))).

(** The text of three lines [1,2,3], a blank line, [1,2]. *)
Definition blankLineText : list N :=
  str "1,2,3" ++ [10; 10]%N ++ str "1,2".

(** A parse result by the kind of its failure. *)
Definition byKind (r : LottoForm.ValidationError + DrawResult)
    : LottoForm.ErrorKind + DrawResult :=
  match r with
  | inl e => inl (LottoForm.errorKind e)
  | inr d => inr d
  end.

End Spec.

(** ** components/ResultsDashboard.tsx: what the dashboard offers *)

Module ResultsDashboard.
Import Types JS GeminiService App.

(** [process.env.API_KEY], read as a condition: undefined and the empty
    string are falsy. *)
Definition API_KEY_AVAILABLE (API_KEY : option (list N)) : bool :=
  match API_KEY with
  | Some (_ :: _) => true
  | _ => false
  end.

(** With an empty collection the dashboard is a single note; its tables,
    predictions and button are rendered otherwise. *)
Definition dashboardShown (st : AppState) : bool :=
  negb (length (recentDraws st) =? 0)%nat.

(** The request button: rendered with a key only, and
    [disabled={isLoadingAiPrediction || recentDraws.length < 3}]. *)
Definition buttonEnabled (API_KEY : option (list N)) (st : AppState) : bool :=
  dashboardShown st && API_KEY_AVAILABLE API_KEY
  && negb (isLoadingAiPrediction st || (length (recentDraws st) <? 3)%nat).

(** The prediction block: [geminiPrediction && !isLoadingAiPrediction],
    inside the part rendered with a key. *)
Definition predictionShown (API_KEY : option (list N)) (st : AppState)
    : option GeminiPrediction :=
  if dashboardShown st && API_KEY_AVAILABLE API_KEY
     && negb (isLoadingAiPrediction st)
  then geminiPrediction st else None.

(** The error box: [aiError &&], inside the part rendered with a key. *)
Definition errorShown (API_KEY : option (list N)) (st : AppState)
    : option AiError :=
  if dashboardShown st && API_KEY_AVAILABLE API_KEY then aiError st else None.

(** The note under the hot digits:
    [hotDigitsPrediction.length < selectedGame.numbersToPick], inside
    [hotDigitsPrediction.length > 0]. *)
Definition fewerDigitsNote (game : LottoGame) (st : AppState) : bool :=
  (0 <? length (hotDigitsPrediction st))%nat
  && (length (hotDigitsPrediction st) <? numbersToPick game)%nat.

End ResultsDashboard.

(** ** The page: the form and the dashboard on the component's handlers
    (App.tsx, the props of [LottoForm] and [ResultsDashboard]) *)

Module Page.
Import Types JS GeminiService App ResultsDashboard.

(** [fileError], by message. *)
Inductive FileError :=
  | CouldNotReadContent
  | ErrorsInFile (report : LottoForm.ErrorReport)
  | NoValidDrawsParsed
  | EmptyOrNoLines
  | FailedToReadFile.

(** [sampleDataError], by message. The [catch] of [handleLoadSampleData]
    has nothing to catch: no step of its [try] throws. *)
Inductive SampleDataError :=
  | SampleEmpty
  | ErrorsInSample (report : LottoForm.ErrorReport)
  | SampleNoValidDraws.

(** The state of [LottoForm]. *)
Record FormState := {
  currentDrawInput : list N;
  error : option LottoForm.ValidationError;
  fileError : option FileError;
  sampleDataError : option SampleDataError;
  fileName : string
}.

Definition noFileChosen : string := "No file chosen".

Definition initialForm : FormState := {|
  currentDrawInput := [];
  error := None;
  fileError := None;
  sampleDataError := None;
  fileName := noFileChosen
|}.

Record PageState := {
  world : World;
  form : FormState
}.

(** What the user and the environment can do. A file is chosen, by
    its name, or the dialog is left without one ([None]); later the
    reader is done with a file, with its text or with an error ([None]). *)
Inductive Action :=
  | SelectGame (gameId : string)
  | TypeDraw (text : list N)
  | ClickAddDraw
  | ChooseFile (file : option string)
  | ReaderSettles (result : option (list N))
  | ClickLoadSample
  | ClickRemove (index : nat)
  | ClickClearAll
  | ClickPredict
  | CallSettles (i : nat) (response : Response).

Section Act.

Variable JSON_parse : list N -> option JSValue.
Variable API_KEY : option (list N).

(** [sampleCsvData] of [src/sampleData], a constant of the page. *)
Variable sampleCsvData : list N.

Definition onWorld (ev : Event) (p : PageState) : World :=
  dispatch JSON_parse API_KEY (world p) ev.

(** [handleAddDraw] of the form. *)
Definition clickAddDraw (p : PageState) : PageState :=
  let f := form p in
  match LottoForm.handleAddDraw (currentDrawInput f) (selectedGame (state (world p))) with
  | inl result =>
      {| world := world p;
         form := {| currentDrawInput := currentDrawInput f;
                    error := Some result;
                    fileError := fileError f;
                    sampleDataError := sampleDataError f;
                    fileName := fileName f |} |}
  | inr result =>
      {| world := onWorld (AddDraw result) p;
         form := {| currentDrawInput := [];
                    error := None;
                    fileError := fileError f;
                    sampleDataError := sampleDataError f;
                    fileName := fileName f |} |}
  end.

(** [handleFileUpload] of the form, up to [reader.readAsText(file)]. *)
Definition chooseFile (file : option string) (p : PageState) : PageState :=
  let f := form p in
  {| world := world p;
     form := {| currentDrawInput := currentDrawInput f;
                error := error f;
                fileError := None;
                sampleDataError := None;
                fileName := match file with
                            | None => noFileChosen
                            | Some name => name
                            end |} |}.

(** [reader.onload] with the file's text, or [reader.onerror] ([None]),
    whenever the reader is done: they act on the page as it is by then.
    The game is the one [handleFileUpload] closed over, which is the
    selected one: the catalog has one game. *)
Definition readerSettles (result : option (list N)) (p : PageState) : PageState :=
  let f := form p in
  let withFile w fe name :=
    {| world := w;
       form := {| currentDrawInput := currentDrawInput f;
                  error := error f;
                  fileError := fe;
                  sampleDataError := sampleDataError f;
                  fileName := name |} |} in
  match result with
  | None => withFile (world p) (Some FailedToReadFile) noFileChosen
  | Some text =>
      match LottoForm.handleFileUpload text (selectedGame (state (world p))) with
      | LottoForm.CouldNotRead =>
          withFile (world p) (Some CouldNotReadContent) (fileName f)
      | LottoForm.ErrorsInCsv report =>
          withFile (world p) (Some (ErrorsInFile report)) (fileName f)
      | LottoForm.NoValidDraws =>
          withFile (world p) (Some NoValidDrawsParsed) (fileName f)
      | LottoForm.EmptyFile =>
          withFile (world p) (Some EmptyOrNoLines) (fileName f)
      | LottoForm.AddMultipleDraws draws =>
          withFile (onWorld (AddMultipleDraws draws) p) None noFileChosen
      end
  end.

(** [handleLoadSampleData] of the form. *)
Definition clickLoadSample (p : PageState) : PageState :=
  let f := form p in
  let withSample w se :=
    {| world := w;
       form := {| currentDrawInput := currentDrawInput f;
                  error := error f;
                  fileError := None;
                  sampleDataError := se;
                  fileName := fileName f |} |} in
  match sampleCsvData with
  | [] => withSample (world p) (Some SampleEmpty)
  | _ =>
      let '(parsedDraws, errors) :=
        LottoForm.processCsvText sampleCsvData (selectedGame (state (world p))) in
      if (0 <? length errors)%nat then
        withSample (world p) (Some (ErrorsInSample (LottoForm.errorReport errors)))
      else if (length parsedDraws =? 0)%nat then
        withSample (world p) (Some SampleNoValidDraws)
      else
        withSample (onWorld (AddMultipleDraws (map LottoForm.toDraw parsedDraws)) p) None
  end.

Definition onlyWorld (w : World) (p : PageState) : PageState :=
  {| world := w; form := form p |}.

(** One action. A control that is not rendered, or is disabled, takes no
    click: the Remove button of a row that does not exist, Clear All on
    an empty collection, the request button when it is not enabled. The
    select offers the games of the catalog only (it is taken to report
    any of them, also the one selected). *)
Definition act (p : PageState) (a : Action) : PageState :=
  match a with
  | SelectGame gameId =>
      if existsb (fun game => String.eqb (id game) gameId) LOTTO_GAMES
      then onlyWorld (onWorld (GameChange gameId) p) p else p
  | TypeDraw text =>
      {| world := world p;
         form := {| currentDrawInput := text;
                    error := error (form p);
                    fileError := fileError (form p);
                    sampleDataError := sampleDataError (form p);
                    fileName := fileName (form p) |} |}
  | ClickAddDraw => clickAddDraw p
  | ChooseFile file => chooseFile file p
  | ReaderSettles result => readerSettles result p
  | ClickLoadSample => clickLoadSample p
  | ClickRemove index =>
      if (index <? length (recentDraws (state (world p))))%nat
      then onlyWorld (onWorld (RemoveDraw (Z.of_nat index)) p) p else p
  | ClickClearAll =>
      if (0 <? length (recentDraws (state (world p))))%nat
      then onlyWorld (onWorld ClearDraws p) p else p
  | ClickPredict =>
      if buttonEnabled API_KEY (state (world p))
      then onlyWorld (onWorld GetGeminiPrediction p) p else p
  | CallSettles i response => onlyWorld (onWorld (Settle i response) p) p
  end.

Definition acts (p : PageState) (l : list Action) : PageState := fold_left act l p.

End Act.

Definition initialPage : PageState := {| world := initialWorld; form := initialForm |}.

End Page.

(** ** Further notions for the properties *)

Module Notions.
Import Types JS.

(** A draw of the 3-digit game: three values, none above 9. *)
Definition validDraw (draw : Draw) : Prop :=
  length draw = 3%nat /\ Forall (fun v => (v <= 9)%N) draw.

(** A prediction for the 3-digit game: three numbers, each an integer
    within [0, 9]. *)
Definition validPrediction (p : GeminiService.GeminiPrediction) : Prop :=
  length (GeminiService.predictedNumbers p) = 3%nat
  /\ Forall (fun n => Spec.isDigitValue n = true) (GeminiService.predictedNumbers p).

(** A number that is not below zero: no negative value, no negative
    infinity (NaN is neither). *)
Definition notNegative (n : number) : Prop :=
  match n with
  | S754_zero _ | S754_nan => True
  | S754_infinity s | S754_finite s _ _ => s = false
  end.

(** The sum of the counts of a frequency list, and of the values of the
    entries it is made from. *)
Definition sumCounts (fd : list FrequencyData) : nat :=
  foldr (fun e acc => (count e + acc)%nat) 0%nat fd.

Definition sumValues (l : list (N * nat)) : nat :=
  foldr (fun e acc => (e.2 + acc)%nat) 0%nat l.

(** A call in flight that is the service's: however the call settles, it
    finishes at once, with a valid prediction or with an error other
    than the missing client. *)
Definition serviceCall
    (k : GeminiService.Response
         -> GeminiService.Async
              (GeminiService.PredictionError + GeminiService.GeminiPrediction))
    : Prop :=
  forall response, exists r,
    k response = GeminiService.Done r
    /\ match r with
       | inl e => e <> GeminiService.ClientNotInitialized
       | inr p => validPrediction p
       end.

(** An error the dashboard can come to show: neither the handler's own
    message nor the service's message for a missing client. *)
Definition liveMessage (e : option App.AiError) : Prop :=
  e <> Some App.NeedThreeDraws
  /\ e <> Some (App.ServiceMessage GeminiService.ClientNotInitialized).

(** The invariant of the component: the derived data are those of the
    collection, the calls in flight are the service's, a held prediction
    is valid. *)
Definition Consistent (w : App.World) : Prop :=
  (App.frequencyData (App.state w), App.hotDigitsPrediction (App.state w))
  = App.analyze (App.selectedGame (App.state w)) (App.recentDraws (App.state w))
  /\ Forall serviceCall (App.inFlight w)
  /\ match App.geminiPrediction (App.state w) with
     | Some p => validPrediction p
     | None => True
     end.

(** The invariant of the page: besides, the draws are valid, a call is
    in flight exactly while the loading flag is set, and the error is
    one the dashboard can come to show. *)
Definition Sound (w : App.World) : Prop :=
  Forall serviceCall (App.inFlight w)
  /\ Forall validDraw (App.recentDraws (App.state w))
  /\ length (App.inFlight w)
     = (if App.isLoadingAiPrediction (App.state w) then 1 else 0)%nat
  /\ liveMessage (App.aiError (App.state w)).

(** A component that has asked for nothing. *)
Definition Idle (w : App.World) : Prop :=
  App.inFlight w = []
  /\ App.geminiPrediction (App.state w) = None
  /\ App.aiError (App.state w) = None
  /\ App.isLoadingAiPrediction (App.state w) = false.

(** The game the catalog's comment sketches, Lotto 6/42: six numbers
    up to 42, no minimum named, the order not significant. *)
Definition lotto642 : LottoGame := {|
  id := "6/42"%string;
  name := "Lotto 6/42"%string;
  maxNumber := 42;
  numbersToPick := 6;
  digitMinNumber := None;
  isOrderSignificant := Some false;
  drawDays := Some "Tue, Thu, Sat"%string
|}.

(** The response [{predictedNumbers: [6, 5, 4, 3, 2, 1], analysisSummary: 'x'}]. *)
Definition sixNumbers : GeminiService.JSValue :=
  GeminiService.JObject
    [(str "predictedNumbers",
      GeminiService.JArray (map (fun z => GeminiService.JNumber (of_Z z))
                                [6; 5; 4; 3; 2; 1]));
     (str "analysisSummary", GeminiService.JString (str "x"))].

(** Whether an entry was rejected: the message its action leaves. *)
Definition rejected (a : Page.Action) (f : Page.FormState) : bool :=
  match a with
  | Page.ClickAddDraw => bool_decide (is_Some (Page.error f))
  | Page.ReaderSettles _ => bool_decide (is_Some (Page.fileError f))
  | Page.ClickLoadSample => bool_decide (is_Some (Page.sampleDataError f))
  | _ => false
  end.

End Notions.

(* ================================================================== *)
(** * Part II: the properties *)
(* ================================================================== *)

Import Types JS.

(** ** The draw collection *)

Section Collection.
Import GeminiService App.

Variable JSON_parse : list N -> option JSValue.
Variable API_KEY : option (list N).

Lemma recentDraws_frequencyEffect st :
  recentDraws (frequencyEffect st) = recentDraws st.
Proof. unfold frequencyEffect. destruct (recentDraws st); reflexivity. Qed.

Lemma filterIndex_skip {A} (i : Z) (k : nat) (l : list A) :
  ¬ (Z.of_nat k <= i < Z.of_nat k + Z.of_nat (length l)) ->
  filterIndex (fun index => negb (Z.of_nat index =? i)) k l = l.
Proof.
  revert k. induction l as [|x l IH]; intros k Hout; [reflexivity|].
  cbn [filterIndex]. rewrite length_cons, Nat2Z.inj_succ in Hout.
  destruct (Z.eqb_spec (Z.of_nat k) i) as [Heq|Hne]; cbn [negb].
  - exfalso. apply Hout. lia.
  - f_equal. apply IH. lia.
Qed.

Lemma filterIndex_hit {A} (i : Z) (k : nat) (l : list A) :
  Z.of_nat k <= i < Z.of_nat k + Z.of_nat (length l) ->
  filterIndex (fun index => negb (Z.of_nat index =? i)) k l
  = take (Z.to_nat i - k) l ++ drop (S (Z.to_nat i - k)) l.
Proof.
  revert k. induction l as [|x l IH]; intros k Hin.
  { rewrite length_nil in Hin. lia. }
  cbn [filterIndex]. rewrite length_cons, Nat2Z.inj_succ in Hin.
  destruct (Z.eqb_spec (Z.of_nat k) i) as [Heq|Hne]; cbn [negb].
  - replace (Z.to_nat i - k)%nat with 0%nat by lia. cbn [take drop app].
    apply filterIndex_skip. lia.
  - rewrite IH by lia.
    replace (Z.to_nat i - k)%nat with (S (Z.to_nat i - S k)) by lia.
    reflexivity.
Qed.

Lemma removeDraw_in_range {A} (i : Z) (l : list A) :
  0 <= i < Z.of_nat (length l) ->
  removeDraw i l = take (Z.to_nat i) l ++ drop (S (Z.to_nat i)) l.
Proof.
  intros Hi. unfold removeDraw. rewrite filterIndex_hit by (simpl; lia).
  by rewrite Nat.sub_0_r.
Qed.

Lemma removeDraw_out_of_range {A} (i : Z) (l : list A) :
  ¬ (0 <= i < Z.of_nat (length l)) -> removeDraw i l = l.
Proof. intros Hi. apply filterIndex_skip. simpl. lia. Qed.

(** C5. [insertManyFromChronological]: adding a chronological list of
    draws leaves the collection as the list reversed, followed by the
    collection as it was; on the empty collection, [[1,2,3],[4,5,6]]
    becomes [[4,5,6],[1,2,3]]. *)
Theorem insertManyFromChronological_reverses_and_prepends :
  (forall (w : World) (draws : list Draw),
      recentDraws (state (dispatch JSON_parse API_KEY w (AddMultipleDraws draws)))
      = rev draws ++ recentDraws (state w))
  /\ (forall (A : Type) (draws prevDraws : list A),
         addMultipleDrawsUpdater draws prevDraws = (rev draws ++ prevDraws, rev draws))
  /\ recentDraws (state (dispatch JSON_parse API_KEY initialWorld
                           (AddMultipleDraws [[1; 2; 3]; [4; 5; 6]]%N)))
     = [[4; 5; 6]; [1; 2; 3]]%N.
Proof.
  split; [|split].
  - intros w draws. simpl. by rewrite recentDraws_frequencyEffect.
  - reflexivity.
  - reflexivity.
Qed.

(** C10. [removeAt]: removing at a position inside the collection deletes
    exactly that element and keeps the others in their order; at any other
    integer the collection stays as it was, and in both cases the removal
    is a plain state update: nothing is put in flight and the component
    ends either with no error message or with the one it had. *)
Theorem removeAt_deletes_or_ignores (w : World) (indexToRemove : Z) :
  let prevDraws := recentDraws (state w) in
  let w' := dispatch JSON_parse API_KEY w (RemoveDraw indexToRemove) in
  recentDraws (state w')
  = (if decide (0 <= indexToRemove < Z.of_nat (length prevDraws))
     then take (Z.to_nat indexToRemove) prevDraws
          ++ drop (S (Z.to_nat indexToRemove)) prevDraws
     else prevDraws)
  /\ inFlight w' = inFlight w
  /\ (aiError (state w') = None \/ aiError (state w') = aiError (state w)).
Proof.
  simpl. rewrite recentDraws_frequencyEffect. simpl.
  split; [|split; [reflexivity|]].
  - case_decide.
    + by apply removeDraw_in_range.
    + by apply removeDraw_out_of_range.
  - unfold frequencyEffect. simpl.
    destruct (removeDraw indexToRemove (recentDraws (state w))); simpl; auto.
Qed.

End Collection.

(** ** Numbers *)

Section Numbers.
Import Spec.

Lemma of_Z_0 : of_Z 0 = S754_zero false.
Proof. reflexivity. Qed.

Lemma of_Z_9 : of_Z 9 = S754_finite false 5066549580791808 (-49).
Proof. vm_compute. reflexivity. Qed.

Lemma exactQ_9 :
  exactQ (S754_finite false 5066549580791808 (-49))
  = (5066549580791808 # 562949953421312)%Q.
Proof. vm_compute. reflexivity. Qed.

Lemma compare_finite_0 s m e :
  compare (S754_finite s m e) (S754_zero false) = Some (if s then Lt else Gt).
Proof.
  unfold compare, exactQ, Qcompare.
  destruct (Z.leb_spec 0 e) as [He|He]; cbn [Qnum Qden inject_Z]; f_equal.
  - pose proof (Z.pow_pos_nonneg 2 e ltac:(lia) He).
    destruct s; [apply Z.compare_lt_iff | apply Z.compare_gt_iff]; nia.
  - destruct s; reflexivity.
Qed.

Lemma gt_finite_9 s m e :
  gt (S754_finite s m e) (S754_finite false 5066549580791808 (-49))
  = if 0 <=? e then 9 <? (if s then Z.neg m else Z.pos m) * 2 ^ e
    else 9 * 2 ^ (- e) <? (if s then Z.neg m else Z.pos m).
Proof.
  unfold gt, compare. rewrite exactQ_9. unfold exactQ, Qcompare.
  destruct (Z.leb_spec 0 e) as [He|He]; cbn [Qnum Qden inject_Z].
  - set (v := (if s then Z.neg m else Z.pos m) * 2 ^ e).
    destruct (Z.compare_spec (v * 562949953421312) (5066549580791808 * 1));
      destruct (Z.ltb_spec 9 v); try reflexivity; lia.
  - pose proof (Z.pow_pos_nonneg 2 (- e) ltac:(lia) ltac:(lia)) as Hp.
    rewrite Z2Pos.id by exact Hp.
    set (v := if s then Z.neg m else Z.pos m). set (p := 2 ^ (- e)) in *.
    destruct (Z.compare_spec (v * 562949953421312) (5066549580791808 * p));
      destruct (Z.ltb_spec (9 * p) v); try reflexivity; lia.
Qed.

(** The three tests of the sources on a digit reject exactly the numbers
    that are no integer within [0, 9]. *)
Lemma notDigit_spec n : LottoForm.notDigit n = negb (isDigitValue n).
Proof.
  unfold LottoForm.notDigit, isDigitValue. rewrite of_Z_0, of_Z_9.
  destruct n as [s|s| |s m e]; try reflexivity.
  - destruct s; reflexivity.
  - unfold lt at 1. rewrite compare_finite_0, gt_finite_9.
    unfold isInteger, asInteger.
    destruct (Z.leb_spec 0 e) as [He|He]; cbn [orb negb].
    + pose proof (Z.pow_pos_nonneg 2 e ltac:(lia) He).
      destruct s; cbn [orb].
      * symmetry. apply negb_true_iff, andb_false_iff. left. apply Z.leb_gt. nia.
      * rewrite orb_false_r.
        destruct (Z.ltb_spec 9 (Z.pos m * 2 ^ e)), (Z.leb_spec 0 (Z.pos m * 2 ^ e)),
          (Z.leb_spec (Z.pos m * 2 ^ e) 9); try reflexivity; nia.
    + pose proof (Z.pow_pos_nonneg 2 (- e) ltac:(lia) ltac:(lia)) as Hp.
      set (p := 2 ^ (- e)) in *.
      destruct (Z.eqb_spec (Z.pos m mod p) 0) as [Hd|Hd]; cbn [negb].
      * apply Z.mod_divide in Hd; [|lia]. destruct Hd as [k Hk].
        destruct s; cbn [orb].
        -- symmetry. apply negb_true_iff, andb_false_iff. left. apply Z.leb_gt.
           apply Z.div_lt_upper_bound; lia.
        -- rewrite orb_false_r, Hk, Z.div_mul by lia.
           destruct (Z.ltb_spec (9 * p) (k * p)), (Z.leb_spec 0 k), (Z.leb_spec k 9);
             try reflexivity; nia.
      * by rewrite orb_true_r.
Qed.

Lemma existsb_notDigit (l : list number) :
  existsb LottoForm.notDigit l = negb (forallb isDigitValue l).
Proof.
  induction l as [|n l IH]; [reflexivity|].
  cbn [existsb forallb]. rewrite IH, notDigit_spec. by destruct (isDigitValue n).
Qed.

Lemma invalidDigit_spec v : GeminiService.invalidDigit v = negb (isDigitJSON v).
Proof. destruct v; try reflexivity. apply notDigit_spec. Qed.

(** [Number] on some texts: integers in the three notations, fractions
    (0.1 is the double 0x3FB999999999999A), a value that rounds to an
    integer, and texts that are no numbers. *)
Example Number_examples :
  Number (str "7") = of_Z 7
  /\ Number (str "0x1F") = of_Z 31
  /\ Number (str "1e1") = of_Z 10
  /\ Number (str "5.") = of_Z 5
  /\ Number (str "") = of_Z 0
  /\ Number (str "0.1") = S754_finite false 7205759403792794 (-56)
  /\ Number (str "0.99999999999999999999") = of_Z 1
  /\ Number (str "9007199254740993") = of_Z 9007199254740992
  /\ Number (str "Infinity") = S754_infinity false
  /\ Number (str "1e400") = S754_infinity false
  /\ Number (str "abc") = NaN
  /\ Number (str "1_0") = NaN
  /\ Number (str ".") = NaN
  /\ Number (str "0x") = NaN.
Proof. vm_compute. repeat split. Qed.

(** White space: tab to carriage return, space, no-break space, the
    Unicode spaces, the line and paragraph separators, the byte order
    mark; and none of their neighbours. *)
Example isWhiteSpace_examples :
  forallb isWhiteSpace [9; 10; 11; 12; 13; 32; 160; 5760; 8192; 8202; 8232; 8233;
                        8239; 8287; 12288; 65279]%N = true
  /\ existsb isWhiteSpace [8; 14; 33; 44; 45; 48; 133; 6158; 8203; 8234; 65278]%N = false.
Proof. vm_compute. split; reflexivity. Qed.

Example isDigitValue_examples :
  isDigitValue (of_Z 0) = true
  /\ isDigitValue (of_Z 9) = true
  /\ isDigitValue (S754_zero true) = true
  /\ isDigitValue (of_Z 10) = false
  /\ isDigitValue (of_Z (-1)) = false
  /\ isDigitValue (Number (str "1.5")) = false
  /\ isDigitValue NaN = false.
Proof. vm_compute. repeat split. Qed.

End Numbers.

(** ** The draw parser *)

Section Parser.
Import Spec LottoForm.

Lemma dropWhile_head {A} (p : A -> bool) (l : list A) :
  match l with [] => True | x :: _ => p x = false end -> dropWhile p l = l.
Proof. destruct l as [|x l]; [reflexivity|]. cbn. by intros ->. Qed.

Lemma separator_whitespace c : separator c = false -> isWhiteSpace c = false.
Proof. unfold separator. by intros [_ ?]%orb_false_iff. Qed.

(** A piece without separators has no white space to trim. *)
Lemma trim_plain (x : list N) : Forall (fun c => separator c = false) x -> trim x = x.
Proof.
  intros Hx. unfold trim.
  rewrite (dropWhile_head _ x).
  - rewrite dropWhile_head; [apply rev_involutive|].
    destruct (rev x) as [|c r] eqn:Hr; [done|].
    apply separator_whitespace. rewrite Forall_forall in Hx. apply Hx.
    apply list_elem_of_In, in_rev. rewrite Hr. left. done.
  - destruct x as [|c x]; [done|]. apply separator_whitespace.
    by inversion Hx.
Qed.

Lemma split_go_plain (s cur : list N) (b : bool) :
  Forall (fun c => separator c = false) cur ->
  Forall (Forall (fun c => separator c = false)) (split_go separator b cur s).
Proof.
  revert cur b. induction s as [|c s IH]; intros cur b Hcur; cbn [split_go].
  - constructor; [|constructor]. by apply Forall_rev.
  - destruct (separator c) eqn:Hc.
    + destruct b; [by apply IH|].
      constructor; [by apply Forall_rev | by apply IH].
    + apply IH. by constructor.
Qed.

Lemma filter_map_trim (l : list (list N)) :
  Forall (Forall (fun c => separator c = false)) l ->
  List.filter nonEmpty (map trim l) = List.filter nonEmpty l.
Proof.
  induction 1 as [|x l Hx _ IH]; [reflexivity|].
  cbn [map List.filter]. by rewrite trim_plain, IH.
Qed.

(** The tokens are the non-empty pieces of the split. *)
Lemma tokens_pieces (input : list N) :
  tokens input = List.filter nonEmpty (split_runs separator input).
Proof. apply filter_map_trim, split_go_plain. constructor. Qed.

Lemma pieces_flag (s : list N) :
  List.filter nonEmpty (split_go separator true [] s)
  = List.filter nonEmpty (split_go separator false [] s).
Proof. destruct s as [|c s]; [reflexivity|]. cbn. by destruct (separator c). Qed.

Lemma split_go_token (t cur s : list N) :
  Forall (fun c => separator c = false) t ->
  split_go separator false cur (t ++ s) = split_go separator false (rev t ++ cur) s
  \/ t = [].
Proof.
  destruct t as [|c0 t]; [by right|]. left. revert c0 cur H.
  induction t as [|c t IH]; intros c0 cur Ht.
  - cbn. inversion Ht as [|?? Hc _]; subst. by rewrite Hc.
  - inversion Ht as [|?? Hc Ht']; subst.
    change ((c0 :: c :: t) ++ s) with (c0 :: (c :: t) ++ s).
    cbn [split_go]. rewrite Hc, IH by done.
    cbn [rev]. by rewrite <- !app_assoc.
Qed.

Lemma tokens_nil : tokens [] = [].
Proof. reflexivity. Qed.

Lemma tokens_separator c s : separator c = true -> tokens (c :: s) = tokens s.
Proof.
  intros Hc. rewrite !tokens_pieces. unfold split_runs. cbn [split_go].
  rewrite Hc. cbn. apply pieces_flag.
Qed.

Lemma tokens_token t s :
  t <> [] -> Forall (fun c => separator c = false) t ->
  (s = [] \/ exists c s', s = c :: s' /\ separator c = true) ->
  tokens (t ++ s) = t :: tokens s.
Proof.
  intros Hne Ht Hs. rewrite !tokens_pieces. unfold split_runs.
  destruct (split_go_token t [] s Ht) as [->|?]; [|done].
  rewrite app_nil_r.
  assert (Hnon : nonEmpty t = true) by (by destruct t).
  destruct Hs as [->|(c & s' & -> & Hc)].
  - cbn. by rewrite rev_involutive, Hnon.
  - cbn [split_go]. rewrite Hc, rev_involutive. cbn. rewrite Hnon.
    f_equal.
Qed.

(** The parser's tokens are the specification's, and no other list is. *)
Lemma Tokens_unique input ts : Tokens input ts -> ts = tokens input.
Proof.
  induction 1 as [|c s ts Hc _ IH|t s ts Hne Ht Hs _ IH].
  - reflexivity.
  - by rewrite tokens_separator.
  - by rewrite tokens_token, IH.
Qed.

Lemma split_go_Tokens (s cur : list N) (b : bool) :
  (b = true -> cur = []) ->
  Forall (fun c => separator c = false) cur ->
  Tokens (rev cur ++ s) (List.filter nonEmpty (split_go separator b cur s)).
Proof.
  revert cur b. induction s as [|c s IH]; intros cur b Hb Hcur; cbn [split_go].
  - rewrite app_nil_r. cbn. destruct (rev cur) as [|c0 r] eqn:Hr; cbn.
    + constructor.
    + rewrite <- (app_nil_r (c0 :: r)) at 1.
      apply (Tokens_token (c0 :: r)); [done| |by left|constructor].
      rewrite <- Hr. by apply Forall_rev.
  - destruct (separator c) eqn:Hc.
    + assert (Hrest : Tokens (c :: s) (List.filter nonEmpty (split_go separator true [] s))).
      { constructor; [done|]. by apply (IH [] true). }
      destruct b.
      * by rewrite Hb.
      * cbn [List.filter]. destruct (rev cur) as [|c0 r] eqn:Hr; cbn [nonEmpty app].
        -- exact Hrest.
        -- apply (Tokens_token (c0 :: r)); [done| |right; eauto|exact Hrest].
           rewrite <- Hr. by apply Forall_rev.
    + replace (rev cur ++ c :: s) with (rev (c :: cur) ++ s)
        by (cbn [rev]; by rewrite <- app_assoc).
      apply IH; [done|by constructor].
Qed.

Lemma tokens_Tokens input : Tokens input (tokens input).
Proof.
  rewrite tokens_pieces. apply (split_go_Tokens input [] false); [done|constructor].
Qed.


(** C1. [parseDraw] on the 3-digit game: the tokens are the maximal runs of
    characters that are no comma, hyphen or white space; the token count
    is checked first (WrongCount), then that every token parses to a number
    (NotNumeric), then that every number is an integer within [0, 9]
    (OutOfRange); a line that passes yields the numbers of its tokens, in
    the tokens' order. A failure carries the raw line. *)
Theorem parseDraw_3d_checks_in_priority (input : list N) :
  let toks := tokens input in
  (forall ts, Tokens input ts <-> ts = toks)
  /\ byKind (validateAndParseDraw input game3d)
     = (if negb (length toks =? 3)%nat then inl WrongCount
        else if existsb isNaN (map Number toks) then inl NotNumeric
        else if forallb isDigitValue (map Number toks) then inr (map Number toks)
        else inl OutOfRange)
  /\ (forall e, validateAndParseDraw input game3d = inl e -> rawText e = input).
Proof.
  intros toks. split; [|split].
  - intros ts. split; [apply Tokens_unique|intros ->; apply tokens_Tokens].
  - unfold validateAndParseDraw. fold toks.
    change (String.eqb (id game3d) "3d") with true. cbn match.
    destruct (negb (length toks =? 3)%nat); [reflexivity|].
    destruct (existsb isNaN (map Number toks)); [reflexivity|].
    rewrite existsb_notDigit.
    by destruct (forallb isDigitValue (map Number toks)).
  - intros e. unfold validateAndParseDraw. fold toks.
    change (String.eqb (id game3d) "3d") with true. cbn match.
    destruct (negb (length toks =? 3)%nat); [by intros [= <-]|].
    destruct (existsb isNaN (map Number toks)); [by intros [= <-]|].
    destruct (existsb notDigit (map Number toks)); [by intros [= <-]|done].
Qed.

(** A line that parses holds integers within [0, 9] only, so that the
    draw handed on loses nothing of it. *)
Lemma parsed_numbers_are_digits (input : list N) (numbers : DrawResult) :
  validateAndParseDraw input game3d = inr numbers ->
  length numbers = 3%nat
  /\ Forall (fun n => exists z, asInteger n = Some z /\ 0 <= z <= 9) numbers.
Proof.
  unfold validateAndParseDraw.
  change (String.eqb (id game3d) "3d") with true. cbn match.
  destruct (Nat.eqb_spec (length (tokens input)) 3) as [Hlen|]; [|done]. cbn [negb].
  destruct (existsb isNaN _); [done|].
  rewrite existsb_notDigit.
  destruct (forallb isDigitValue _) eqn:Hall; [|done]. intros [= <-].
  split; [by rewrite length_map|].
  apply Forall_forall. intros n Hn%list_elem_of_In.
  rewrite forallb_forall in Hall. specialize (Hall n Hn).
  unfold isDigitValue in Hall. destruct (asInteger n) as [z|]; [|done].
  exists z. split; [done|]. lia.
Qed.

(** The examples of the specification: a line of two tokens, and a line
    with a value out of range. *)
Example parseDraw_examples :
  byKind (validateAndParseDraw (str "1,2") game3d) = inl WrongCount
  /\ byKind (validateAndParseDraw (str "0,9,10") game3d) = inl OutOfRange
  /\ validateAndParseDraw (str "0 5-9") game3d = inr [of_Z 0; of_Z 5; of_Z 9].
Proof. vm_compute. auto. Qed.

End Parser.

(** ** Batch parsing *)

Section Batch.
Import Spec LottoForm.

Lemma imap_pair_cons {A} (k : nat) (x : A) (l : list A) :
  imap (fun i y => ((k + i)%nat, y)) (x :: l)
  = (k, x) :: imap (fun i y => ((S k + i)%nat, y)) l.
Proof.
  cbn [imap]. f_equal; [f_equal; lia|].
  apply imap_ext. intros i y _. cbn. f_equal. lia.
Qed.

Lemma successes_cons (game : LottoGame) (l : list N) (lines : list (list N)) :
  successes game (l :: lines)
  = match validateAndParseDraw l game with
    | inr draw => draw :: successes game lines
    | inl _ => successes game lines
    end.
Proof. unfold successes. cbn. destruct (validateAndParseDraw l game); reflexivity. Qed.

Lemma failures_cons (game : LottoGame) (k : nat) (l : list N) (lines : list (list N)) :
  failures game k (l :: lines)
  = match validateAndParseDraw l game with
    | inl e => {| lineLabel := k + 1; lineText := l; reason := e |}
               :: failures game (S k) lines
    | inr _ => failures game (S k) lines
    end.
Proof.
  unfold failures. rewrite imap_pair_cons. cbn.
  destruct (validateAndParseDraw l game); reflexivity.
Qed.

Lemma processCsv_fold (game : LottoGame) (lines : list (list N)) (k : nat)
    (ds : list DrawResult) (es : list LineError) :
  fold_left (processLine game) (imap (fun i l => ((k + i)%nat, l)) lines) (ds, es)
  = (ds ++ successes game lines, es ++ failures game k lines).
Proof.
  revert k ds es. induction lines as [|l lines IH]; intros k ds es.
  - cbn. by rewrite !app_nil_r.
  - rewrite imap_pair_cons, successes_cons, failures_cons. cbn [fold_left].
    unfold processLine at 2.
    destruct (validateAndParseDraw l game) as [e|d]; rewrite IH;
      by rewrite <- app_assoc.
Qed.

Lemma processCsvText_spec (text : list N) (game : LottoGame) :
  processCsvText text game
  = (successes game (csvLines text), failures game 0 (csvLines text)).
Proof.
  unfold processCsvText.
  change (imap pair (csvLines text))
    with (imap (fun i l => ((0 + i)%nat, l)) (csvLines text)).
  by rewrite processCsv_fold.
Qed.

Lemma successes_failures_length (game : LottoGame) (k : nat) (lines : list (list N)) :
  (length (successes game lines) + length (failures game k lines))%nat = length lines.
Proof.
  revert k. induction lines as [|l lines IH]; intros k; [reflexivity|].
  rewrite successes_cons, failures_cons. specialize (IH (S k)).
  destruct (validateAndParseDraw l game); cbn [length]; lia.
Qed.

Lemma failures_lookup (game : LottoGame) (k : nat) (lines : list (list N)) err :
  err ∈ failures game k lines ->
  (k < lineLabel err)%nat
  /\ lines !! (lineLabel err - 1 - k)%nat = Some (lineText err)
  /\ validateAndParseDraw (lineText err) game = inl (reason err).
Proof.
  revert k. induction lines as [|l lines IH]; intros k.
  - by intros ?%elem_of_nil.
  - rewrite failures_cons.
    assert (Hrest : err ∈ failures game (S k) lines ->
              (k < lineLabel err)%nat
              /\ (l :: lines) !! (lineLabel err - 1 - k)%nat = Some (lineText err)
              /\ validateAndParseDraw (lineText err) game = inl (reason err)).
    { intros Hin. destruct (IH _ Hin) as (? & Hl & ?). split; [lia|]. split; [|done].
      replace (lineLabel err - 1 - k)%nat with (S (lineLabel err - 1 - S k)) by lia.
      done. }
    destruct (validateAndParseDraw l game) as [e|d] eqn:Hv; [|done].
    intros [->|Hin]%elem_of_cons; [|by apply Hrest].
    cbn. split; [lia|]. replace (k + 1 - 1 - k)%nat with 0%nat by lia. done.
Qed.

Lemma failures_complete (game : LottoGame) (k i : nat) (lines : list (list N))
    (line : list N) (r : ValidationError) :
  lines !! i = Some line ->
  validateAndParseDraw line game = inl r ->
  {| lineLabel := k + i + 1; lineText := line; reason := r |}
  ∈ failures game k lines.
Proof.
  revert k i. induction lines as [|l lines IH]; intros k i Hl Hr; [done|].
  rewrite failures_cons. destruct i as [|i]; cbn in Hl.
  - injection Hl as ->. rewrite Hr, Nat.add_0_r. apply elem_of_cons. by left.
  - specialize (IH (S k) i Hl Hr).
    replace (S k + i + 1)%nat with (k + S i + 1)%nat in IH by lia.
    destruct (validateAndParseDraw l game); [apply elem_of_cons; by right|done].
Qed.

Lemma filter_take_S {A} (p : A -> bool) (l : list A) (k : nat) (x : A) :
  l !! k = Some x ->
  List.filter p (take (S k) l)
  = List.filter p (take k l) ++ (if p x then [x] else []).
Proof.
  intros Hk. rewrite (take_S_r l k x Hk), List.filter_app. cbn.
  by destruct (p x).
Qed.

Lemma filter_lookup_inv {A} (p : A -> bool) (l : list A) (i : nat) (x : A) :
  List.filter p l !! i = Some x ->
  exists k, l !! k = Some x /\ p x = true
            /\ length (List.filter p (take (S k) l)) = S i.
Proof.
  revert i. induction l as [|a l IH]; intros i Hi; [done|].
  cbn [List.filter] in Hi. destruct (p a) eqn:Hp.
  - destruct i as [|i]; cbn in Hi.
    + injection Hi as <-. exists 0%nat. cbn. by rewrite Hp.
    + destruct (IH i Hi) as (k & Hk & Hx & Hlen).
      exists (S k). split; [done|]. split; [done|].
      change (take (S (S k)) (a :: l)) with (a :: take (S k) l).
      cbn [List.filter]. rewrite Hp. cbn. by rewrite Hlen.
  - destruct (IH i Hi) as (k & Hk & Hx & Hlen).
    exists (S k). split; [done|]. split; [done|].
    change (take (S (S k)) (a :: l)) with (a :: take (S k) l).
    cbn [List.filter]. by rewrite Hp.
Qed.

Lemma filter_lookup_at {A} (p : A -> bool) (l : list A) (k : nat) (x : A) :
  l !! k = Some x -> p x = true ->
  List.filter p l !! length (List.filter p (take k l)) = Some x.
Proof.
  revert k. induction l as [|a l IH]; intros k Hk Hx; [done|].
  destruct k as [|k]; cbn in Hk.
  - injection Hk as ->. cbn. by rewrite Hx.
  - cbn [take List.filter]. destruct (p a); cbn; by apply IH.
Qed.

Lemma filter_length_all {A} (p : A -> bool) (l : list A) :
  length (List.filter p l) = length l <-> Forall (fun x => p x = true) l.
Proof.
  induction l as [|a l IH]; [by split; [constructor|]|].
  cbn [List.filter]. pose proof (List.filter_length_le p l) as Hle.
  destruct (p a) eqn:Hp; cbn [length]; split.
  - intros H. constructor; [done|]. apply IH. lia.
  - intros H. inversion H; subst. f_equal. by apply IH.
  - intros H. lia.
  - intros H. inversion H; subst. congruence.
Qed.

Lemma nonEmpty_true (line : list N) : nonEmpty line = true <-> line <> [].
Proof. by destruct line. Qed.

(** X25. Batch parsing, from the text: the lines are those of the text,
    trimmed, without the blank ones; every one of them is parsed, the
    draws are the successes in order and the errors the failures in
    order, and none is lost. Each error carries its line, a line of the
    text that is not blank, with the number of non-blank lines up to it
    as label: that is its line number in the text exactly when no blank
    line precedes it. Every line of the text that is not blank and does
    not parse has its error. When there are errors, the upload ends with
    their report, which shows the first errors, five at most, and counts
    the others. *)
Theorem every_non_blank_line_is_reported (text : list N) (game : LottoGame) :
  let lines := List.filter nonEmpty (inputLines text) in
  let draws := (processCsvText text game).1 in
  let errors := (processCsvText text game).2 in
  let report := errorReport errors in
  draws = successes game lines
  /\ errors = failures game 0 lines
  /\ (length draws + length errors)%nat = length lines
  /\ (forall err, err ∈ errors ->
        exists k,
          (1 <= k)%nat
          /\ inputLine text k = Some (lineText err)
          /\ lineText err <> []
          /\ validateAndParseDraw (lineText err) game = inl (reason err)
          /\ lineLabel err = nonBlankAmong text k
          /\ (lineLabel err = k
              <-> Forall (fun line => line <> []) (take k (inputLines text))))
  /\ (forall k line r,
        (1 <= k)%nat ->
        inputLine text k = Some line -> line <> [] ->
        validateAndParseDraw line game = inl r ->
        {| lineLabel := nonBlankAmong text k; lineText := line; reason := r |}
        ∈ errors)
  /\ (text <> [] -> errors <> [] ->
      handleFileUpload text game = ErrorsInCsv report)
  /\ shown report `prefix_of` errors
  /\ length (shown report) = Nat.min 5 (length errors)
  /\ (length (shown report) + default 0%nat (more report))%nat = length errors
  /\ (more report = None <-> (length errors <= 5)%nat).
Proof.
  cbn zeta. rewrite processCsvText_spec. cbn [fst snd].
  change (csvLines text) with (List.filter nonEmpty (inputLines text)).
  split; [reflexivity|]. split; [reflexivity|].
  split; [apply successes_failures_length|].
  split.
  { intros err Hin. destruct (failures_lookup _ _ _ _ Hin) as (Hpos & Hl & Hr).
    rewrite Nat.sub_0_r in Hl.
    apply filter_lookup_inv in Hl as (k & Hk & Hne & Hlen).
    exists (S k). split; [lia|]. split.
    { unfold inputLine. cbn [Nat.sub]. rewrite Nat.sub_0_r.
      unfold inputLines in Hk. by rewrite <- list_lookup_fmap. }
    split; [by apply nonEmpty_true|]. split; [exact Hr|].
    assert (Hlabel : lineLabel err = nonBlankAmong text (S k)).
    { unfold nonBlankAmong. lia. }
    split; [exact Hlabel|].
    rewrite Hlabel. unfold nonBlankAmong.
    assert (Htake : length (take (S k) (inputLines text)) = S k).
    { rewrite length_take. apply lookup_lt_Some in Hk. lia. }
    rewrite <- Htake at 2. rewrite filter_length_all.
    split; intros H; eapply Forall_impl; try exact H; intros line;
      apply nonEmpty_true. }
  split.
  { intros k line r Hk Hline Hne Hr.
    destruct k as [|k]; [lia|].
    unfold inputLine in Hline. cbn [Nat.sub] in Hline. rewrite Nat.sub_0_r in Hline.
    rewrite <- list_lookup_fmap in Hline. fold (inputLines text) in Hline.
    apply nonEmpty_true in Hne.
    pose proof (filter_lookup_at nonEmpty _ _ _ Hline Hne) as Hat.
    pose proof (failures_complete game 0 _ _ _ r Hat Hr) as Hin.
    unfold nonBlankAmong. rewrite (filter_take_S _ _ _ _ Hline), Hne.
    rewrite length_app. cbn [length].
    by replace (length (List.filter nonEmpty (take k (inputLines text))) + 1)%nat
      with (0 + length (List.filter nonEmpty (take k (inputLines text))) + 1)%nat
      by lia. }
  split.
  { intros Htext Herr. unfold handleFileUpload. destruct text as [|c text]; [done|].
    rewrite processCsvText_spec.
    change (csvLines (c :: text))
      with (List.filter nonEmpty (inputLines (c :: text))).
    destruct (failures game 0 (List.filter nonEmpty (inputLines (c :: text))));
      [done|reflexivity]. }
  set (errors := failures game 0 (List.filter nonEmpty (inputLines text))).
  unfold errorReport. cbn [shown more].
  split; [apply prefix_take|].
  split; [apply length_take|].
  rewrite length_take.
  destruct (Nat.ltb_spec 5 (length errors));
    cbv [default from_option Datatypes.id]; split; try lia.
  - split; [done|lia].
  - split; [lia|done].
Qed.

(** C4. The code labels a failing line with its position among the
    lines that are not blank, not with its line number in the text. The
    text has three lines: [1,2,3], a blank line, [1,2]. The third line
    does not parse, and its error is labelled line 2, which in the text
    is the blank line; the upload shows the error under that label. *)
Lemma blank_line_shifts_the_line_label :
  let err := {| lineLabel := 2; lineText := str "1,2";
                reason := Exactly3Digits (name game3d) 2 (str "1,2") |} in
  split_lines blankLineText = [str "1,2,3"; []; str "1,2"]
  /\ processCsvText blankLineText game3d = ([[of_Z 1; of_Z 2; of_Z 3]], [err])
  /\ inputLine blankLineText 2 = Some []
  /\ inputLine blankLineText 3 = Some (str "1,2")
  /\ handleFileUpload blankLineText game3d
     = ErrorsInCsv {| shown := [err]; more := None |}.
Proof. vm_compute. repeat split. Qed.

End Batch.

(** ** The prediction requestor *)

Section Requestor.
Import Spec GeminiService App.

Variable JSON_parse : list N -> option JSValue.

Lemma checkDigits_spec (k : nat) (nums : list JSValue) :
  checkDigits k nums
  = match list_find (fun v => isDigitJSON v = false) nums with
    | Some (i, v) => inl (InvalidDigit v (k + i + 1))
    | None => inr (omap asNumber nums)
    end.
Proof.
  revert k. induction nums as [|v nums IH]; intros k; [reflexivity|].
  cbn [checkDigits list_find]. 
  assert (Hv := invalidDigit_spec v).
  destruct (decide (isDigitJSON v = false)) as [Hd|Hd].
  - rewrite Hd in Hv. cbn [negb] in Hv. cbn. rewrite Nat.add_0_r.
    destruct v; try reflexivity. by rewrite Hv.
  - apply not_false_is_true in Hd. rewrite Hd in Hv. cbn [negb] in Hv.
    destruct v; try discriminate Hd. rewrite Hv, IH.
    destruct (list_find _ nums) as [[i v]|]; cbn; [|reflexivity].
    do 2 f_equal. lia.
Qed.

(** C8, as the code has it. A response that has passed the structure
    check ([predictedNumbers] an array, [analysisSummary] truthy), for
    the 3-digit game: unless [predictedNumbers] has three elements, each
    a number that is an integer within [0, 9], the validation fails with
    InvalidPredictionValue; the failure for an element names the first
    offending element and its 1-based position; otherwise the response
    is returned. *)
Theorem prediction_validation_3d
    (parsedData : JSValue) (nums : list JSValue) (summary : JSValue) :
  wellShaped parsedData nums summary ->
  validate game3d parsedData
  = (if decide (length nums = 3%nat) then
       match list_find (fun v => isDigitJSON v = false) nums with
       | Some (i, v) => inl (InvalidDigit v (i + 1))
       | None => inr {| predictedNumbers := omap asNumber nums;
                        analysisSummary := summary |}
       end
     else inl (WrongDigitCount (length nums)))
  /\ (forall e, validate game3d parsedData = inl e ->
        thrownKind e = Some InvalidPredictionValue
        /\ rethrow e = FailedToGet e
        /\ errorKind (rethrow e) = Some InvalidPredictionValue).
Proof.
  intros (Hnums & Hsummary & Htruthy).
  assert (Heq : validate game3d parsedData
    = (if decide (length nums = 3%nat) then
         match list_find (fun v => isDigitJSON v = false) nums with
         | Some (i, v) => inl (InvalidDigit v (i + 1))
         | None => inr {| predictedNumbers := omap asNumber nums;
                          analysisSummary := summary |}
         end
       else inl (WrongDigitCount (length nums)))).
  { unfold validate. rewrite Hnums, Hsummary. cbn [from_option truthy negb].
    rewrite Htruthy. cbn [negb].
    change (String.eqb (id game3d) "3d") with true. cbn match.
    destruct (Nat.eqb_spec (length nums) 3) as [Hlen|Hlen]; cbn [negb].
    - rewrite decide_True by done. rewrite checkDigits_spec.
      by destruct (list_find _ nums) as [[i v]|].
    - by rewrite decide_False. }
  split; [exact Heq|].
  intros e. rewrite Heq. case_decide.
  - destruct (list_find _ nums) as [[i v]|]; [|done]. by intros [= <-].
  - by intros [= <-].
Qed.

(** Before these checks, a response that has not the required shape
    fails as malformed (or on the property access, when it is null). *)
Lemma ill_shaped_response_is_malformed (game : LottoGame) (parsedData : JSValue) :
  (forall nums summary, ¬ wellShaped parsedData nums summary) ->
  validate game parsedData = inl InvalidStructure
  \/ validate game parsedData = inl TypeError.
Proof.
  intros Hshape. unfold validate.
  destruct (getField (str "predictedNumbers") parsedData) as [e|numbers] eqn:Hn.
  { destruct parsedData; try discriminate Hn. injection Hn as <-. by right. }
  left. destruct numbers as [numbers|]; [|reflexivity]. cbn [from_option].
  destruct (truthy numbers); [|reflexivity]. cbn [negb].
  destruct (getField (str "analysisSummary") parsedData) as [e|summary] eqn:Hs.
  { destruct parsedData; discriminate. }
  destruct numbers as [| | | |nums|]; try reflexivity.
  destruct summary as [summary|]; [|reflexivity].
  destruct (truthy summary) eqn:Ht; [|reflexivity].
  by destruct (Hshape nums summary).
Qed.

(** The example of the specification: two numbers where three are due. *)
Lemma prediction_validation_3d_witness :
  wellShaped twoNumbers [JNumber (of_Z 1); JNumber (of_Z 2)] (JString (str "x"))
  /\ validate game3d twoNumbers = inl (WrongDigitCount 2)
  /\ errorKind (rethrow (WrongDigitCount 2)) = Some InvalidPredictionValue.
Proof.
  assert (H : wellShaped twoNumbers [JNumber (of_Z 1); JNumber (of_Z 2)]
                (JString (str "x"))).
  { repeat split; reflexivity. }
  split; [exact H|].
  destruct (prediction_validation_3d twoNumbers _ _ H) as [Heq Hkind].
  split; [exact Heq|].
  apply (Hkind (WrongDigitCount 2) Heq).
Defined.

(** C8, as worded, fails: the structure check comes first, and a
    response whose [analysisSummary] is empty does not pass it, whatever
    its [predictedNumbers]. The response
    [{predictedNumbers: [1, 2], analysisSummary: ''}] has two numbers
    where three are due, and its failure is MalformedResponse, not
    InvalidPredictionValue. *)
Lemma empty_summary_fails_as_malformed :
  getField (str "predictedNumbers") twoNumbersEmptySummary
  = inr (Some (JArray [JNumber (of_Z 1); JNumber (of_Z 2)]))
  /\ getField (str "analysisSummary") twoNumbersEmptySummary
     = inr (Some (JString []))
  /\ validate game3d twoNumbersEmptySummary = inl InvalidStructure
  /\ thrownKind InvalidStructure = Some MalformedResponse
  /\ errorKind (rethrow InvalidStructure) = Some MalformedResponse
  /\ errorKind (rethrow InvalidStructure) <> Some InvalidPredictionValue.
Proof. repeat split; discriminate. Qed.

(** C9. Without a credential (no key, or the empty one) the client is
    null, and with a null client [getGeminiPrediction] is finished at
    once, for every game and every history: it fails with
    ServiceUnavailable and never reaches the external call. In the
    component, a request then leaves nothing in flight and ends with an
    error message shown. *)
Theorem disabled_requestor_fails_at_once :
  ai None = None
  /\ ai (Some []) = None
  /\ (forall (game : LottoGame) (draws : list Draw),
        let r := getGeminiPrediction JSON_parse None game draws in
        r = Done (inl ClientNotInitialized)
        /\ finishedAtOnce r = true
        /\ errorKind ClientNotInitialized = Some ServiceUnavailable)
  /\ (forall (w : World),
        let w' := dispatch JSON_parse None w GetGeminiPrediction in
        inFlight w' = inFlight w
        /\ aiError (state w')
           = Some (if (length (recentDraws (state w)) <? 3)%nat then NeedThreeDraws
                   else ServiceMessage ClientNotInitialized)).
Proof.
  split; [reflexivity|]. split; [reflexivity|]. split.
  - intros game draws. repeat split.
  - intros w. unfold dispatch, handleGetGeminiPrediction. cbv zeta.
    destruct (length (recentDraws (state w)) <? 3)%nat; repeat split.
Qed.

End Requestor.

(** ** The fence pattern *)

Section Fence.
Import Spec GeminiService.

Variable JSON_parse : list N -> option JSValue.

Lemma takeWhile_dropWhile {A} (p : A -> bool) (l : list A) :
  l = takeWhile p l ++ dropWhile p l.
Proof.
  induction l as [|x l IH]; [reflexivity|]. cbn.
  destruct (p x); [|reflexivity]. cbn. by rewrite <- IH.
Qed.

Lemma takeWhile_Forall {A} (p : A -> bool) (l : list A) :
  Forall (fun x => p x = true) (takeWhile p l).
Proof.
  induction l as [|x l IH]; cbn; [constructor|].
  destruct (p x) eqn:Hx; by constructor.
Qed.

Lemma dropWhile_stops {A} (p : A -> bool) (l : list A) :
  match dropWhile p l with [] => True | x :: _ => p x = false end.
Proof.
  induction l as [|x l IH]; cbn; [done|].
  destruct (p x) eqn:Hx; [exact IH|exact Hx].
Qed.

(** A text is white space, its trimmed text, and white space. When the
    trimmed text is not empty, it starts and ends with other characters. *)
Lemma trim_split (s : list N) :
  exists w1 w2,
    s = w1 ++ trim s ++ w2
    /\ Forall (fun c => isWhiteSpace c = true) w1
    /\ Forall (fun c => isWhiteSpace c = true) w2.
Proof.
  exists (takeWhile isWhiteSpace s),
         (rev (takeWhile isWhiteSpace (rev (dropWhile isWhiteSpace s)))).
  split; [|split].
  - unfold trim. rewrite <- rev_app_distr, <- takeWhile_dropWhile, rev_involutive.
    apply takeWhile_dropWhile.
  - apply takeWhile_Forall.
  - apply Forall_rev, takeWhile_Forall.
Qed.

Lemma trim_ends (s : list N) :
  trim s <> [] ->
  exists c b x b',
    trim s = c :: b /\ isWhiteSpace c = false
    /\ trim s = b' ++ [x] /\ isWhiteSpace x = false.
Proof.
  intros Hne. unfold trim in *.
  set (d := dropWhile isWhiteSpace s) in *.
  pose proof (dropWhile_stops isWhiteSpace (rev d)) as He.
  destruct (dropWhile isWhiteSpace (rev d)) as [|x e] eqn:Hd; [done|].
  cbn [rev] in *.
  assert (Hd' : d = rev e ++ [x] ++ rev (takeWhile isWhiteSpace (rev d))).
  { rewrite <- (rev_involutive d) at 1.
    rewrite (takeWhile_dropWhile isWhiteSpace (rev d)) at 1.
    rewrite Hd, rev_app_distr. cbn [rev]. by rewrite <- app_assoc. }
  pose proof (dropWhile_stops isWhiteSpace s) as Hs. fold d in Hs.
  destruct (rev e) as [|c b] eqn:Hre.
  - exists x, [], x, []. cbn. rewrite Hd' in Hs. cbn in Hs. done.
  - exists c, (b ++ [x]), x, (c :: b). cbn. rewrite Hd' in Hs. cbn in Hs. done.
Qed.

Lemma trim_fixed (b : list N) c b1 x b2 :
  b = c :: b1 -> isWhiteSpace c = false ->
  b = b2 ++ [x] -> isWhiteSpace x = false ->
  trim b = b.
Proof.
  intros Hc Hcw Hx Hxw. unfold trim.
  rewrite (dropWhile_head _ b) by (by rewrite Hc).
  rewrite dropWhile_head; [apply rev_involutive|].
  rewrite Hx, rev_app_distr. cbn. exact Hxw.
Qed.

Lemma trim_idempotent (s : list N) : trim (trim s) = trim s.
Proof.
  destruct (decide (trim s = [])) as [->|Hne]; [reflexivity|].
  destruct (trim_ends s Hne) as (c & b & x & b' & H1 & H2 & H3 & H4).
  by eapply trim_fixed.
Qed.

(** What each piece of the pattern consumes. *)
Lemma star_greedy_sound p s m r :
  (m, r) ∈ star_greedy p s -> s = m ++ r /\ Forall (fun c => p c = true) m.
Proof.
  revert m r. induction s as [|c s IH]; intros m r; cbn [star_greedy].
  - intros [= -> ->]%list_elem_of_singleton. by split.
  - destruct (p c) eqn:Hc.
    + intros [Hin|[= -> ->]%list_elem_of_singleton]%elem_of_app; [|by split].
      apply list_elem_of_fmap in Hin as ([m' r'] & [= -> ->] & Hin).
      destruct (IH _ _ Hin) as [-> ?]. cbn. split; [done|by constructor].
    + intros [= -> ->]%list_elem_of_singleton. by split.
Qed.

Lemma star_greedy_first p m r :
  Forall (fun c => p c = true) m ->
  match r with [] => True | c :: _ => p c = false end ->
  exists rest, star_greedy p (m ++ r) = (m, r) :: rest.
Proof.
  intros Hm Hr. induction Hm as [|c m Hc _ [rest IH]].
  - cbn [app]. destruct r as [|c r]; [by exists []|].
    cbn [star_greedy]. rewrite Hr. by exists [].
  - cbn [app star_greedy]. rewrite Hc, IH. cbn. eauto.
Qed.

Lemma opt_char_sound c s m r :
  (m, r) ∈ opt_char c s -> s = m ++ r /\ (m = [] \/ m = [c]).
Proof.
  unfold opt_char. destruct s as [|c' s].
  - intros [= -> ->]%list_elem_of_singleton. auto.
  - destruct (N.eqb_spec c' c) as [->|Hne].
    + intros [[= -> ->]|[= -> ->]%list_elem_of_singleton]%elem_of_cons; auto.
    + intros [= -> ->]%list_elem_of_singleton. auto.
Qed.

Lemma lit_fence_sound s m r : (m, r) ∈ lit_fence s -> s = fence ++ r.
Proof.
  unfold lit_fence. destruct s as [|a [|b [|c s]]]; try by intros ?%elem_of_nil.
  destruct (N.eqb_spec a 96) as [->|]; [|by intros ?%elem_of_nil].
  destruct (N.eqb_spec b 96) as [->|]; [|by intros ?%elem_of_nil].
  destruct (N.eqb_spec c 96) as [->|]; [|by intros ?%elem_of_nil].
  by intros [= -> ->]%list_elem_of_singleton.
Qed.

Lemma fenceClose_sound r :
  tt ∈ fenceClose r ->
  exists w, Forall (fun c => isWhiteSpace c = true) w /\ r = w ++ fence.
Proof.
  unfold fenceClose.
  intros ([m1 r1] & Hin & H1)%list_elem_of_bind.
  apply list_elem_of_bind in Hin as ([m2 r2] & Hin & H2).
  apply list_elem_of_bind in Hin as ([m3 r3] & Hin & H3).
  cbn [snd] in *.
  apply opt_char_sound in H1 as [-> Hm1].
  apply star_greedy_sound in H2 as [-> Hm2].
  apply lit_fence_sound in H3 as ->.
  destruct r3; [|by apply elem_of_nil in Hin].
  exists (m1 ++ m2). rewrite app_nil_r, <- app_assoc. split; [|done].
  apply Forall_app. split; [|done].
  destruct Hm1 as [->| ->]; repeat constructor.
Qed.

Lemma fenceClose_white (w : list N) :
  Forall (fun c => isWhiteSpace c = true) w ->
  head (fenceClose (w ++ fence)) = Some tt.
Proof.
  intros Hw. unfold fenceClose.
  assert (Hgo : forall w', Forall (fun c => isWhiteSpace c = true) w' ->
            head (mr2 ← star_greedy isWhiteSpace (w' ++ fence);
                  mr3 ← lit_fence (snd mr2); eos (snd mr3)) = Some tt).
  { intros w' Hw'.
    destruct (star_greedy_first isWhiteSpace w' fence Hw') as [rest ->]; [done|].
    reflexivity. }
  destruct w as [|c w].
  - cbn [app opt_char fence]. cbn. reflexivity.
  - cbn [app opt_char]. destruct (N.eqb_spec c 10) as [->|Hne].
    + rewrite bind_cons. cbn [snd]. inversion Hw; subst.
      specialize (Hgo w ltac:(done)).
      destruct (mr2 ← star_greedy isWhiteSpace (w ++ fence);
                mr3 ← lit_fence (snd mr2); eos (snd mr3)); [done|].
      exact Hgo.
    + rewrite bind_singleton. cbn [snd]. apply (Hgo (c :: w) Hw).
Qed.

Lemma head_bind_first {A B} (g : A -> list B) (x : A) (l : list A) (y : B) :
  head (g x) = Some y -> head ((x :: l) ≫= g) = Some y.
Proof. rewrite bind_cons. by destruct (g x). Qed.

Lemma bind_fmap {A B C} (h : A -> B) (g : B -> list C) (l : list A) :
  (h <$> l) ≫= g = l ≫= (fun x => g (h x)).
Proof. induction l as [|x l IH]; [reflexivity|]. cbn. by rewrite IH. Qed.

(** The lazy run stops at the first place from which the rest of the
    pattern matches. *)
Lemma star_lazy_first {B} (a t : list N) (g : list N * list N -> list B) (y : B) :
  (forall a1 a2, a = a1 ++ a2 -> a2 <> [] -> g (a1, a2 ++ t) = []) ->
  head (g (a, t)) = Some y ->
  head (star_lazy_any (a ++ t) ≫= g) = Some y.
Proof.
  revert g. induction a as [|c a IH]; intros g Hfail Hok.
  - cbn [app]. destruct t; cbn [star_lazy_any]; by apply head_bind_first.
  - cbn [app star_lazy_any]. rewrite bind_cons.
    pose proof (Hfail [] (c :: a) eq_refl ltac:(done)) as H0.
    cbn [app] in H0. rewrite H0. cbn [app].
    change (map ?h ?l) with (h <$> l). rewrite bind_fmap. cbn [fst snd].
    apply IH; [|exact Hok].
    intros a1 a2 -> Hne. by apply (Hfail (c :: a1) a2).
Qed.

Lemma fenceClose_fails (a2 w : list N) (x : N) :
  isWhiteSpace x = false ->
  fenceClose ((a2 ++ [x]) ++ w ++ fence) = [].
Proof.
  intros Hx.
  destruct (fenceClose ((a2 ++ [x]) ++ w ++ fence)) as [|[] l] eqn:Hc; [done|].
  exfalso.
  assert (Hin : tt ∈ fenceClose ((a2 ++ [x]) ++ w ++ fence))
    by (rewrite Hc; left).
  apply fenceClose_sound in Hin as (w' & Hw' & Heq).
  rewrite app_assoc in Heq. apply app_inv_tail in Heq. subst w'.
  apply Forall_app in Hw' as [Hw' _]. apply Forall_app in Hw' as [_ Hw'].
  inversion Hw'; subst. congruence.
Qed.

(** The text between the fences: a label of word characters, a line feed,
    the payload, a line feed. *)
Lemma fenceMatch_fenced (label s : list N) :
  Forall (fun c => isWordChar c = true) label ->
  trim s <> [] ->
  fenceMatch (fenced label s) = Some (trim s).
Proof.
  intros Hlabel Hne.
  destruct (trim_split s) as (w1 & w2 & Hs & Hw1 & Hw2).
  destruct (trim_ends s Hne) as (c & b & x & b' & Hc & Hcw & Hx & Hxw).
  unfold fenceMatch, fenced. cbn [fence app lit_fence]. cbn [N.eqb Pos.eqb andb].
  rewrite bind_singleton. cbn [snd].
  rewrite Hs at 1.
  destruct (star_greedy_first isWordChar label
              (10%N :: (w1 ++ trim s ++ w2) ++ 10%N :: fence) Hlabel) as [r1 ->];
    [reflexivity|].
  f_equal. apply head_bind_first. cbn [snd].
  replace (10%N :: (w1 ++ trim s ++ w2) ++ 10%N :: fence)
    with ((10%N :: w1) ++ trim s ++ (w2 ++ [10%N]) ++ fence)
    by (cbn; by rewrite <- !app_assoc).
  destruct (star_greedy_first isWhiteSpace (10%N :: w1)
              (trim s ++ (w2 ++ [10%N]) ++ fence)) as [r2 ->].
  { by constructor. }
  { by rewrite Hc. }
  apply head_bind_first. cbn [snd].
  assert (Hopt : opt_char 10 (trim s ++ (w2 ++ [10%N]) ++ fence)
                 = [([], trim s ++ (w2 ++ [10%N]) ++ fence)]).
  { rewrite Hc. cbn [app opt_char].
    destruct (N.eqb_spec c 10) as [->|]; [discriminate Hcw|reflexivity]. }
  rewrite Hopt, bind_singleton. cbn [snd].
  apply star_lazy_first.
  - intros a1 a2 Ha Hne2. cbn [fst snd].
    assert (exists a2', a2 = a2' ++ [x]) as [a2' ->].
    { destruct (exists_last Hne2) as (a2' & x' & ->). exists a2'.
      rewrite Ha, app_assoc in Hx. by apply app_inj_tail in Hx as [_ ->]. }
    by rewrite fenceClose_fails.
  - cbn [fst snd].
    assert (Hclose := fenceClose_white (w2 ++ [10%N])).
    destruct (fenceClose ((w2 ++ [10%N]) ++ fence)) as [|[] l].
    + discriminate Hclose. apply Forall_app. split; [done|by repeat constructor].
    + reflexivity.
Qed.

Lemma lit_fence_none (x : list N) :
  (forall r, x <> fence ++ r) -> lit_fence x = [].
Proof.
  intros Hx. unfold lit_fence. destruct x as [|a [|b [|c x]]]; try reflexivity.
  destruct (N.eqb_spec a 96) as [->|]; [|reflexivity].
  destruct (N.eqb_spec b 96) as [->|]; [|reflexivity].
  destruct (N.eqb_spec c 96) as [->|]; [|reflexivity].
  by destruct (Hx x).
Qed.

Lemma stripFence_fenced (label s : list N) :
  Forall (fun c => isWordChar c = true) label ->
  trim s <> [] ->
  stripFence (fenced label s) = trim s.
Proof.
  intros Hlabel Hne. unfold stripFence.
  assert (Htrim : trim (fenced label s) = fenced label s).
  { apply (trim_fixed _ 96%N ([96; 96]%N ++ label ++ 10%N :: s ++ 10%N :: fence)
             96%N (fence ++ label ++ 10%N :: s ++ [10; 96; 96]%N));
      try reflexivity.
    unfold fenced, fence. cbn [app]. do 3 f_equal.
    rewrite <- !app_assoc. cbn [app]. do 2 f_equal. by rewrite <- app_assoc. }
  rewrite Htrim, fenceMatch_fenced by done.
  destruct (trim s) as [|c b] eqn:Hb; [done|].
  rewrite <- Hb. apply trim_idempotent.
Qed.

Lemma stripFence_plain (s : list N) :
  (forall r, trim s <> fence ++ r) -> stripFence s = trim s.
Proof.
  intros Hs. unfold stripFence, fenceMatch. by rewrite lit_fence_none.
Qed.

(** The pattern on some texts: both fence forms, a payload with white
    space around it, no line feeds at all, and a label that a space
    follows (the label, then, is read as part of the payload's line). *)
Example stripFence_examples :
  stripFence (fenced (str "json") (str "{}")) = str "{}"
  /\ stripFence (fenced [] (str " {} ")) = str "{}"
  /\ stripFence (str "```json{}```") = str "{}"
  /\ stripFence (str "```a b```") = str "b"
  /\ stripFence (str "``` json{}```") = str "json{}"
  /\ stripFence (str " {} ") = str "{}"
  /\ stripFence (fenced (str "json") (str "  ")) = fenced (str "json") (str "  ").
Proof. vm_compute. repeat split. Qed.

(** C7, as the code has it. A text in fenced form, labelled [json] or
    not, is normalized to the text between the fences with its
    surrounding white space removed. An unwrapped text that does not
    itself start with a fence is normalized to the same, so both are
    parsed identically; and a text without surrounding white space is
    given back as it is. *)
Theorem fenced_response_normalizes_to_trimmed_text (s : list N) :
  trim s <> [] ->
  stripFence (fenced (str "json") s) = trim s
  /\ stripFence (fenced [] s) = trim s
  /\ ((forall r, trim s <> fence ++ r) ->
        stripFence s = trim s
        /\ JSON_parse (stripFence (fenced (str "json") s)) = JSON_parse (stripFence s)
        /\ JSON_parse (stripFence (fenced [] s)) = JSON_parse (stripFence s))
  /\ (trim s = s ->
        stripFence (fenced (str "json") s) = s /\ stripFence (fenced [] s) = s).
Proof.
  intros Hne.
  assert (H1 : stripFence (fenced (str "json") s) = trim s).
  { apply stripFence_fenced; [|done]. by repeat constructor. }
  assert (H2 : stripFence (fenced [] s) = trim s).
  { apply stripFence_fenced; [constructor|done]. }
  split; [done|]. split; [done|]. split.
  - intros Hs. rewrite H1, H2, stripFence_plain by done. done.
  - intros Hs. by rewrite H1, H2, Hs.
Qed.

End Fence.

(** A fenced text and its normal form, from the theorem. *)
Lemma fenced_response_normalizes_witness :
  trim (str "[1,2,3]") <> []
  /\ GeminiService.stripFence (Spec.fenced (str "json") (str "[1,2,3]")) = str "[1,2,3]"
  /\ GeminiService.stripFence (Spec.fenced [] (str "[1,2,3]")) = str "[1,2,3]".
Proof.
  assert (H : trim (str "[1,2,3]") <> []) by (vm_compute; discriminate).
  split; [exact H|].
  destruct (fenced_response_normalizes_to_trimmed_text (fun _ => None) _ H)
    as (H1 & H2 & _).
  split; [exact H1|exact H2].
Defined.

(** C7, as worded, fails: [[1] ] with a space at its end is a
    JSON text, and its fenced forms are not normalized to the text itself
    but to the text without the space. *)
Lemma fenced_text_is_not_kept_as_it_is :
  GeminiService.stripFence (Spec.fenced (str "json") (str "[1] ")) <> str "[1] "
  /\ GeminiService.stripFence (Spec.fenced [] (str "[1] ")) <> str "[1] "
  /\ GeminiService.stripFence (Spec.fenced (str "json") (str "[1] ")) = str "[1]".
Proof. vm_compute. repeat split; discriminate. Qed.

(** ** Sorting with a comparator *)

Section Sorting.
Context {A : Type} (cmp : A -> A -> Z).

Hypothesis cmp_total : forall x y, 0 < cmp x y -> cmp y x <= 0.
Hypothesis cmp_trans : forall x y z, cmp x y <= 0 -> cmp y z <= 0 -> cmp x z <= 0.

Lemma insert_by_Permutation (x : A) (l : list A) : insert_by cmp x l ≡ₚ x :: l.
Proof.
  induction l as [|y l IH]; [reflexivity|]. cbn [insert_by].
  destruct (0 <? cmp x y); [|reflexivity].
  rewrite IH. apply Permutation_swap.
Qed.

Lemma sort_by_Permutation (l : list A) : sort_by cmp l ≡ₚ l.
Proof.
  induction l as [|x l IH]; [reflexivity|].
  cbn [sort_by foldr]. fold (sort_by cmp l).
  by rewrite insert_by_Permutation, IH.
Qed.

Lemma insert_by_sorted (x : A) (l : list A) :
  StronglySorted (before cmp) l -> StronglySorted (before cmp) (insert_by cmp x l).
Proof.
  induction 1 as [|y l Hl IH Hy]; cbn [insert_by].
  - repeat constructor.
  - destruct (Z.ltb_spec 0 (cmp x y)) as [Hxy|Hxy].
    + constructor; [exact IH|].
      rewrite insert_by_Permutation. constructor; [|exact Hy].
      by apply cmp_total.
    + constructor; [by constructor|].
      constructor; [exact Hxy|].
      eapply Forall_impl; [exact Hy|]. intros z Hz. by eapply cmp_trans.
Qed.

Lemma sort_by_sorted (l : list A) : StronglySorted (before cmp) (sort_by cmp l).
Proof.
  induction l as [|x l IH]; [constructor|].
  cbn [sort_by foldr]. by apply insert_by_sorted.
Qed.

End Sorting.

Lemma StronglySorted_impl_in {A} (R S : A -> A -> Prop) (l : list A) :
  (forall x y, x ∈ l -> y ∈ l -> R x y -> S x y) ->
  StronglySorted R l -> StronglySorted S l.
Proof.
  intros HRS Hl. induction Hl as [|x l Hl IH Hx]; constructor.
  - apply IH. intros y z Hy Hz. apply HRS; by right.
  - apply Forall_forall. intros y Hy. apply HRS; [by left|by right|].
    rewrite Forall_forall in Hx. by apply Hx.
Qed.

Lemma StronglySorted_distinct {A B} (f : A -> B) (R : A -> A -> Prop) (l : list A) :
  NoDup (f <$> l) -> StronglySorted R l ->
  StronglySorted (fun x y => R x y /\ f x <> f y) l.
Proof.
  intros Hnd Hl. induction Hl as [|x l Hl IH Hx]; [constructor|].
  rewrite fmap_cons in Hnd. apply NoDup_cons in Hnd as [Hx' Hnd].
  constructor; [by apply IH|].
  apply Forall_forall. intros y Hy. split.
  - rewrite Forall_forall in Hx. by apply Hx.
  - intros Heq. apply Hx'. rewrite Heq. by apply list_elem_of_fmap_2.
Qed.

(** ** The frequency analysis *)

Section Frequency.
Import Spec GeminiService App.

Lemma countDigits_concat (draws : list Draw) (acc : gmap N nat * nat) :
  fold_left (fun acc draw => fold_left tally draw acc) draws acc
  = fold_left tally (concat draws) acc.
Proof.
  revert acc. induction draws as [|d draws IH]; intros acc; [reflexivity|].
  cbn [fold_left concat]. by rewrite fold_left_app, IH.
Qed.

Lemma tally_fold (l : list N) (m : gmap N nat) (t : nat) :
  (forall u, m !! u <> Some 0%nat) ->
  (fold_left tally l (m, t)).2 = (t + length l)%nat
  /\ (forall v, default 0%nat ((fold_left tally l (m, t)).1 !! v)
                = (default 0%nat (m !! v) + count_occ N.eq_dec l v)%nat)
  /\ (forall u, (fold_left tally l (m, t)).1 !! u <> Some 0%nat).
Proof.
  revert m t. induction l as [|x l IH]; intros m t Hm.
  - cbn. split; [lia|]. split; [intros; lia|done].
  - cbn [fold_left]. unfold tally at 2. cbn [fst snd].
    destruct (IH (<[x:=(default 0%nat (m !! x) + 1)%nat]> m) (S t)) as (H1 & H2 & H3).
    { intros u. destruct (decide (x = u)) as [->|Hne].
      - rewrite lookup_insert_eq. intros [= ?]. lia.
      - by rewrite lookup_insert_ne. }
    split; [rewrite H1; cbn [length]; lia|]. split; [|exact H3].
    intros v. rewrite H2. cbn [count_occ].
    destruct (decide (x = v)) as [->|Hne].
    + rewrite lookup_insert_eq. destruct (N.eq_dec v v); [|done]. cbn. lia.
    + rewrite lookup_insert_ne by done. destruct (N.eq_dec x v); [done|]. lia.
Qed.

Lemma countDigits_spec (draws : list Draw) :
  (countDigits draws).2 = totalCount draws
  /\ (forall v c, (countDigits draws).1 !! v = Some c
               <-> c = occurrences v draws /\ (0 < c)%nat).
Proof.
  unfold countDigits. rewrite countDigits_concat.
  destruct (tally_fold (concat draws) ∅ 0) as (H1 & H2 & H3).
  { intros u. by rewrite lookup_empty. }
  split; [exact H1|].
  intros v c. specialize (H2 v). specialize (H3 v).
  rewrite lookup_empty in H2. cbn in H2. unfold occurrences.
  destruct (_ !! v) as [c'|] eqn:Hc; cbn in H2.
  - split.
    + intros [= <-]. split; [done|]. destruct c'; [done|lia].
    + intros [-> _]. by rewrite H2.
  - split; [done|]. intros [-> ?]. lia.
Qed.

Lemma entries_Permutation (m : gmap N nat) : entries m ≡ₚ map_to_list m.
Proof. apply sort_by_Permutation. Qed.

Lemma byCountThenNumber_total a b :
  0 < byCountThenNumber a b -> byCountThenNumber b a <= 0.
Proof.
  unfold byCountThenNumber.
  destruct (Z.eqb_spec (Z.of_nat (count b) - Z.of_nat (count a)) 0),
           (Z.eqb_spec (Z.of_nat (count a) - Z.of_nat (count b)) 0); lia.
Qed.

Lemma byCountThenNumber_trans a b c :
  byCountThenNumber a b <= 0 -> byCountThenNumber b c <= 0 ->
  byCountThenNumber a c <= 0.
Proof.
  unfold byCountThenNumber.
  destruct (Z.eqb_spec (Z.of_nat (count b) - Z.of_nat (count a)) 0),
           (Z.eqb_spec (Z.of_nat (count c) - Z.of_nat (count b)) 0),
           (Z.eqb_spec (Z.of_nat (count c) - Z.of_nat (count a)) 0); lia.
Qed.

Lemma before_byCountThenNumber a b :
  before byCountThenNumber a b ->
  (count b < count a)%nat
  \/ (count a = count b /\ (Types.number a <= Types.number b)%N).
Proof.
  unfold before, byCountThenNumber.
  destruct (Z.eqb_spec (Z.of_nat (count b) - Z.of_nat (count a)) 0); lia.
Qed.

(** The frequency list of a collection: one entry per value that occurs,
    with its count and share, in the order of [precedes]. *)
Lemma newFrequencyData_spec (draws : list Draw) :
  let fd := newFrequencyData draws in
  NoDup (Types.number <$> fd)
  /\ (forall v, v ∈ Types.number <$> fd <-> v ∈ concat draws)
  /\ (forall e, e ∈ fd ->
        count e = occurrences (Types.number e) draws
        /\ (0 < count e)%nat
        /\ percentage e = percentageOf (count e) (totalCount draws))
  /\ StronglySorted precedes fd.
Proof.
  unfold newFrequencyData.
  destruct (countDigits draws) as [m total] eqn:Hcd.
  destruct (countDigits_spec draws) as [Htotal Hm]. rewrite Hcd in Htotal, Hm.
  cbn [fst snd] in Htotal, Hm. subst total.
  set (mk := fun e : N * nat =>
               {| Types.number := e.1; count := e.2;
                  percentage := percentageOf e.2 (totalCount draws) |}).
  set (fd := sort_by byCountThenNumber (map mk (entries m))). cbn zeta.
  assert (Hperm : fd ≡ₚ mk <$> map_to_list m).
  { unfold fd. rewrite sort_by_Permutation. change (map mk ?l) with (mk <$> l).
    by rewrite entries_Permutation. }
  assert (Hnum : Types.number <$> fd ≡ₚ (map_to_list m).*1).
  { rewrite Hperm, <- list_fmap_compose. reflexivity. }
  assert (Hnd : NoDup (Types.number <$> fd)).
  { rewrite Hnum. apply NoDup_fst_map_to_list. }
  assert (Hin : forall e, e ∈ fd ->
            m !! Types.number e = Some (count e)
            /\ percentage e = percentageOf (count e) (totalCount draws)).
  { intros e He. rewrite Hperm in He.
    apply list_elem_of_fmap in He as ([v c] & -> & Hvc).
    apply elem_of_map_to_list in Hvc. by split. }
  split; [exact Hnd|]. split; [|split].
  - intros v. rewrite Hnum. rewrite list_elem_of_fmap. split.
    + intros ([v' c] & -> & Hvc). apply elem_of_map_to_list in Hvc.
      apply Hm in Hvc as [-> Hpos]. cbn.
      unfold occurrences in Hpos. apply list_elem_of_In.
      by apply (count_occ_In N.eq_dec).
    + intros Hv. exists (v, occurrences v draws). split; [done|].
      apply elem_of_map_to_list, Hm. split; [done|].
      unfold occurrences. apply (count_occ_In N.eq_dec). by apply list_elem_of_In.
  - intros e He. destruct (Hin e He) as [Hc Hp].
    apply Hm in Hc as [Hc Hpos]. done.
  - apply (StronglySorted_impl_in
             (fun a b => before byCountThenNumber a b
                         /\ Types.number a <> Types.number b)).
    + intros a b _ _ [Hab Hne]. apply before_byCountThenNumber in Hab.
      unfold precedes. destruct Hab as [?|[? ?]]; [by left|right]. split; [done|lia].
    + apply StronglySorted_distinct; [exact Hnd|].
      apply sort_by_sorted.
      * apply byCountThenNumber_total.
      * apply byCountThenNumber_trans.
Qed.

(** C2, as the code has it. For a collection that is not empty, the
    frequency list has one entry per value that occurs, with the number
    of its occurrences across all draws as count and the double
    [(count / totalCount) * 100] as percentage (the quotient rounded,
    then the product), and is ordered by count descending, ties by value
    ascending. *)
Theorem frequency_entries_counts_shares_and_order
    (game : LottoGame) (draws : list Draw) :
  draws <> [] ->
  let fd := (analyze game draws).1 in
  NoDup (Types.number <$> fd)
  /\ (forall v, v ∈ Types.number <$> fd <-> v ∈ concat draws)
  /\ (forall e, e ∈ fd ->
        count e = occurrences (Types.number e) draws
        /\ percentage e
           = mul (div (of_Z (Z.of_nat (count e))) (of_Z (Z.of_nat (totalCount draws))))
                 (of_Z 100))
  /\ StronglySorted precedes fd.
Proof.
  intros Hne. unfold analyze. destruct draws as [|d draws]; [done|].
  cbn [fst]. set (ds := d :: draws).
  destruct (newFrequencyData_spec ds) as (Hnd & Hin & He & Hs).
  split; [exact Hnd|]. split; [exact Hin|]. split; [|exact Hs].
  intros e Hfd. destruct (He e Hfd) as (Hc & Hpos & Hp).
  split; [exact Hc|]. rewrite Hp. unfold percentageOf.
  assert (Htot : (0 < totalCount ds)%nat).
  { assert (Hv : Types.number e ∈ concat ds).
    { apply Hin. by apply list_elem_of_fmap_2. }
    unfold totalCount. destruct (concat ds); [by apply elem_of_nil in Hv|].
    cbn. lia. }
  by destruct (Nat.ltb_spec 0 (totalCount ds)); [|lia].
Qed.

(** The example of the specification, from the theorem and by
    evaluation: in [[1,2,3],[1,2,3],[4,5,6]] the digit 1 comes first,
    with count 2 and percentage [2 / 9 * 100], then the digit 2, with
    count 2. *)
Lemma frequency_entries_witness :
  let draws := [[1; 2; 3]; [1; 2; 3]; [4; 5; 6]]%N in
  let fd := (analyze game3d draws).1 in
  draws <> []
  /\ StronglySorted precedes fd
  /\ fd !! 0%nat = Some {| Types.number := 1; count := 2;
                            percentage := mul (div (of_Z 2) (of_Z 9)) (of_Z 100) |}
  /\ fd !! 1%nat = Some {| Types.number := 2; count := 2;
                            percentage := mul (div (of_Z 2) (of_Z 9)) (of_Z 100) |}.
Proof.
  cbn zeta.
  assert (H : [[1; 2; 3]; [1; 2; 3]; [4; 5; 6]]%N <> []) by discriminate.
  split; [exact H|].
  destruct (frequency_entries_counts_shares_and_order game3d _ H) as (_ & _ & _ & Hs).
  split; [exact Hs|].
  split; vm_compute; reflexivity.
Defined.

(** C2, as worded, fails on the percentage: for the single
    draw [[1,2,3]] each digit has the share [(1 / 3) * 100], a double that
    is neither the double [100 * 1 / 3] nor the exact quotient. *)
Lemma percentage_is_not_100_times_count_over_total :
  let draws := [[1; 2; 3]]%N in
  exists e, e ∈ (analyze game3d draws).1
    /\ percentage e <> hundredTimesCountOverTotal (count e) (totalCount draws)
    /\ ¬ (exactQ (percentage e)
          == 100 * inject_Z (Z.of_nat (count e)) / inject_Z (Z.of_nat (totalCount draws)))%Q.
Proof.
  cbn zeta.
  exists {| Types.number := 1; count := 1;
            percentage := S754_finite false 4691249611844266 (-47) |}.
  split; [|split].
  - vm_compute. left.
  - vm_compute. discriminate.
  - vm_compute. discriminate.
Qed.

(** C6. The frequency list holds one entry for each value that occurs
    in the draws, with the number of its occurrences as count, sorted by
    count descending and, for equal counts, by value ascending. The
    hot-digits prediction holds the values of the first [numbersToPick]
    entries of that list, in ascending order; it is as long as the game
    asks, or as there are distinct values when they are fewer; and the
    empty collection has an empty frequency list and an empty
    prediction. *)
Theorem hot_digits_are_the_top_entries (game : LottoGame) (draws : list Draw) :
  let fd := (analyze game draws).1 in
  let hot := (analyze game draws).2 in
  NoDup (Types.number <$> fd)
  /\ (forall v, v ∈ Types.number <$> fd <-> v ∈ concat draws)
  /\ (forall e, e ∈ fd -> count e = occurrences (Types.number e) draws)
  /\ StronglySorted precedes fd
  /\ hot ≡ₚ Types.number <$> take (numbersToPick game) fd
  /\ StronglySorted N.lt hot
  /\ length hot = Nat.min (numbersToPick game) (length (remove_dups (concat draws)))
  /\ analyze game [] = ([], []).
Proof.
  cbn zeta.
  assert (Hfd : (analyze game draws).1 = newFrequencyData draws).
  { unfold analyze. by destruct draws. }
  destruct (newFrequencyData_spec draws) as (Hnd0 & Hin0 & Hcount0 & Hsorted0).
  cbn zeta in Hnd0, Hin0, Hcount0, Hsorted0.
  rewrite <- Hfd in Hnd0, Hin0, Hcount0, Hsorted0.
  split; [exact Hnd0|]. split; [exact Hin0|].
  split; [intros e He; by destruct (Hcount0 e He)|].
  split; [exact Hsorted0|].
  clear Hfd Hnd0 Hin0 Hcount0 Hsorted0.
  split; [|split; [|split]]; [| | |reflexivity].
  - unfold analyze. destruct draws; cbn [fst snd]; [by rewrite take_nil|].
    unfold topHotDigits. rewrite sort_by_Permutation. reflexivity.
  - unfold analyze. destruct draws as [|d draws]; [constructor|]. cbn [fst snd].
    set (ds := d :: draws).
    destruct (newFrequencyData_spec ds) as (Hnd & _).
    unfold topHotDigits.
    set (top := map Types.number (take (numbersToPick game) (newFrequencyData ds))).
    assert (Htop : NoDup top).
    { unfold top. change (map ?f ?l) with (f <$> l). rewrite fmap_take.
      eapply sublist_NoDup; [exact Hnd|apply sublist_take]. }
    apply (StronglySorted_impl_in
             (fun a b => before (fun a b => Z.of_N a - Z.of_N b) a b
                         /\ Datatypes.id a <> Datatypes.id b)).
    + intros a b _ _ [Hab Hne]. unfold before, Datatypes.id in *. lia.
    + apply StronglySorted_distinct.
      * rewrite list_fmap_id. by rewrite sort_by_Permutation.
      * apply sort_by_sorted; intros; lia.
  - unfold analyze. destruct draws as [|d draws]; [cbn; lia|]. cbn [fst snd].
    set (ds := d :: draws).
    destruct (newFrequencyData_spec ds) as (Hnd & Hin & _).
    unfold topHotDigits. rewrite sort_by_Permutation.
    rewrite length_map, length_take. f_equal.
    rewrite <- (length_fmap Types.number). apply Permutation_length.
    apply NoDup_Permutation; [exact Hnd|apply NoDup_remove_dups|].
    intros v. by rewrite Hin, elem_of_remove_dups.
Qed.

End Frequency.

(** ** Prediction responses and changes of the collection *)

(** C3. The code applies a stale response. On the page three draws
    are entered and a prediction is requested. While the call is in
    flight a fourth draw is entered: the collection changes, and the
    effect leaves no prediction held (it resets the prediction when the
    draws change). Then the response arrives, and the prediction made
    from the three old draws is held, and shown, beside the four draws. *)
Lemma stale_prediction_response_is_applied :
  let parse := Spec.parseOnly Spec.threeNumbersText Spec.threeNumbers in
  let key := Some (str "key") in
  let response := GeminiService.Fulfilled (Some Spec.threeNumbersText) in
  let stale := {| GeminiService.predictedNumbers := [of_Z 1; of_Z 2; of_Z 3];
                  GeminiService.analysisSummary := GeminiService.JString (str "x") |} in
  let enter (line : string) := [Page.TypeDraw (str line); Page.ClickAddDraw] in
  let p1 := Page.acts parse key [] Page.initialPage
              (enter "1,2,3"%string ++ enter "4,5,6"%string
               ++ enter "7,8,9"%string ++ [Page.ClickPredict]) in
  let p2 := Page.acts parse key [] p1 (enter "0,0,0"%string) in
  let p3 := Page.act parse key [] p2 (Page.CallSettles 0 response) in
  let st1 := App.state (Page.world p1) in
  let st2 := App.state (Page.world p2) in
  let st3 := App.state (Page.world p3) in
  App.recentDraws st1 = [[7; 8; 9]; [4; 5; 6]; [1; 2; 3]]%N
  /\ length (App.inFlight (Page.world p1)) = 1%nat
  /\ App.recentDraws st2 = [[0; 0; 0]; [7; 8; 9]; [4; 5; 6]; [1; 2; 3]]%N
  /\ App.geminiPrediction st2 = None
  /\ length (App.inFlight (Page.world p2)) = 1%nat
  /\ App.recentDraws st3 = App.recentDraws st2
  /\ App.geminiPrediction st3 = Some stale
  /\ ResultsDashboard.predictionShown key st3 = Some stale.
Proof. vm_compute. repeat split. Qed.

(* ================================================================== *)
(** * Part III: further properties of the code *)
(* ================================================================== *)

(** ** The component: invariants of its runs *)

Section Component.
Import GeminiService App Spec Notions.

Variable JSON_parse : list N -> option JSValue.
Variable API_KEY : option (list N).

Lemma selectedGame_game3d (st : AppState) : selectedGame st = game3d.
Proof.
  unfold selectedGame, LOTTO_GAMES. cbn [List.find].
  destruct (String.eqb _ _); reflexivity.
Qed.

Lemma checkDigits_valid (k : nat) (nums : list JSValue) (l : list number) :
  checkDigits k nums = inr l ->
  length l = length nums /\ Forall (fun n => isDigitValue n = true) l.
Proof.
  revert k l. induction nums as [|v nums IH]; intros k l H; cbn in H.
  - injection H as <-. split; [reflexivity | constructor].
  - destruct v; try discriminate.
    destruct (invalidDigit (JNumber n)) eqn:E; try discriminate.
    destruct (checkDigits (S k) nums) eqn:E2; try discriminate.
    injection H as <-. destruct (IH _ _ E2) as [Hl Hd].
    rewrite invalidDigit_spec in E. cbn in E.
    split; [cbn; lia | constructor; [now destruct (isDigitValue n) | exact Hd]].
Qed.

Lemma validate_game3d_valid (parsedData : JSValue) (p : GeminiPrediction) :
  validate game3d parsedData = inr p -> validPrediction p.
Proof.
  unfold validate. change (String.eqb (id game3d) "3d") with true. cbv iota.
  intros H.
  repeat match type of H with
         | context [match ?x with _ => _ end] => destruct x eqn:?; try discriminate
         end.
  injection H as <-. unfold validPrediction; cbn.
  match goal with E : checkDigits _ _ = inr _ |- _ =>
    destruct (checkDigits_valid _ _ _ E) as [Hl Hd] end.
  split; [|exact Hd].
  rewrite Hl.
  match goal with E : negb (length _ =? 3)%nat = false |- _ =>
    apply negb_false_iff, Nat.eqb_eq in E; exact E end.
Qed.

Lemma getGeminiPrediction_serviceCall (client : GoogleGenAI) (game : LottoGame)
    (draws : list Draw) :
  game = game3d ->
  exists request k,
    getGeminiPrediction JSON_parse (Some client) game draws = Await request k
    /\ serviceCall k.
Proof.
  intros ->. eexists _, _. split; [reflexivity|].
  intros response. eexists. split; [reflexivity|].
  destruct response as [message|text].
  - destruct message; discriminate.
  - destruct (readResponse JSON_parse game3d text) as [e|p] eqn:E.
    + destruct e as [| | [m|] | | | | | |]; discriminate.
    + unfold readResponse in E. destruct text; try discriminate.
      destruct (JSON_parse _); try discriminate.
      eapply validate_game3d_valid; eauto.
Qed.

Lemma frequencyEffect_derived (st : AppState) :
  let st' := frequencyEffect st in
  (frequencyData st', hotDigitsPrediction st')
  = analyze (selectedGame st') (recentDraws st').
Proof.
  unfold frequencyEffect. destruct (recentDraws st) as [|d l]; reflexivity.
Qed.

Lemma frequencyEffect_prediction (st : AppState) :
  geminiPrediction (frequencyEffect st) = None
  \/ geminiPrediction (frequencyEffect st) = geminiPrediction st.
Proof.
  unfold frequencyEffect. destruct (recentDraws st); cbn; auto.
Qed.

Lemma Consistent_onState (f : AppState -> AppState) (w : World) :
  (geminiPrediction (f (state w)) = None
   \/ geminiPrediction (f (state w)) = geminiPrediction (state w)) ->
  Consistent w ->
  Consistent {| state := frequencyEffect (f (state w)); inFlight := inFlight w |}.
Proof.
  intros Hp (_ & Hk & Hv). split; [|split]; cbn [state inFlight].
  - apply frequencyEffect_derived.
  - exact Hk.
  - destruct (frequencyEffect_prediction (f (state w))) as [-> | ->]; [exact I|].
    destruct Hp as [-> | ->]; [exact I | exact Hv].
Qed.

Lemma Consistent_dispatch (w : World) (ev : Event) :
  Consistent w -> Consistent (dispatch JSON_parse API_KEY w ev).
Proof.
  intros HC. destruct ev; cbn [dispatch];
    try (apply Consistent_onState; [cbn; auto | exact HC]).
  - (* GetGeminiPrediction *)
    destruct HC as (Hd & Hk & Hv).
    unfold handleGetGeminiPrediction. cbv zeta.
    destruct (length (recentDraws (state w)) <? 3)%nat.
    + split; [|split]; cbn; auto.
    + destruct (ai API_KEY) as [client|].
      * destruct (getGeminiPrediction_serviceCall client (selectedGame (state w))
                    (rev (recentDraws (state w))) (selectedGame_game3d _))
          as (request & k & -> & Hs).
        split; [|split]; cbn; auto.
        apply Forall_app. split; [exact Hk | constructor; [exact Hs | constructor]].
      * split; [|split]; cbn; auto.
  - (* Settle *)
    destruct HC as (Hd & Hk & Hv).
    destruct (inFlight w !! i) as [k|] eqn:E; [|split; [|split]; assumption].
    assert (Hs : serviceCall k).
    { rewrite Forall_forall in Hk. apply Hk. eapply list_elem_of_lookup_2; eauto. }
    destruct (Hs response) as (r & -> & Hr).
    split; [|split]; cbn.
    + exact Hd.
    + apply Forall_delete. exact Hk.
    + destruct r; [exact Hv | exact Hr].
Qed.

Lemma Consistent_initial : Consistent initialWorld.
Proof. split; [|split]; cbn; auto. Qed.

Lemma Consistent_run (w : World) (evs : list Event) :
  Consistent w -> Consistent (run JSON_parse API_KEY w evs).
Proof.
  revert w. induction evs as [|ev evs IH]; intros w HC; cbn; [exact HC|].
  apply IH, Consistent_dispatch, HC.
Qed.

(** X1. Whatever happens to the component, the frequency list and the
    hot digits it holds are those of the collection it holds: no
    sequence of events leaves them out of date. *)
Theorem derived_data_follow_the_collection (evs : list Event) :
  let st := state (run JSON_parse API_KEY initialWorld evs) in
  (frequencyData st, hotDigitsPrediction st)
  = analyze (selectedGame st) (recentDraws st).
Proof. exact (proj1 (Consistent_run _ evs Consistent_initial)). Qed.

(** X2. Whatever happens to the component, a prediction it holds has
    three numbers, each an integer within 0..9: a response that fails a
    check never becomes the held prediction. *)
Theorem held_prediction_is_valid (evs : list Event) (p : GeminiPrediction) :
  geminiPrediction (state (run JSON_parse API_KEY initialWorld evs)) = Some p ->
  validPrediction p.
Proof.
  intros H. pose proof (Consistent_run _ evs Consistent_initial) as (_ & _ & Hv).
  rewrite H in Hv. exact Hv.
Qed.

(** X3. Asking for a prediction and the settling of a call never touch
    the game, the collection, the frequency list or the hot digits. *)
Theorem prediction_path_keeps_the_collection (w : World) (ev : Event) :
  isChange ev = false ->
  let st := state w in
  let st' := state (dispatch JSON_parse API_KEY w ev) in
  selectedGameId st' = selectedGameId st
  /\ recentDraws st' = recentDraws st
  /\ frequencyData st' = frequencyData st
  /\ hotDigitsPrediction st' = hotDigitsPrediction st.
Proof.
  destruct ev; try discriminate; intros _; cbn [dispatch].
  - unfold handleGetGeminiPrediction. cbv zeta.
    destruct (length (recentDraws (state w)) <? 3)%nat; [cbn; auto|].
    destruct (getGeminiPrediction _ _ _ _); cbn; auto.
  - destruct (inFlight w !! i) as [k|]; [|auto].
    destruct (k response); cbn; auto.
Qed.

(** X4. A change of the game or of the collection discards the held
    prediction and the error, except an update that leaves the collection
    empty (the removal of the last draw, an upload of nothing), which
    keeps them; no change cancels a call in flight or resets the loading
    flag. *)
Theorem change_discards_prediction_and_keeps_calls (w : World) (ev : Event) :
  isChange ev = true ->
  let w' := dispatch JSON_parse API_KEY w ev in
  let kept :=
    match ev, recentDraws (state w') with
    | (AddMultipleDraws _ | RemoveDraw _), [] => true
    | _, _ => false
    end in
  geminiPrediction (state w')
  = (if kept then geminiPrediction (state w) else None)
  /\ aiError (state w') = (if kept then aiError (state w) else None)
  /\ isLoadingAiPrediction (state w') = isLoadingAiPrediction (state w)
  /\ inFlight w' = inFlight w.
Proof.
  destruct ev; try discriminate; intros _; cbn [dispatch state inFlight];
    unfold frequencyEffect.
  - cbn. auto.
  - cbn. auto.
  - cbn [handleAddMultipleDraws setRecentDraws recentDraws].
    destruct (addMultipleDraws draws (recentDraws (state w))); cbn; auto.
  - cbn [handleRemoveDraw setRecentDraws recentDraws].
    destruct (removeDraw indexToRemove (recentDraws (state w))); cbn; auto.
  - cbn. auto.
Qed.

End Component.

(** A run that ends with a prediction held: three draws, a request, the
    response. *)
Lemma held_prediction_is_valid_witness :
  Notions.validPrediction
    {| GeminiService.predictedNumbers := [of_Z 1; of_Z 2; of_Z 3];
       GeminiService.analysisSummary := GeminiService.JString (str "x") |}.
Proof.
  apply (held_prediction_is_valid
           (Spec.parseOnly Spec.threeNumbersText Spec.threeNumbers)
           (Some (str "key"))
           [App.AddMultipleDraws [[1; 2; 3]; [4; 5; 6]; [7; 8; 9]]%N;
            App.GetGeminiPrediction;
            App.Settle 0 (GeminiService.Fulfilled (Some Spec.threeNumbersText))]).
  vm_compute. reflexivity.
Defined.

(** A request with one draw entered. *)
Lemma prediction_path_keeps_the_collection_witness :
  let w := App.dispatch (fun _ => None) None App.initialWorld
             (App.AddDraw [1; 2; 3]%N) in
  let st := App.state w in
  let st' := App.state (App.dispatch (fun _ => None) None w App.GetGeminiPrediction) in
  App.selectedGameId st' = App.selectedGameId st
  /\ App.recentDraws st' = App.recentDraws st
  /\ App.frequencyData st' = App.frequencyData st
  /\ App.hotDigitsPrediction st' = App.hotDigitsPrediction st.
Proof.
  apply (prediction_path_keeps_the_collection (fun _ => None) None).
  reflexivity.
Defined.

(** A draw added after a request on the empty collection, which had set
    the handler's message. *)
Lemma change_discards_prediction_witness :
  let w := App.dispatch (fun _ => None) None App.initialWorld
             App.GetGeminiPrediction in
  let w' := App.dispatch (fun _ => None) None w (App.AddDraw [1; 2; 3]%N) in
  App.geminiPrediction (App.state w') = None
  /\ App.aiError (App.state w') = None
  /\ App.isLoadingAiPrediction (App.state w') = App.isLoadingAiPrediction (App.state w)
  /\ App.inFlight w' = App.inFlight w.
Proof.
  apply (change_discards_prediction_and_keeps_calls (fun _ => None) None
           (App.dispatch (fun _ => None) None App.initialWorld App.GetGeminiPrediction)
           (App.AddDraw [1; 2; 3]%N)).
  reflexivity.
Defined.

(** ** The page: what the form and the dashboard let through *)

Section PageProps.
Import GeminiService App Spec Notions ResultsDashboard Page.

Variable JSON_parse : list N -> option JSValue.
Variable API_KEY : option (list N).
Variable sampleCsvData : list N.

Lemma toDraw_valid (input : list N) (numbers : DrawResult) :
  LottoForm.validateAndParseDraw input game3d = inr numbers ->
  validDraw (LottoForm.toDraw numbers).
Proof.
  intros H. apply parsed_numbers_are_digits in H as [Hl Hd].
  split.
  - unfold LottoForm.toDraw. rewrite length_map. exact Hl.
  - unfold LottoForm.toDraw. apply Forall_fmap.
    eapply Forall_impl; [exact Hd|].
    intros n (z & Hn & Hz). unfold compose. rewrite Hn. cbn. lia.
Qed.

Lemma successes_valid (lines : list (list N)) :
  Forall validDraw (map LottoForm.toDraw (successes game3d lines)).
Proof.
  induction lines as [|line lines IH]; [constructor|].
  unfold successes in *. cbn [omap list_omap].
  destruct (LottoForm.validateAndParseDraw line game3d) as [e|d] eqn:E; [exact IH|].
  cbn. constructor; [eapply toDraw_valid; eauto | exact IH].
Qed.

Lemma frequencyEffect_fields (st : AppState) :
  let st' := frequencyEffect st in
  recentDraws st' = recentDraws st
  /\ isLoadingAiPrediction st' = isLoadingAiPrediction st
  /\ (aiError st' = None \/ aiError st' = aiError st).
Proof. unfold frequencyEffect. destruct (recentDraws st); cbn; auto. Qed.

Lemma liveMessage_None : liveMessage None.
Proof. split; discriminate. Qed.

Lemma Sound_onState (f : AppState -> AppState) (w : World) :
  Sound w ->
  Forall validDraw (recentDraws (f (state w))) ->
  isLoadingAiPrediction (f (state w)) = isLoadingAiPrediction (state w) ->
  (aiError (f (state w)) = None \/ aiError (f (state w)) = aiError (state w)) ->
  Sound {| state := frequencyEffect (f (state w)); inFlight := inFlight w |}.
Proof.
  intros (Hk & Hd & Hn & He) Hd' Hl' He'.
  destruct (frequencyEffect_fields (f (state w))) as (E1 & E2 & E3).
  split; [|split; [|split]]; cbn [state inFlight].
  - exact Hk.
  - rewrite E1. exact Hd'.
  - rewrite E2, Hl'. exact Hn.
  - destruct E3 as [-> | ->]; [apply liveMessage_None|].
    destruct He' as [-> | ->]; [apply liveMessage_None | exact He].
Qed.

Lemma Sound_update (f : list Draw -> list Draw) (w : World) :
  Sound w ->
  Forall validDraw (f (recentDraws (state w))) ->
  Sound {| state := frequencyEffect (setRecentDraws f (state w)); inFlight := inFlight w |}.
Proof. intros HS Hd. apply Sound_onState; cbn; auto. Qed.

Lemma Sound_request (w : World) :
  Sound w ->
  buttonEnabled API_KEY (state w) = true ->
  Sound (handleGetGeminiPrediction JSON_parse API_KEY w).
Proof.
  intros (Hk & Hd & Hn & He) Hb.
  unfold buttonEnabled in Hb.
  apply andb_true_iff in Hb as [Hb Hb3].
  apply andb_true_iff in Hb as [_ Hkey].
  apply negb_true_iff, orb_false_iff in Hb3 as [Hload Hthree].
  unfold handleGetGeminiPrediction. cbv zeta. rewrite Hthree.
  rewrite Hload in Hn. destruct (inFlight w) as [|? ?] eqn:Ein; [|discriminate].
  destruct API_KEY as [[|c key]|]; try discriminate. cbn [ai].
  destruct (getGeminiPrediction_serviceCall JSON_parse {| apiKey := c :: key |}
              (selectedGame (state w)) (rev (recentDraws (state w)))
              (selectedGame_game3d _)) as (request & k & -> & Hs).
  split; [|split; [|split]]; cbn.
  - constructor; [exact Hs | constructor].
  - exact Hd.
  - reflexivity.
  - apply liveMessage_None.
Qed.

Lemma Sound_settle (w : World) (i : nat) (response : Response) :
  Sound w -> Sound (dispatch JSON_parse API_KEY w (Settle i response)).
Proof.
  intros HS. pose proof HS as (Hk & Hd & Hn & He). cbn [dispatch].
  destruct (inFlight w !! i) as [k|] eqn:E; [|exact HS].
  assert (Hs : serviceCall k).
  { rewrite Forall_forall in Hk. apply Hk. eapply list_elem_of_lookup_2; eauto. }
  destruct (Hs response) as (r & -> & Hr).
  assert (Hdel : delete i (inFlight w) = []).
  { apply lookup_lt_Some in E.
    destruct (isLoadingAiPrediction (state w)); [|lia].
    destruct (inFlight w) as [|k0 [|k1 l]]; try discriminate.
    destruct i; [reflexivity | cbn in E; lia]. }
  split; [|split; [|split]]; cbn.
  - rewrite Hdel. constructor.
  - exact Hd.
  - rewrite Hdel. reflexivity.
  - destruct r as [e|p]; [|exact He].
    split; [discriminate | congruence].
Qed.

Lemma Sound_initial : Sound initialWorld.
Proof.
  split; [|split; [|split]]; cbn; auto using liveMessage_None.
Qed.

Lemma Sound_act (p : PageState) (a : Action) :
  Sound (world p) -> Sound (world (act JSON_parse API_KEY sampleCsvData p a)).
Proof.
  intros HS. pose proof HS as (Hk & Hd & Hn & He).
  destruct a; cbn [act].
  - (* SelectGame *)
    destruct (existsb _ _); [|exact HS].
    apply (Sound_onState (handleGameChange gameId)); cbn; auto.
  - exact HS.
  - (* ClickAddDraw *)
    unfold clickAddDraw. cbv zeta. rewrite selectedGame_game3d.
    destruct (LottoForm.handleAddDraw _ _) as [e|d] eqn:E; [exact HS|].
    apply (Sound_update (addDraw d)); [exact HS|].
    unfold LottoForm.handleAddDraw in E.
    destruct (LottoForm.validateAndParseDraw _ _) as [|numbers] eqn:E2; try discriminate.
    injection E as <-.
    constructor; [eapply toDraw_valid; eauto | exact Hd].
  - (* ChooseFile *)
    exact HS.
  - (* ReaderSettles *)
    unfold readerSettles. cbv zeta. rewrite selectedGame_game3d.
    destruct result as [text|]; [|exact HS].
    destruct (LottoForm.handleFileUpload text game3d) as [| | | |draws] eqn:E;
      try exact HS.
    apply (Sound_update (addMultipleDraws draws)); [exact HS|].
    unfold addMultipleDraws, addMultipleDrawsUpdater. cbn.
    apply Forall_app. split; [|exact Hd].
    apply Forall_rev.
    unfold LottoForm.handleFileUpload in E. destruct text; try discriminate.
    rewrite processCsvText_spec in E.
    repeat match type of E with
           | (if ?b then _ else _) = _ => destruct b; try discriminate
           end.
    injection E as <-. apply successes_valid.
  - (* ClickLoadSample *)
    unfold clickLoadSample. cbv zeta. rewrite selectedGame_game3d.
    destruct sampleCsvData as [|c s]; [exact HS|].
    rewrite processCsvText_spec.
    destruct (0 <? _)%nat; [exact HS|].
    destruct (_ =? 0)%nat; [exact HS|].
    apply (Sound_update (addMultipleDraws _)); [exact HS|].
    unfold addMultipleDraws, addMultipleDrawsUpdater. cbn.
    apply Forall_app. split; [|exact Hd].
    apply Forall_rev. apply successes_valid.
  - (* ClickRemove *)
    destruct (index <? _)%nat eqn:E; [|exact HS].
    apply (Sound_update (removeDraw (Z.of_nat index))); [exact HS|].
    apply Nat.ltb_lt in E.
    rewrite removeDraw_in_range by lia.
    apply Forall_app. split; [apply Forall_take | apply Forall_drop]; exact Hd.
  - (* ClickClearAll *)
    destruct (0 <? _)%nat; [|exact HS].
    apply (Sound_onState handleClearDraws); cbn; auto.
  - (* ClickPredict *)
    destruct (buttonEnabled API_KEY (state (world p))) eqn:E; [|exact HS].
    apply Sound_request; assumption.
  - (* CallSettles *)
    apply Sound_settle. exact HS.
Qed.

Lemma Sound_acts (p : PageState) (l : list Action) :
  Sound (world p) -> Sound (world (acts JSON_parse API_KEY sampleCsvData p l)).
Proof.
  revert p. induction l as [|a l IH]; intros p HS; cbn; [exact HS|].
  apply IH, Sound_act, HS.
Qed.

(** X5. Whatever is typed, uploaded, loaded or clicked on the page,
    every draw of the collection has three values, none above 9. *)
Theorem collection_holds_valid_draws (l : list Action) :
  Forall validDraw
    (recentDraws (state (world (acts JSON_parse API_KEY sampleCsvData initialPage l)))).
Proof. exact (proj1 (proj2 (Sound_acts initialPage l Sound_initial))). Qed.

(** X6. On the page at most one call is in flight, and one is exactly
    while the loading flag is set: the button takes no click while it is. *)
Theorem one_call_at_a_time (l : list Action) :
  let w := world (acts JSON_parse API_KEY sampleCsvData initialPage l) in
  length (inFlight w) = (if isLoadingAiPrediction (state w) then 1 else 0)%nat.
Proof. exact (proj1 (proj2 (proj2 (Sound_acts initialPage l Sound_initial)))). Qed.

(** X7. On the page two messages are never set: the handler's request
    for at least three draws, and the service's message for a missing
    client. The button that leads to them is rendered with a key only
    and enabled from three draws on. *)
Theorem guard_messages_are_never_shown (l : list Action) :
  let st := state (world (acts JSON_parse API_KEY sampleCsvData initialPage l)) in
  aiError st <> Some NeedThreeDraws
  /\ aiError st <> Some (ServiceMessage ClientNotInitialized).
Proof. exact (proj2 (proj2 (proj2 (Sound_acts initialPage l Sound_initial)))). Qed.

End PageProps.

(** ** The page without a key *)

Section PageIdle.
Import GeminiService App Spec Notions ResultsDashboard Page.

Variable JSON_parse : list N -> option JSValue.
Variable API_KEY : option (list N).
Variable sampleCsvData : list N.

Lemma Idle_onState (f : AppState -> AppState) (w : World) :
  Idle w ->
  (geminiPrediction (f (state w)) = None) ->
  (aiError (f (state w)) = None) ->
  isLoadingAiPrediction (f (state w)) = false ->
  Idle {| state := frequencyEffect (f (state w)); inFlight := inFlight w |}.
Proof.
  intros (Hk & Hp & He & Hl) Hp' He' Hl'.
  unfold Idle, frequencyEffect. destruct (recentDraws (f (state w))); cbn; auto.
Qed.

Lemma Idle_act (p : PageState) (a : Action) :
  API_KEY_AVAILABLE API_KEY = false ->
  Idle (world p) -> Idle (world (act JSON_parse API_KEY sampleCsvData p a)).
Proof.
  intros Hkey HI. pose proof HI as (Hk & Hp & He & Hl).
  destruct a; cbn [act].
  - destruct (existsb _ _); [|exact HI].
    apply (Idle_onState (handleGameChange gameId)); cbn; auto.
  - exact HI.
  - unfold clickAddDraw. cbv zeta.
    destruct (LottoForm.handleAddDraw _ _) as [e|d]; [exact HI|].
    apply (Idle_onState (handleAddDraw d)); cbn; auto.
  - exact HI.
  - unfold readerSettles. cbv zeta.
    destruct result as [text|]; [|exact HI].
    destruct (LottoForm.handleFileUpload _ _) as [| | | |draws]; try exact HI.
    apply (Idle_onState (handleAddMultipleDraws draws)); cbn; auto.
  - unfold clickLoadSample. cbv zeta.
    destruct sampleCsvData as [|c s]; [exact HI|].
    destruct (LottoForm.processCsvText _ _) as [parsedDraws errors].
    destruct (0 <? _)%nat; [exact HI|].
    destruct (_ =? 0)%nat; [exact HI|].
    apply (Idle_onState (handleAddMultipleDraws _)); cbn; auto.
  - destruct (index <? _)%nat; [|exact HI].
    apply (Idle_onState (handleRemoveDraw _)); cbn; auto.
  - destruct (0 <? _)%nat; [|exact HI].
    apply (Idle_onState handleClearDraws); cbn; auto.
  - unfold buttonEnabled. rewrite Hkey, andb_false_r. exact HI.
  - cbn [onlyWorld world onWorld dispatch]. rewrite Hk. exact HI.
Qed.

(** X8. Without a key the page never calls the service: no action
    sequence starts a call, sets the loading flag, or leaves a prediction
    or an AI error. *)
Theorem no_key_no_call (l : list Action) :
  API_KEY_AVAILABLE API_KEY = false ->
  let w := world (acts JSON_parse API_KEY sampleCsvData initialPage l) in
  inFlight w = []
  /\ geminiPrediction (state w) = None
  /\ aiError (state w) = None
  /\ isLoadingAiPrediction (state w) = false.
Proof.
  intros Hkey. cbv zeta.
  assert (H : forall p, Idle (world p) ->
                Idle (world (acts JSON_parse API_KEY sampleCsvData p l))).
  { induction l as [|a l' IH]; intros p HI; cbn; [exact HI|].
    apply IH, Idle_act; assumption. }
  apply (H initialPage). repeat split.
Qed.

End PageIdle.

(** The sample data loaded and the button clicked, without a key. *)
Lemma no_key_no_call_witness :
  let w := Page.world
             (Page.acts (fun _ => None) None (str "1,2,3") Page.initialPage
                [Page.ClickLoadSample; Page.ClickPredict]) in
  App.inFlight w = []
  /\ App.geminiPrediction (App.state w) = None
  /\ App.aiError (App.state w) = None
  /\ App.isLoadingAiPrediction (App.state w) = false.
Proof.
  apply (no_key_no_call (fun _ => None) None (str "1,2,3")
           [Page.ClickLoadSample; Page.ClickPredict]).
  reflexivity.
Defined.

(** ** The frequency analysis *)

Section FrequencyMore.
Import App Spec Notions.

Lemma analyze_newFrequencyData (game : LottoGame) (draws : list Draw) :
  analyze game draws
  = (newFrequencyData draws, topHotDigits game (newFrequencyData draws)).
Proof.
  destruct draws as [|d l]; [|reflexivity].
  assert (newFrequencyData [] = []) as -> by reflexivity.
  unfold analyze, topHotDigits. rewrite take_nil. reflexivity.
Qed.

Lemma countDigits_Permutation (d1 d2 : list Draw) :
  concat d1 ≡ₚ concat d2 -> countDigits d1 = countDigits d2.
Proof.
  intros HP.
  destruct (countDigits_spec d1) as [Ht1 Hc1].
  destruct (countDigits_spec d2) as [Ht2 Hc2].
  destruct (countDigits d1) as [m1 t1], (countDigits d2) as [m2 t2].
  cbn [fst snd] in *. f_equal.
  - apply map_eq. intros v.
    assert (Ho : occurrences v d1 = occurrences v d2).
    { unfold occurrences. apply Permutation_count_occ. exact HP. }
    destruct (m1 !! v) as [c1|] eqn:E1, (m2 !! v) as [c2|] eqn:E2.
    + apply Hc1 in E1 as [-> _]. apply Hc2 in E2 as [-> _]. now rewrite Ho.
    + apply Hc1 in E1 as [-> Hpos]. rewrite Ho in Hpos.
      assert (m2 !! v = Some (occurrences v d2)) as E by (apply Hc2; auto).
      congruence.
    + apply Hc2 in E2 as [-> Hpos]. rewrite <- Ho in Hpos.
      assert (m1 !! v = Some (occurrences v d1)) as E by (apply Hc1; auto).
      congruence.
    + reflexivity.
  - rewrite Ht1, Ht2. unfold totalCount. apply Permutation_length. exact HP.
Qed.

(** X9. The analysis depends on the digits entered only, not on the
    order of the draws or of the digits in a draw: two collections with
    the same digits give the same frequency list and the same hot digits. *)
Theorem analysis_ignores_order (game : LottoGame) (d1 d2 : list Draw) :
  concat d1 ≡ₚ concat d2 -> analyze game d1 = analyze game d2.
Proof.
  intros HP. rewrite !analyze_newFrequencyData.
  unfold newFrequencyData. rewrite (countDigits_Permutation d1 d2 HP). reflexivity.
Qed.

Lemma sumCounts_Permutation (l1 l2 : list FrequencyData) :
  l1 ≡ₚ l2 -> sumCounts l1 = sumCounts l2.
Proof.
  induction 1; cbn; try lia.
  unfold sumCounts in *. cbn. lia.
Qed.

Lemma sumValues_Permutation (l1 l2 : list (N * nat)) :
  l1 ≡ₚ l2 -> sumValues l1 = sumValues l2.
Proof.
  induction 1; cbn; try lia.
  unfold sumValues in *. cbn. lia.
Qed.

Lemma sumValues_tally (m : gmap N nat) (v : N) :
  sumValues (map_to_list (<[v := (default 0 (m !! v) + 1)%nat]> m))
  = S (sumValues (map_to_list m)).
Proof.
  destruct (m !! v) as [c|] eqn:E; cbn [default from_option].
  - rewrite <- insert_delete_eq.
    rewrite (sumValues_Permutation _ _
               (map_to_list_insert (delete v m) v (c + 1)%nat (lookup_delete_eq m v))).
    rewrite <- (sumValues_Permutation _ _ (map_to_list_delete m v c E)).
    change (sumValues ((v, (c + 1)%nat) :: ?l)) with ((c + 1) + sumValues l)%nat.
    change (sumValues ((v, c) :: ?l)) with (c + sumValues l)%nat.
    lia.
  - rewrite (sumValues_Permutation _ _ (map_to_list_insert m v 1%nat E)).
    change (sumValues ((v, 1%nat) :: ?l)) with (1 + sumValues l)%nat.
    lia.
Qed.

Lemma sumValues_fold_tally (digits : list N) (acc : gmap N nat * nat) :
  sumValues (map_to_list (fold_left tally digits acc).1)
  = (sumValues (map_to_list acc.1) + length digits)%nat.
Proof.
  revert acc. induction digits as [|v digits IH]; intros acc; cbn [fold_left length].
  - lia.
  - rewrite IH. unfold tally. cbn [fst]. rewrite sumValues_tally. lia.
Qed.

Lemma sumValues_countDigits (draws : list Draw) :
  sumValues (map_to_list (countDigits draws).1) = totalCount draws.
Proof.
  unfold countDigits, totalCount.
  assert (H : forall acc,
    sumValues (map_to_list
      (fold_left (fun acc draw => fold_left tally draw acc) draws acc).1)
    = (sumValues (map_to_list acc.1) + length (concat draws))%nat).
  { induction draws as [|d draws IH]; intros acc; cbn [fold_left concat].
    - cbn. lia.
    - rewrite IH, sumValues_fold_tally, length_app. lia. }
  rewrite H. cbn. rewrite map_to_list_empty. reflexivity.
Qed.

Lemma sumCounts_map (t : nat) (l : list (N * nat)) :
  sumCounts (map (fun e => {| Types.number := e.1; count := e.2;
                              percentage := percentageOf e.2 t |}) l)
  = sumValues l.
Proof. induction l as [|e l IH]; cbn; [reflexivity|]. unfold sumCounts, sumValues in *. cbn. now rewrite IH. Qed.

Lemma sumCounts_newFrequencyData (draws : list Draw) :
  sumCounts (newFrequencyData draws) = totalCount draws.
Proof.
  unfold newFrequencyData.
  pose proof (sumValues_countDigits draws) as H.
  destruct (countDigits draws) as [m t]. cbn [fst] in H.
  rewrite (sumCounts_Permutation _ _ (sort_by_Permutation _ _)).
  rewrite sumCounts_map.
  rewrite (sumValues_Permutation _ _ (entries_Permutation m)).
  exact H.
Qed.

(** X10. The counts of the frequency list add up to the number of
    digits entered, so no count exceeds it. *)
Theorem counts_add_up_to_the_total (draws : list Draw) :
  sumCounts (newFrequencyData draws) = totalCount draws
  /\ Forall (fun e => (count e <= totalCount draws)%nat) (newFrequencyData draws).
Proof.
  pose proof (sumCounts_newFrequencyData draws) as H.
  split; [exact H|].
  rewrite <- H. generalize (newFrequencyData draws). intros l.
  induction l as [|e l IH]; [constructor|].
  unfold sumCounts in *. cbn. constructor; [lia|].
  eapply Forall_impl; [exact IH|]. cbn. intros; lia.
Qed.

Lemma hot_digit_entry (game : LottoGame) (draws : list Draw) (h : N) :
  h ∈ (analyze game draws).2 ->
  exists e, e ∈ take (numbersToPick game) (newFrequencyData draws)
            /\ Types.number e = h.
Proof.
  rewrite analyze_newFrequencyData. cbn [snd]. unfold topHotDigits.
  rewrite sort_by_Permutation. intros H.
  apply list_elem_of_fmap in H as (e & -> & He). eauto.
Qed.

(** X11. The hot digits are the most frequent ones: each hot digit was
    entered, and at least as often as any entered digit that is not hot. *)
Theorem hot_digits_are_most_frequent
    (game : LottoGame) (draws : list Draw) (h v : N) :
  h ∈ (analyze game draws).2 ->
  v ∈ concat draws ->
  v ∉ (analyze game draws).2 ->
  h ∈ concat draws
  /\ (occurrences v draws <= occurrences h draws)%nat.
Proof.
  intros Hh Hv Hnot.
  destruct (newFrequencyData_spec draws) as (Hnd & Hin & Hcount & Hsorted).
  cbv zeta in *.
  apply hot_digit_entry in Hh as (e1 & He1 & <-).
  assert (He1' : e1 ∈ newFrequencyData draws).
  { rewrite <- (take_drop (numbersToPick game) (newFrequencyData draws)).
    apply elem_of_app. left. exact He1. }
  split.
  { apply Hin. apply list_elem_of_fmap. eauto. }
  apply Hin in Hv. apply list_elem_of_fmap in Hv as (e2 & -> & He2).
  assert (He2' : e2 ∈ drop (numbersToPick game) (newFrequencyData draws)).
  { rewrite <- (take_drop (numbersToPick game) (newFrequencyData draws)) in He2.
    apply elem_of_app in He2 as [He2|He2]; [|exact He2].
    exfalso. apply Hnot. rewrite analyze_newFrequencyData. cbn [snd].
    unfold topHotDigits. rewrite sort_by_Permutation.
    apply list_elem_of_fmap. eauto. }
  rewrite <- (take_drop (numbersToPick game) (newFrequencyData draws)) in Hsorted.
  pose proof (StronglySorted_app_1_elem_of _ _ _ _ _ Hsorted He1 He2') as Hp.
  destruct (Hcount e1 He1') as (<- & _). 
  assert (He2'' : e2 ∈ newFrequencyData draws).
  { rewrite <- (take_drop (numbersToPick game) (newFrequencyData draws)).
    apply elem_of_app. right. exact He2'. }
  destruct (Hcount e2 He2'') as (<- & _).
  destruct Hp as [Hp | [Hp _]]; lia.
Qed.

End FrequencyMore.

(** Two draws in either order. *)
Lemma analysis_ignores_order_witness :
  App.analyze game3d [[1; 2; 3]; [6; 5; 4]]%N
  = App.analyze game3d [[6; 5; 4]; [1; 2; 3]]%N.
Proof.
  apply (analysis_ignores_order game3d).
  exact (Permutation_app_comm [1; 2; 3]%N [6; 5; 4]%N).
Defined.

(** Digit 2, which is hot, against digit 3, which is not. *)
Lemma hot_digits_are_most_frequent_witness :
  let draws := [[1; 1; 2]; [1; 2; 3]; [4; 4; 4]]%N in
  2%N ∈ concat draws
  /\ (Spec.occurrences 3 draws <= Spec.occurrences 2 draws)%nat.
Proof.
  cbv zeta.
  apply (hot_digits_are_most_frequent game3d [[1; 1; 2]; [1; 2; 3]; [4; 4; 4]]%N).
  - change (2%N ∈ [1; 2; 4]%N). repeat rewrite elem_of_cons. auto.
  - cbn. repeat rewrite elem_of_cons. auto 10.
  - change (3%N ∉ [1; 2; 4]%N). repeat rewrite elem_of_cons.
    rewrite elem_of_nil. intros [H|[H|[H|H]]]; try discriminate H; exact H.
Defined.

(** ** The parser: separators and signs *)

Section ParserMore.
Import LottoForm Spec Notions.

Lemma Tokens_app (a b : list N) (c : N) (ta tb : list (list N)) :
  separator c = true ->
  Tokens a ta -> Tokens b tb -> Tokens (a ++ c :: b) (ta ++ tb).
Proof.
  intros Hc Ha Hb. induction Ha as [|c0 s ts Hc0 Hs IH|t s ts Ht Hf Hnext Hs IH].
  - cbn. apply Tokens_separator; assumption.
  - cbn. apply Tokens_separator; assumption.
  - rewrite <- app_assoc. cbn [app].
    apply (Tokens_token t); try assumption.
    right. destruct Hnext as [-> | (c1 & s1 & -> & Hc1)]; cbn; eauto.
Qed.

Lemma tokens_app (a b : list N) (c : N) :
  separator c = true -> tokens (a ++ c :: b) = tokens a ++ tokens b.
Proof.
  intros Hc. symmetry. apply Tokens_unique.
  apply Tokens_app; [exact Hc | apply tokens_Tokens | apply tokens_Tokens].
Qed.

Lemma validateAndParseDraw_tokens (i1 i2 : list N) (game : LottoGame) :
  tokens i1 = tokens i2 ->
  byKind (validateAndParseDraw i1 game) = byKind (validateAndParseDraw i2 game).
Proof.
  intros H. unfold validateAndParseDraw. cbv zeta. rewrite H.
  repeat match goal with
         | |- context [if ?b then _ else _] => destruct b
         end; reflexivity.
Qed.

(** X12. A separator only separates: the tokens of a line are those
    before a separator followed by those after it. So which separator is
    used, and how many in a row, does not change what a line parses to
    (the failure's kind, or the draw). *)
Theorem separators_only_separate (a b : list N) (c c' : N) (game : LottoGame) :
  separator c = true -> separator c' = true ->
  tokens (a ++ c :: b) = tokens a ++ tokens b
  /\ byKind (validateAndParseDraw (a ++ c' :: b) game)
     = byKind (validateAndParseDraw (a ++ c :: b) game)
  /\ byKind (validateAndParseDraw (a ++ c :: c' :: b) game)
     = byKind (validateAndParseDraw (a ++ c :: b) game).
Proof.
  intros Hc Hc'. split; [apply tokens_app; exact Hc|]. split.
  - apply validateAndParseDraw_tokens. rewrite !tokens_app by assumption. reflexivity.
  - apply validateAndParseDraw_tokens. rewrite !tokens_app by assumption.
    rewrite tokens_separator by assumption. reflexivity.
Qed.

Lemma Tokens_plain (s : list N) (ts : list (list N)) :
  Tokens s ts ->
  Forall (fun t => t <> [] /\ Forall (fun c => separator c = false) t) ts.
Proof. induction 1; auto. Qed.

Lemma binary_round_aux_notNegative (m e : Z) (l : location) :
  notNegative (binary_round_aux prec emax false m e l).
Proof.
  unfold binary_round_aux.
  destruct (shr_fexp prec emax m e l) as [mrs' e'].
  destruct (shr_fexp prec emax _ e' loc_Exact) as [mrs'' e''].
  destruct (shr_m mrs''); cbn; auto.
  destruct (_ <=? _); cbn; auto.
Qed.

Lemma of_Z_notNegative (z : Z) : 0 <= z -> notNegative (of_Z z).
Proof.
  intros Hz. unfold of_Z, binary_normalize. destruct z; try lia; cbn; auto.
  unfold binary_round. destruct (shl_align _ _ _).
  apply binary_round_aux_notNegative.
Qed.

Lemma digitValue_nonneg (c : N) (d : Z) : digitValue c = Some d -> 0 <= d.
Proof.
  unfold digitValue, isDigit.
  destruct ((48 <=? c) && (c <=? 57))%N eqn:E1.
  { intros [= <-]. apply andb_true_iff in E1 as [E _]. apply N.leb_le in E. lia. }
  destruct ((97 <=? c) && (c <=? 102))%N eqn:E2.
  { intros [= <-]. apply andb_true_iff in E2 as [E _]. apply N.leb_le in E. lia. }
  destruct ((65 <=? c) && (c <=? 70))%N eqn:E3; [|discriminate].
  intros [= <-]. apply andb_true_iff in E3 as [E _]. apply N.leb_le in E. lia.
Qed.

Lemma digitsValue_nonneg (radix acc : Z) (ds : list N) (z : Z) :
  0 <= radix -> 0 <= acc -> digitsValue radix acc ds = Some z -> 0 <= z.
Proof.
  intros Hr. revert acc. induction ds as [|c ds IH]; intros acc Ha; cbn.
  - intros [= <-]. exact Ha.
  - destruct (digitValue c) as [d|] eqn:E; [|discriminate].
    destruct (d <? radix); [|discriminate].
    apply IH. apply digitValue_nonneg in E. nia.
Qed.

Lemma nonDecimalLiteral_notNegative (radix : Z) (ds : list N) :
  0 <= radix -> notNegative (nonDecimalLiteral radix ds).
Proof.
  intros Hr. unfold nonDecimalLiteral, digitsLiteral.
  destruct ds as [|c ds]; [exact I|].
  destruct (digitsValue radix 0 (c :: ds)) as [z|] eqn:E; [|exact I].
  apply of_Z_notNegative.
  apply (digitsValue_nonneg radix 0 (c :: ds) z); [exact Hr | lia | exact E].
Qed.

Lemma decimalToDouble_notNegative (d k : Z) : notNegative (decimalToDouble false d k).
Proof.
  unfold decimalToDouble. destruct d as [|p|p]; try exact I.
  destruct (0 <=? k) eqn:E.
  - apply Z.leb_le in E. apply (of_Z_notNegative (Z.pos p * 10 ^ k)).
    apply Z.mul_nonneg_nonneg; [lia | apply Z.pow_nonneg; lia].
  - unfold div, SFdiv. destruct (SFdiv_core_binary _ _ _ _ _ _) as [[mz ez] lz].
    apply binary_round_aux_notNegative.
Qed.

Lemma strUnsignedDecimalLiteral_notNegative (s : list N) :
  notNegative (strUnsignedDecimalLiteral false s).
Proof.
  unfold strUnsignedDecimalLiteral.
  destruct (decide _); [reflexivity|]. cbv zeta.
  destruct (match dropWhile isDigit s with
            | 46%N :: r => (takeWhile isDigit r, dropWhile isDigit r)
            | _ => ([], dropWhile isDigit s)
            end) as [fp r2].
  destruct (takeWhile isDigit s ++ fp); [exact I|].
  destruct (digitsValue _ _ _); [|exact I].
  destruct (exponentPart r2); [|exact I].
  apply decimalToDouble_notNegative.
Qed.

Lemma strDecimalLiteral_notNegative (s : list N) :
  (forall r, s <> 45%N :: r) -> notNegative (strDecimalLiteral s).
Proof.
  intros H. unfold strDecimalLiteral.
  repeat match goal with
         | |- notNegative (strUnsignedDecimalLiteral false _) =>
             apply strUnsignedDecimalLiteral_notNegative
         | |- notNegative (strUnsignedDecimalLiteral true _) =>
             exfalso; eapply H; reflexivity
         | |- context [match ?x with _ => _ end] => destruct x
         end.
Qed.

Lemma Number_notNegative (s : list N) :
  s <> [] -> Forall (fun c => separator c = false) s -> notNegative (Number s).
Proof.
  intros Hne Hs. unfold Number. rewrite (trim_plain s Hs).
  assert (H : forall r, s <> 45%N :: r).
  { intros r ->. inversion Hs as [|? ? Hc]. discriminate Hc. }
  assert (Hd : notNegative (strDecimalLiteral s))
    by (apply strDecimalLiteral_notNegative; exact H).
  repeat match goal with
         | |- notNegative (strDecimalLiteral _) => exact Hd
         | |- notNegative (nonDecimalLiteral _ _) =>
             apply nonDecimalLiteral_notNegative; lia
         | |- notNegative (S754_zero _) => exact I
         | |- context [match ?x with _ => _ end] => destruct x
         end.
Qed.

Lemma notNegative_lt_0 (n : number) : notNegative n -> lt n (of_Z 0) = false.
Proof.
  rewrite of_Z_0. unfold lt.
  destruct n as [s|s| |s m e]; cbn [notNegative]; intros H.
  - reflexivity.
  - subst. reflexivity.
  - reflexivity.
  - subst. rewrite compare_finite_0. reflexivity.
Qed.

(** X13. A hyphen is never a sign: it is a separator, so no token
    starts with one, and no token yields a number below zero. The test
    [n < 0] of the parser is false on every number it reads. *)
Theorem hyphen_is_never_a_sign (input : list N) :
  Forall (fun n => notNegative n /\ lt n (of_Z 0) = false)
         (map Number (tokens input)).
Proof.
  apply Forall_fmap.
  eapply Forall_impl; [apply (Tokens_plain input), tokens_Tokens|].
  intros t [Hne Hs]. unfold compose.
  pose proof (Number_notNegative t Hne Hs) as H.
  split; [exact H | apply notNegative_lt_0, H].
Qed.

End ParserMore.

(** The line [1,2,3], with a space for, or after, its second comma. *)
Lemma separators_only_separate_witness :
  LottoForm.tokens (str "1,2,3") = LottoForm.tokens (str "1,2") ++ LottoForm.tokens (str "3")
  /\ Spec.byKind (LottoForm.validateAndParseDraw (str "1,2 3") game3d)
     = Spec.byKind (LottoForm.validateAndParseDraw (str "1,2,3") game3d)
  /\ Spec.byKind (LottoForm.validateAndParseDraw (str "1,2, 3") game3d)
     = Spec.byKind (LottoForm.validateAndParseDraw (str "1,2,3") game3d).
Proof.
  apply (separators_only_separate (str "1,2") (str "3") 44%N 32%N game3d);
    reflexivity.
Defined.

(** ** From a draw to its text and back *)

Section RoundTrip.
Import LottoForm GeminiService Spec Notions.

Lemma tokens_separators (w s : list N) :
  Forall (fun c => separator c = true) w -> tokens (w ++ s) = tokens s.
Proof.
  induction 1 as [|c w Hc Hw IH]; [reflexivity|].
  cbn [app]. rewrite tokens_separator by exact Hc. exact IH.
Qed.

Lemma digit_text (a : N) :
  (a <= 9)%N ->
  numberToString a = [(48 + a)%N]
  /\ separator (48 + a) = false
  /\ Number [(48 + a)%N] = of_Z (Z.of_N a)
  /\ isNaN (of_Z (Z.of_N a)) = false
  /\ notDigit (of_Z (Z.of_N a)) = false
  /\ Z.to_N (default 0 (asInteger (of_Z (Z.of_N a)))) = a.
Proof.
  intros H.
  assert (Ha : (a = 0 \/ a = 1 \/ a = 2 \/ a = 3 \/ a = 4 \/ a = 5 \/ a = 6
                \/ a = 7 \/ a = 8 \/ a = 9)%N) by lia.
  repeat (destruct Ha as [-> | Ha]); try subst a; vm_compute; repeat split.
Qed.

Lemma tokens_digit (a : N) (sep rest : list N) :
  (a <= 9)%N -> sep <> [] -> Forall (fun c => separator c = true) sep ->
  tokens ([(48 + a)%N] ++ sep ++ rest) = [(48 + a)%N] :: tokens rest.
Proof.
  intros Ha Hne Hsep. destruct (digit_text a Ha) as (_ & Hs & _).
  rewrite tokens_token.
  - rewrite tokens_separators by exact Hsep. reflexivity.
  - discriminate.
  - constructor; [exact Hs | constructor].
  - right. destruct sep as [|c sep]; [contradiction|].
    inversion Hsep; subst. cbn. eauto.
Qed.

(** X14. A draw comes back from its own text: the three digits of a
    valid draw, written in decimal and joined by any separators (as the
    list of draws shows them, with [' - ']), parse to that draw. *)
Theorem written_draw_parses_back (draw : Draw) (sep : list N) :
  validDraw draw ->
  sep <> [] -> Forall (fun c => separator c = true) sep ->
  LottoForm.handleAddDraw (join sep (map numberToString draw)) game3d = inr draw.
Proof.
  intros [Hl Hd] Hne Hsep.
  destruct draw as [|a [|b [|c [|? ?]]]]; try discriminate.
  inversion Hd as [|? ? Ha Hd1]; subst.
  inversion Hd1 as [|? ? Hb Hd2]; subst.
  inversion Hd2 as [|? ? Hc _]; subst.
  destruct (digit_text a Ha) as (Ea & _ & Na & NaNa & Da & Ra).
  destruct (digit_text b Hb) as (Eb & _ & Nb & NaNb & Db & Rb).
  destruct (digit_text c Hc) as (Ec & Sc & Nc & NaNc & Dc & Rc).
  cbn [map join]. rewrite Ea, Eb, Ec.
  assert (Ht : tokens ([(48 + a)%N] ++ sep ++ [(48 + b)%N] ++ sep ++ [(48 + c)%N])
               = [[(48 + a)%N]; [(48 + b)%N]; [(48 + c)%N]]).
  { rewrite !tokens_digit by assumption.
    rewrite <- (app_nil_r [(48 + c)%N]).
    rewrite tokens_token.
    - rewrite tokens_nil. reflexivity.
    - discriminate.
    - constructor; [exact Sc | constructor].
    - left. reflexivity. }
  unfold LottoForm.handleAddDraw, validateAndParseDraw. cbv zeta.
  change (String.eqb (id game3d) "3d") with true. cbv iota.
  rewrite Ht. cbn [length Nat.eqb negb map existsb].
  rewrite Na, Nb, Nc, NaNa, NaNb, NaNc, Da, Db, Dc. cbn [orb].
  unfold toDraw. cbn [map]. rewrite Ra, Rb, Rc. reflexivity.
Qed.

End RoundTrip.

Lemma written_draw_parses_back_witness :
  LottoForm.handleAddDraw (str "1 - 2 - 3") game3d = inr [1; 2; 3]%N.
Proof.
  apply (written_draw_parses_back [1; 2; 3]%N (str " - ")).
  - split; [reflexivity | repeat constructor; lia].
  - discriminate.
  - repeat constructor.
Defined.

(** ** The outcome of an upload *)

Section Upload.
Import LottoForm Spec Notions.

(** X15. An upload is all or nothing, and one of its messages is never
    given: the draws are handed over only when the text has a line and
    every line parses, and then there is one draw per line; a text with
    no line is reported as empty; and since a text whose lines all parse
    gives as many draws as lines, the message for a file with lines but
    no valid draw has no case left. *)
Theorem upload_is_all_or_nothing (text : list N) (game : LottoGame) :
  let lines := csvLines text in
  handleFileUpload text game
  = match text with
    | [] => CouldNotRead
    | _ =>
        match failures game 0 lines, lines with
        | _ :: _, _ => ErrorsInCsv (errorReport (failures game 0 lines))
        | [], [] => EmptyFile
        | [], _ :: _ => AddMultipleDraws (map toDraw (successes game lines))
        end
    end
  /\ handleFileUpload text game <> NoValidDraws
  /\ (failures game 0 lines = [] ->
      length (map toDraw (successes game lines)) = length lines).
Proof.
  cbv zeta.
  pose proof (successes_failures_length game 0 (csvLines text)) as Hlen.
  assert (Hall : failures game 0 (csvLines text) = [] ->
                 length (map toDraw (successes game (csvLines text)))
                 = length (csvLines text)).
  { intros E. rewrite E in Hlen. rewrite length_map. cbn in Hlen. lia. }
  assert (Hmain : handleFileUpload text game
    = match text with
      | [] => CouldNotRead
      | _ =>
          match failures game 0 (csvLines text), csvLines text with
          | _ :: _, _ => ErrorsInCsv (errorReport (failures game 0 (csvLines text)))
          | [], [] => EmptyFile
          | [], _ :: _ =>
              AddMultipleDraws (map toDraw (successes game (csvLines text)))
          end
      end).
  { unfold handleFileUpload. destruct text as [|c text]; [reflexivity|].
    rewrite processCsvText_spec.
    set (ls := csvLines (c :: text)) in *.
    set (fs := failures game 0 ls) in *.
    set (ss := successes game ls) in *.
    clearbody fs ss. clearbody ls.
    destruct fs as [|e errors]; [|reflexivity].
    destruct ls as [|l lines], ss as [|d draws]; cbn in Hlen; try discriminate Hlen;
      reflexivity. }
  split; [exact Hmain|]. split; [|exact Hall].
  rewrite Hmain. destruct text; [discriminate|].
  destruct (failures _ _ _); [|discriminate].
  destruct (csvLines _); discriminate.
Qed.

End Upload.

(** ** The fence pattern, in general *)

Section FenceMore.
Import GeminiService Spec.

Lemma star_lazy_any_sound (s m r : list N) :
  (m, r) ∈ star_lazy_any s -> s = m ++ r.
Proof.
  revert m r. induction s as [|c s IH]; intros m r H; cbn in H.
  - apply list_elem_of_singleton in H. inversion H; subst. reflexivity.
  - apply elem_of_cons in H as [H|H].
    + inversion H; subst. reflexivity.
    + apply list_elem_of_fmap in H as ([m' r'] & E & H). inversion E; subst.
      cbn. f_equal. apply IH. exact H.
Qed.

Lemma fenceMatch_sound (jsonStr group : list N) :
  fenceMatch jsonStr = Some group ->
  exists label w w',
    jsonStr = fence ++ label ++ w ++ group ++ w' ++ fence
    /\ Forall (fun c => isWordChar c = true) label
    /\ Forall (fun c => isWhiteSpace c = true) w
    /\ Forall (fun c => isWhiteSpace c = true) w'.
Proof.
  unfold fenceMatch. intros H. apply head_Some_elem_of in H.
  apply list_elem_of_bind in H as ([m0 r0] & H & H0).
  apply list_elem_of_bind in H as ([m1 r1] & H & H1).
  apply list_elem_of_bind in H as ([m2 r2] & H & H2).
  apply list_elem_of_bind in H as ([m3 r3] & H & H3).
  apply list_elem_of_bind in H as ([m4 r4] & H & H4).
  apply list_elem_of_bind in H as ([] & H & H5).
  apply list_elem_of_singleton in H. subst group. cbn [fst snd] in *.
  apply lit_fence_sound in H0.
  apply star_greedy_sound in H1 as [E1 F1].
  apply star_greedy_sound in H2 as [E2 F2].
  apply opt_char_sound in H3 as [E3 F3].
  apply star_lazy_any_sound in H4.
  apply fenceClose_sound in H5 as (w' & F5 & E5).
  exists m1, (m2 ++ m3), w'. subst. split.
  - rewrite <- !app_assoc. reflexivity.
  - split; [exact F1|]. split; [|exact F5].
    apply Forall_app. split; [exact F2|].
    destruct F3 as [-> | ->]; repeat constructor.
Qed.

(** X16. Stripping a fence removes nothing but a fence: the text handed
    to the JSON parser is the trimmed response, or the trimmed inside of
    a response that is an opening fence with a word label, white space,
    the inside, white space and a closing fence. Either way it has no
    white space at its ends. *)
Theorem stripFence_removes_only_a_fence (text : list N) :
  (stripFence text = trim text
   \/ exists label w group w',
        trim text = fence ++ label ++ w ++ group ++ w' ++ fence
        /\ Forall (fun c => isWordChar c = true) label
        /\ Forall (fun c => isWhiteSpace c = true) w
        /\ Forall (fun c => isWhiteSpace c = true) w'
        /\ group <> []
        /\ stripFence text = trim group)
  /\ trim (stripFence text) = stripFence text.
Proof.
  unfold stripFence. cbv zeta.
  destruct (fenceMatch (trim text)) as [[|c body]|] eqn:E.
  - split; [left; reflexivity | apply trim_idempotent].
  - split; [|apply trim_idempotent].
    right. apply fenceMatch_sound in E as (label & w & w' & E & F1 & F2 & F3).
    exists label, w, (c :: body), w'. repeat split; auto; discriminate.
  - split; [left; reflexivity | apply trim_idempotent].
Qed.

End FenceMore.

(** ** Adding several draws *)

Section CollectionMore.
Import GeminiService App Spec Notions.

Variable JSON_parse : list N -> option JSValue.
Variable API_KEY : option (list N).

Lemma frequencyEffect_nonempty (st : AppState) :
  recentDraws st <> [] ->
  frequencyEffect st = {|
    selectedGameId := selectedGameId st;
    recentDraws := recentDraws st;
    frequencyData := (analyze (selectedGame st) (recentDraws st)).1;
    hotDigitsPrediction := (analyze (selectedGame st) (recentDraws st)).2;
    geminiPrediction := None;
    isLoadingAiPrediction := isLoadingAiPrediction st;
    aiError := None |}.
Proof.
  intros H. unfold frequencyEffect. destruct (recentDraws st); [contradiction|reflexivity].
Qed.

Lemma run_AddDraw (draws : list Draw) (w : World) :
  draws <> [] ->
  run JSON_parse API_KEY w (map AddDraw draws)
  = dispatch JSON_parse API_KEY w (AddMultipleDraws draws).
Proof.
  intros Hne. cbn [dispatch].
  revert w. induction draws as [|d draws IH]; intros w; [contradiction|].
  cbn [map run fold_left].
  destruct draws as [|d' draws].
  - reflexivity.
  - change (fold_left (dispatch JSON_parse API_KEY) (map AddDraw (d' :: draws)) ?w0)
      with (run JSON_parse API_KEY w0 (map AddDraw (d' :: draws))).
    rewrite IH by discriminate.
    cbn [dispatch state inFlight]. f_equal.
    assert (Hrev : forall prev : list Draw,
              rev (d :: d' :: draws) ++ prev = rev (d' :: draws) ++ d :: prev).
    { intros prev. cbn [rev]. rewrite <- !app_assoc. reflexivity. }
    assert (Hnil : forall prev : list Draw, rev (d' :: draws) ++ d :: prev <> []).
    { intros prev E. apply app_eq_nil in E as [_ E]. discriminate. }
    rewrite (frequencyEffect_nonempty (handleAddDraw d (state w)))
      by (cbn; discriminate).
    rewrite (frequencyEffect_nonempty (handleAddMultipleDraws (d' :: draws) _))
      by (cbn [handleAddMultipleDraws setRecentDraws recentDraws];
          unfold addMultipleDraws, addMultipleDrawsUpdater, addDraw; cbn [fst];
          apply Hnil).
    rewrite (frequencyEffect_nonempty (handleAddMultipleDraws (d :: d' :: draws) _))
      by (cbn [handleAddMultipleDraws setRecentDraws recentDraws];
          unfold addMultipleDraws, addMultipleDrawsUpdater; cbn [fst];
          rewrite Hrev; apply Hnil).
    cbn [selectedGameId recentDraws isLoadingAiPrediction handleAddDraw
         handleAddMultipleDraws setRecentDraws].
    unfold addMultipleDraws, addMultipleDrawsUpdater, addDraw. cbn [fst].
    rewrite Hrev. reflexivity.
Qed.

(** X17. Handing over several draws at once is the same as adding them
    one at a time, oldest first: both leave the component in the same
    state, with the last of them first in the collection. *)
Theorem upload_equals_adding_one_by_one (draws : list Draw) (w : World) :
  draws <> [] ->
  dispatch JSON_parse API_KEY w (AddMultipleDraws draws)
  = run JSON_parse API_KEY w (map AddDraw draws)
  /\ recentDraws (state (dispatch JSON_parse API_KEY w (AddMultipleDraws draws)))
     = rev draws ++ recentDraws (state w).
Proof.
  intros Hne. split; [symmetry; apply run_AddDraw; exact Hne|].
  cbn [dispatch state].
  destruct (frequencyEffect_fields
              (handleAddMultipleDraws draws (state w))) as (-> & _).
  reflexivity.
Qed.

(** X18. The updater for several draws reverses the array it is given
    in place: run once it prepends the draws newest first; run again on
    the same array it prepends them in the order they were given, and
    the array is back as it was. *)
Theorem updater_reverses_its_argument_in_place {A} (draws prevDraws : list A) :
  let '(state1, draws1) := addMultipleDrawsUpdater draws prevDraws in
  let '(state2, draws2) := addMultipleDrawsUpdater draws1 prevDraws in
  state1 = rev draws ++ prevDraws
  /\ draws1 = rev draws
  /\ state2 = draws ++ prevDraws
  /\ draws2 = draws.
Proof.
  unfold addMultipleDrawsUpdater. cbn. rewrite rev_involutive. auto.
Qed.

End CollectionMore.

(** Two draws on the initial component. *)
Lemma upload_equals_adding_one_by_one_witness :
  let draws := [[1; 2; 3]; [4; 5; 6]]%N in
  App.dispatch (fun _ => None) None App.initialWorld (App.AddMultipleDraws draws)
  = App.run (fun _ => None) None App.initialWorld (map App.AddDraw draws)
  /\ App.recentDraws
       (App.state (App.dispatch (fun _ => None) None App.initialWorld
                     (App.AddMultipleDraws draws)))
     = rev draws ++ App.recentDraws (App.state App.initialWorld).
Proof.
  cbv zeta.
  apply (upload_equals_adding_one_by_one (fun _ => None) None
           [[1; 2; 3]; [4; 5; 6]]%N App.initialWorld).
  discriminate.
Defined.

(** ** The statistics on the page *)

Section PageStatistics.
Import GeminiService App Spec Notions ResultsDashboard Page.

Variable JSON_parse : list N -> option JSValue.
Variable API_KEY : option (list N).
Variable sampleCsvData : list N.

Lemma act_world (p : PageState) (a : Action) :
  world (act JSON_parse API_KEY sampleCsvData p a) = world p
  \/ exists ev,
       world (act JSON_parse API_KEY sampleCsvData p a)
       = dispatch JSON_parse API_KEY (world p) ev.
Proof.
  destruct a; cbn [act].
  - destruct (existsb _ _); [right|left]; eauto.
  - left. reflexivity.
  - unfold clickAddDraw. cbv zeta.
    destruct (LottoForm.handleAddDraw _ _); [left|right]; eauto.
  - left. reflexivity.
  - unfold readerSettles. cbv zeta.
    destruct result as [text|]; [|left; reflexivity].
    destruct (LottoForm.handleFileUpload _ _); try (left; reflexivity).
    right. eauto.
  - unfold clickLoadSample. cbv zeta.
    destruct sampleCsvData; [left; reflexivity|].
    destruct (LottoForm.processCsvText _ _) as [parsedDraws errors].
    destruct (0 <? _)%nat; [left; reflexivity|].
    destruct (_ =? 0)%nat; [left; reflexivity|].
    right. eauto.
  - destruct (index <? _)%nat; [right|left]; eauto.
  - destruct (0 <? _)%nat; [right|left]; eauto.
  - destruct (buttonEnabled _ _); [right|left]; eauto.
  - right. eauto.
Qed.

Lemma Consistent_acts (p : PageState) (l : list Action) :
  Consistent (world p) ->
  Consistent (world (acts JSON_parse API_KEY sampleCsvData p l)).
Proof.
  revert p. induction l as [|a l IH]; intros p HC; cbn; [exact HC|].
  apply IH. destruct (act_world p a) as [-> | (ev & ->)]; [exact HC|].
  apply Consistent_dispatch. exact HC.
Qed.

Lemma totalCount_valid (draws : list Draw) :
  Forall validDraw draws -> totalCount draws = (3 * length draws)%nat.
Proof.
  unfold totalCount. induction 1 as [|d draws [Hd _] _ IH]; [reflexivity|].
  cbn [concat length]. rewrite length_app, IH, Hd. lia.
Qed.

Lemma concat_valid (draws : list Draw) :
  Forall validDraw draws -> Forall (fun v => (v <= 9)%N) (concat draws).
Proof.
  induction 1 as [|d draws [_ Hd] _ IH]; [constructor|].
  cbn [concat]. apply Forall_app. split; assumption.
Qed.

Lemma newFrequencyData_nil (draws : list Draw) :
  Forall validDraw draws ->
  (length (newFrequencyData draws) =? 0)%nat = (length draws =? 0)%nat.
Proof.
  intros H. destruct draws as [|d draws]; [reflexivity|].
  inversion H as [|? ? [Hl _] _]; subst.
  destruct d as [|a d]; [discriminate|].
  destruct (newFrequencyData_spec ((a :: d) :: draws)) as (_ & Hin & _).
  assert (Ha : a ∈ Types.number <$> newFrequencyData ((a :: d) :: draws)).
  { apply Hin. cbn. apply elem_of_cons. left. reflexivity. }
  unfold Draw in *.
  destruct (newFrequencyData ((a :: d) :: draws)); [inversion Ha | reflexivity].
Qed.

(** X19. On the page the statistics stay within the game: the
    frequency list has at most ten rows, each for a digit up to 9; its
    counts add up to three times the number of draws; it is empty only
    with the collection; there are as many hot digits as rows, up to
    three, and the note on fewer digits shows exactly when one or two
    different digits were entered. *)
Theorem page_statistics_stay_within_the_game (l : list Action) :
  let st := state (world (acts JSON_parse API_KEY sampleCsvData initialPage l)) in
  (length (frequencyData st) <= 10)%nat
  /\ Forall (fun e => (Types.number e <= 9)%N) (frequencyData st)
  /\ sumCounts (frequencyData st) = (3 * length (recentDraws st))%nat
  /\ (length (frequencyData st) =? 0)%nat = (length (recentDraws st) =? 0)%nat
  /\ length (hotDigitsPrediction st) = Nat.min 3 (length (frequencyData st))
  /\ fewerDigitsNote (selectedGame st) st
     = (0 <? length (frequencyData st))%nat && (length (frequencyData st) <? 3)%nat.
Proof.
  cbv zeta.
  pose proof (Consistent_acts initialPage l Consistent_initial) as (Hd & _ & _).
  pose proof (Sound_acts JSON_parse API_KEY sampleCsvData initialPage l Sound_initial)
    as (_ & Hv & _ & _).
  set (st := state (world (acts JSON_parse API_KEY sampleCsvData initialPage l))) in *.
  rewrite selectedGame_game3d in *. rewrite analyze_newFrequencyData in Hd.
  injection Hd as Hfd Hhot.
  destruct (newFrequencyData_spec (recentDraws st)) as (Hnd & Hin & _ & _).
  cbv zeta in *. rewrite <- Hfd in Hnd, Hin.
  assert (Hnum : Forall (fun e => (Types.number e <= 9)%N) (frequencyData st)).
  { apply Forall_forall. intros e He.
    assert (Hc : Types.number e ∈ concat (recentDraws st)).
    { apply Hin. apply list_elem_of_fmap. eauto. }
    pose proof (concat_valid _ Hv) as Hall. rewrite Forall_forall in Hall.
    apply Hall. exact Hc. }
  assert (Hhotlen : length (hotDigitsPrediction st)
                    = Nat.min 3 (length (frequencyData st))).
  { rewrite Hhot, Hfd. unfold topHotDigits.
    rewrite (Permutation_length (sort_by_Permutation _ _)).
    rewrite length_map, length_take. reflexivity. }
  split; [|split; [exact Hnum|split; [|split; [|split; [exact Hhotlen|]]]]].
  - rewrite <- (length_fmap Types.number).
    change 10%nat with (length [0; 1; 2; 3; 4; 5; 6; 7; 8; 9]%N).
    apply submseteq_length, NoDup_submseteq; [exact Hnd|].
    intros v Hv'. apply list_elem_of_fmap in Hv' as (e & -> & He).
    rewrite Forall_forall in Hnum. specialize (Hnum e He).
    repeat rewrite elem_of_cons. lia.
  - rewrite Hfd, sumCounts_newFrequencyData. apply totalCount_valid. exact Hv.
  - rewrite Hfd. apply newFrequencyData_nil. exact Hv.
  - unfold fewerDigitsNote. rewrite Hhotlen. cbn [numbersToPick game3d].
    destruct (length (frequencyData st)) as [|[|[|n]]]; reflexivity.
Qed.

End PageStatistics.

(** ** The service call and the request *)

Section ServiceMore.
Import GeminiService App Spec Notions.

Variable JSON_parse : list N -> option JSValue.
Variable API_KEY : option (list N).

(** X20. With a client the service makes one call and answers when it
    settles, whatever the response: there is no second call. It answers
    with a prediction exactly when the call fulfilled with a text that,
    its fence stripped, parses to a value that passes the checks. *)
Theorem service_answers_after_one_call
    (client : GoogleGenAI) (game : LottoGame) (draws : list Draw) :
  exists request k,
    getGeminiPrediction JSON_parse (Some client) game draws = Await request k
    /\ contents request = buildPrompt game draws
    /\ forall response, exists r,
         k response = Done r
         /\ forall p,
              r = inr p
              <-> exists text parsedData,
                    response = Fulfilled (Some text)
                    /\ JSON_parse (stripFence text) = Some parsedData
                    /\ validate game parsedData = inr p.
Proof.
  eexists _, _. split; [reflexivity|]. split; [reflexivity|].
  intros response. eexists. split; [reflexivity|].
  intros p. destruct response as [message|[text|]]; cbn [readResponse].
  - split; [discriminate | intros (? & ? & ? & _); discriminate].
  - destruct (JSON_parse (stripFence text)) as [parsedData|] eqn:E.
    + destruct (validate game parsedData) as [e|p'] eqn:Ev.
      * split; [discriminate|].
        intros (t & v & [= <-] & Hp & Hv). congruence.
      * split.
        -- intros [= <-]. eauto.
        -- intros (t & v & [= <-] & Hp & Hv). congruence.
    + split; [discriminate|].
      intros (t & v & [= <-] & Hp & _). congruence.
  - split; [discriminate | intros (? & ? & ? & _); discriminate].
Qed.

(** X21. What asking for a prediction does at once. With fewer than
    three draws it only sets its message: no call, and a held prediction
    stays. From three draws on, without a client the service's error is
    set at once and nothing is in flight; with a client one more call is
    in flight, the loading flag is set, and prediction and error are
    cleared. *)
Theorem request_starts_from_three_draws (w : World) :
  let st := state w in
  let w' := dispatch JSON_parse API_KEY w GetGeminiPrediction in
  let st' := state w' in
  if (length (recentDraws st) <? 3)%nat then
    inFlight w' = inFlight w
    /\ aiError st' = Some NeedThreeDraws
    /\ geminiPrediction st' = geminiPrediction st
    /\ isLoadingAiPrediction st' = isLoadingAiPrediction st
  else if ResultsDashboard.API_KEY_AVAILABLE API_KEY then
    length (inFlight w') = S (length (inFlight w))
    /\ aiError st' = None
    /\ geminiPrediction st' = None
    /\ isLoadingAiPrediction st' = true
  else
    inFlight w' = inFlight w
    /\ aiError st' = Some (ServiceMessage ClientNotInitialized)
    /\ geminiPrediction st' = None
    /\ isLoadingAiPrediction st' = false.
Proof.
  cbv zeta. cbn [dispatch]. unfold handleGetGeminiPrediction. cbv zeta.
  destruct (length (recentDraws (state w)) <? 3)%nat; [cbn; auto|].
  destruct API_KEY as [[|c key]|]; cbn; auto.
  rewrite length_app. cbn. repeat split. lia.
Qed.

End ServiceMore.

(** ** Rejected entries *)

Section FormMore.
Import GeminiService App Spec Notions Page.

Variable JSON_parse : list N -> option JSValue.
Variable API_KEY : option (list N).
Variable sampleCsvData : list N.

(** X22. A rejected entry changes nothing: when adding a draw, an
    upload or the loading of the sample data leaves its message, the
    component is as it was; in particular an upload with one bad line
    adds none of its draws. *)
Theorem rejected_entry_changes_nothing (p : PageState) (a : Action) :
  let p' := act JSON_parse API_KEY sampleCsvData p a in
  rejected a (form p') = true -> world p' = world p.
Proof.
  cbv zeta. destruct a; cbn [act rejected]; try discriminate.
  - unfold clickAddDraw. cbv zeta.
    destruct (LottoForm.handleAddDraw _ _); cbn; [reflexivity | discriminate].
  - unfold readerSettles. cbv zeta.
    destruct result as [text|]; [|reflexivity].
    destruct (LottoForm.handleFileUpload _ _); cbn; try reflexivity.
    discriminate.
  - unfold clickLoadSample. cbv zeta.
    destruct sampleCsvData; [reflexivity|].
    destruct (LottoForm.processCsvText _ _) as [parsedDraws errors].
    destruct (0 <? _)%nat; [reflexivity|].
    destruct (_ =? 0)%nat; [reflexivity | discriminate].
Qed.

End FormMore.

(** A line of two digits, typed and added. *)
Lemma rejected_entry_changes_nothing_witness :
  let p := Page.act (fun _ => None) None [] Page.initialPage
             (Page.TypeDraw (str "1,2")) in
  Page.world (Page.act (fun _ => None) None [] p Page.ClickAddDraw) = Page.world p.
Proof.
  apply (rejected_entry_changes_nothing (fun _ => None) None []
           (Page.act (fun _ => None) None [] Page.initialPage
              (Page.TypeDraw (str "1,2")))
           Page.ClickAddDraw).
  vm_compute. reflexivity.
Defined.

(** ** Games other than the 3-digit one *)

Section OtherGames.
Import LottoForm GeminiService Spec Notions.

Lemma existsb_false_Forall {A} (f : A -> bool) (l : list A) :
  existsb f l = false -> Forall (fun x => f x = false) l.
Proof.
  induction l as [|x l IH]; cbn; [constructor|].
  intros H. apply orb_false_iff in H as [Hx Hl]. constructor; auto.
Qed.

(** X23. The parser on a game other than the 3-digit one: a draw it
    returns holds the numbers of the line's tokens, as many as the game
    picks, none of them NaN and each an integer within the game's range
    (from 1 when the game names no minimum); in their order when the
    order is significant, and otherwise rearranged only, after the set
    of them was found to have as many elements as there are tokens. *)
Theorem other_games_draw_is_checked
    (input : list N) (game : LottoGame) (numbers : DrawResult) :
  String.eqb (id game) "3d" = false ->
  validateAndParseDraw input game = inr numbers ->
  let parsed := map Number (tokens input) in
  numbers ≡ₚ parsed
  /\ length numbers = numbersToPick game
  /\ Forall (fun n => isNaN n = false /\ notInRange game n = false) numbers
  /\ (if default false (isOrderSignificant game) then numbers = parsed
      else setSize [] parsed = length parsed).
Proof.
  intros Hid. unfold validateAndParseDraw. cbv zeta. rewrite Hid.
  destruct (negb (length (tokens input) =? numbersToPick game)%nat) eqn:Elen;
    [discriminate|].
  apply negb_false_iff, Nat.eqb_eq in Elen.
  destruct (existsb isNaN (map Number (tokens input))) eqn:Enan; [discriminate|].
  destruct (existsb (notInRange game) (map Number (tokens input))) eqn:Erange;
    [discriminate|].
  apply existsb_false_Forall in Enan, Erange.
  assert (Hall : Forall (fun n => isNaN n = false /\ notInRange game n = false)
                        (map Number (tokens input))).
  { apply Forall_and. split; assumption. }
  destruct (default false (isOrderSignificant game)) eqn:Eorder; cbn [negb andb].
  - intros [= <-]. split; [reflexivity|]. split; [|split; [exact Hall | reflexivity]].
    rewrite length_map. exact Elen.
  - destruct (negb (setSize [] (map Number (tokens input))
                    =? length (map Number (tokens input)))%nat) eqn:Eset;
      [discriminate|].
    apply negb_false_iff, Nat.eqb_eq in Eset.
    intros [= <-].
    pose proof (sort_by_Permutation (fun a b => sign (sub a b))
                  (map Number (tokens input))) as HP.
    split; [exact HP|]. split; [|split; [|exact Eset]].
    + rewrite (Permutation_length HP), length_map. exact Elen.
    + rewrite HP. exact Hall.
Qed.

Lemma checkNumbers_valid (game : LottoGame) (nums : list JSValue) (l : list number) :
  checkNumbers game nums = inr l ->
  l = omap asNumber nums
  /\ length l = length nums
  /\ Forall (fun n => invalidNumber game (JNumber n) = false) l.
Proof.
  revert l. induction nums as [|v nums IH]; intros l H; cbn in H.
  - injection H as <-. repeat split. constructor.
  - destruct v; try discriminate.
    destruct (invalidNumber game (JNumber n)) eqn:E; try discriminate.
    destruct (checkNumbers game nums) as [|l'] eqn:E2; try discriminate.
    injection H as <-. destruct (IH _ eq_refl) as (-> & Hl & Hd).
    split; [reflexivity|]. split; [cbn in *; lia|]. constructor; assumption.
Qed.

Lemma unique_length (seen l : list number) :
  (length (unique seen l) <= length l)%nat.
Proof.
  revert seen. induction l as [|x l IH]; intros seen; cbn; [lia|].
  destruct (existsb (sameValueZero x) seen); cbn.
  - specialize (IH seen). lia.
  - specialize (IH (setElement x :: seen)). lia.
Qed.

Lemma unique_full (seen l : list number) :
  length (unique seen l) = length l -> unique seen l = map setElement l.
Proof.
  revert seen. induction l as [|x l IH]; intros seen; cbn; [reflexivity|].
  destruct (existsb (sameValueZero x) seen); cbn.
  - pose proof (unique_length seen l). lia.
  - intros H. f_equal. apply IH. lia.
Qed.

Lemma invalidNumber_setElement (game : LottoGame) (n : number) :
  invalidNumber game (JNumber (setElement n)) = invalidNumber game (JNumber n).
Proof. destruct n as [[|]| | |]; reflexivity. Qed.

(** X24. The checks on a response for a game other than the 3-digit
    one: a prediction that passes holds the numbers of the response as a
    set stores them (a -0 as +0), rearranged only (none is dropped as a
    duplicate), as many as the game picks, each an integer within the
    game's range. *)
Theorem other_games_prediction_is_checked
    (game : LottoGame) (parsedData : JSValue) (p : GeminiPrediction) :
  String.eqb (id game) "3d" = false ->
  validate game parsedData = inr p ->
  exists nums,
    getField (str "predictedNumbers") parsedData = inr (Some (JArray nums))
    /\ predictedNumbers p ≡ₚ setElement <$> omap asNumber nums
    /\ length nums = numbersToPick game
    /\ length (predictedNumbers p) = numbersToPick game
    /\ Forall (fun n => invalidNumber game (JNumber n) = false) (predictedNumbers p).
Proof.
  intros Hid. unfold validate. rewrite Hid.
  destruct (getField (str "predictedNumbers") parsedData) as [|numbers]; [discriminate|].
  destruct (negb (from_option truthy false numbers)); [discriminate|].
  destruct (getField (str "analysisSummary") parsedData) as [|summary]; [discriminate|].
  destruct numbers as [[| | | |nums|]|]; try discriminate;
    destruct summary as [summary|]; try discriminate.
  destruct (negb (truthy summary)); [discriminate|].
  destruct (negb (length nums =? numbersToPick game)%nat) eqn:Elen; [discriminate|].
  apply negb_false_iff, Nat.eqb_eq in Elen.
  destruct (checkNumbers game nums) as [|l] eqn:Ec; [discriminate|].
  apply checkNumbers_valid in Ec as (El & Hl & Hd).
  cbv zeta.
  destruct (negb (length (sort_by (fun a b => sign (sub a b)) (unique [] l))
                  =? numbersToPick game)%nat) eqn:Eu; [discriminate|].
  apply negb_false_iff, Nat.eqb_eq in Eu.
  intros [= <-]. cbn [predictedNumbers].
  pose proof (sort_by_Permutation (fun a b => sign (sub a b)) (unique [] l)) as HP.
  rewrite (Permutation_length HP) in Eu.
  assert (Hfull : unique [] l = map setElement l) by (apply unique_full; lia).
  rewrite Hfull in *.
  exists nums. split; [reflexivity|]. split; [rewrite HP, El; reflexivity|].
  split; [exact Elen|].
  split; [rewrite (Permutation_length HP), length_map; lia|].
  rewrite HP. apply Forall_fmap. eapply Forall_impl; [exact Hd|].
  intros n Hn. unfold compose. rewrite invalidNumber_setElement. exact Hn.
Qed.

End OtherGames.

Lemma other_games_draw_is_checked_witness :
  let numbers := map of_Z [1; 2; 3; 4; 5; 6] in
  let parsed := map Number (LottoForm.tokens (str "6 5 4 3 2 1")) in
  numbers ≡ₚ parsed
  /\ length numbers = 6%nat
  /\ Forall (fun n => isNaN n = false
                      /\ LottoForm.notInRange Notions.lotto642 n = false) numbers
  /\ setSize [] parsed = length parsed.
Proof.
  apply (other_games_draw_is_checked (str "6 5 4 3 2 1") Notions.lotto642
           (map of_Z [1; 2; 3; 4; 5; 6]));
    vm_compute; reflexivity.
Defined.

Lemma other_games_prediction_is_checked_witness :
  let p := {| GeminiService.predictedNumbers := map of_Z [1; 2; 3; 4; 5; 6];
              GeminiService.analysisSummary := GeminiService.JString (str "x") |} in
  exists nums,
    GeminiService.getField (str "predictedNumbers") Notions.sixNumbers
    = inr (Some (GeminiService.JArray nums))
    /\ GeminiService.predictedNumbers p
       ≡ₚ GeminiService.setElement <$> omap Spec.asNumber nums
    /\ length nums = 6%nat
    /\ length (GeminiService.predictedNumbers p) = 6%nat
    /\ Forall (fun n => GeminiService.invalidNumber Notions.lotto642
                          (GeminiService.JNumber n) = false)
              (GeminiService.predictedNumbers p).
Proof.
  apply (other_games_prediction_is_checked Notions.lotto642 Notions.sixNumbers
           {| GeminiService.predictedNumbers := map of_Z [1; 2; 3; 4; 5; 6];
              GeminiService.analysisSummary := GeminiService.JString (str "x") |});
    vm_compute; reflexivity.
Defined.
